(** * Obsidian-to-Denote converter: a shallow embedding of [converter.py]

    The development follows the Python source function by function.  A Python
    [str] is a sequence of Unicode code points and is modelled as [list N];
    [None] is modelled with [option].  Functions of the Python standard
    library and of PyYAML that the converter calls (Unicode tables, the YAML
    parser, the clock, the file system, MD5) are interfaces: type classes
    whose fields the converter is parametrised by. *)

From Stdlib Require Import NArith List String Ascii Lia Bool.
From stdpp Require Import base gmap.
Import ListNotations.

Set Implicit Arguments.

(** ** Text *)

Abbreviation char := N (only parsing).
Abbreviation str := (list N) (only parsing).

(** An ASCII literal as a Python string. *)
Definition lit (s : string) : str := map N_of_ascii (list_ascii_of_string s).

Arguments lit : simpl never.

Definition NL : char := 10%N.      (* '\n' *)
Definition BANG : char := 33%N.    (* '!'  *)
Definition HASH : char := 35%N.    (* '#'  *)
Definition LPAREN : char := 40%N.  (* '('  *)
Definition RPAREN : char := 41%N.  (* ')'  *)
Definition HYPHEN : char := 45%N.  (* '-'  *)
Definition DOT : char := 46%N.     (* '.'  *)
Definition SLASH : char := 47%N.   (* '/'  *)
Definition LBRACK : char := 91%N.  (* '['  *)
Definition RBRACK : char := 93%N.  (* ']'  *)
Definition USCORE : char := 95%N.  (* '_'  *)
Definition BAR : char := 124%N.    (* '|'  *)

Definition str_eqb (a b : str) : bool := bool_decide (a = b).

Definition is_ascii (c : char) : bool := (c <? 128)%N.

Definition ascii_digit (c : char) : bool := (48 <=? c)%N && (c <=? 57)%N.
Definition ascii_upper (c : char) : bool := (65 <=? c)%N && (c <=? 90)%N.
Definition ascii_lower (c : char) : bool := (97 <=? c)%N && (c <=? 122)%N.
Definition ascii_alnum (c : char) : bool :=
  ascii_digit c || ascii_upper c || ascii_lower c.

(** The ASCII characters for which [str.isspace] holds: TAB, LF, VT, FF, CR,
    the separators FS, GS, RS, US, and the space. *)
Definition ascii_space (c : char) : bool :=
  (9 <=? c)%N && (c <=? 13)%N || (28 <=? c)%N && (c <=? 32)%N.

(** The Unicode database, as far as the converter consults it: NFKD
    normalisation, and the alphanumeric, digit, whitespace and case tables
    for code points beyond ASCII. *)
Class Unicode := {
  nfkd : str -> str;
  uni_alnum : char -> bool;
  uni_digit : char -> bool;
  uni_space : char -> bool;
  uni_lower : char -> str;
  uni_upper : char -> str
}.

Section CharClasses.
Context `{Unicode}.

(** [\w] and [\s] of a Python 3 [str] pattern. *)
Definition re_word (c : char) : bool :=
  if is_ascii c then ascii_alnum c || (c =? USCORE)%N else uni_alnum c.

Definition re_space (c : char) : bool :=
  if is_ascii c then ascii_space c else uni_space c.

(** [\d] *)
Definition re_digit (c : char) : bool :=
  if is_ascii c then ascii_digit c else uni_digit c.

(** [str.lower] and [str.upper] *)
Definition lower_char (c : char) : str :=
  if is_ascii c then [if ascii_upper c then (c + 32)%N else c] else uni_lower c.

Definition str_lower (s : str) : str := flat_map lower_char s.

Definition upper_char (c : char) : str :=
  if is_ascii c then [if ascii_lower c then (c - 32)%N else c] else uni_upper c.

Definition str_upper (s : str) : str := flat_map upper_char s.
End CharClasses.

(** ** Scanning *)

(** the longest prefix of [s] whose characters satisfy [p], and what follows *)
Fixpoint run_of (p : char -> bool) (s : str) : str :=
  match s with
  | c :: t => if p c then c :: run_of p t else []
  | [] => []
  end.

Fixpoint after_run (p : char -> bool) (s : str) : str :=
  match s with
  | c :: t => if p c then after_run p t else s
  | [] => []
  end.

Definition startswith (prefix s : str) : bool :=
  str_eqb (firstn (length prefix) s) prefix.

Definition endswith (suffix s : str) : bool :=
  str_eqb (skipn (length s - length suffix) s) suffix.

(** [s.find(sub)] at or after the head of [s] *)
Fixpoint find_str (sub s : str) : option nat :=
  if startswith sub s then Some 0
  else match s with
       | [] => None
       | _ :: t => option_map S (find_str sub t)
       end.

(** [s.index(sub, start)]; [None] stands for [ValueError] *)
Definition index_from (sub s : str) (start : nat) : option nat :=
  option_map (fun i => start + i) (find_str sub (skipn start s)).

(** [sub in s] *)
Definition contains (sub s : str) : bool :=
  match find_str sub s with Some _ => true | None => false end.

(** [s.split(sep, 1)] for a one-character separator that occurs in [s] *)
Definition split_once (sep : char) (s : str) : str * str :=
  (run_of (fun c => negb (c =? sep)%N) s,
   tl (after_run (fun c => negb (c =? sep)%N) s)).

(** [sep.join(parts)] *)
Fixpoint join (sep : str) (parts : list str) : str :=
  match parts with
  | [] => []
  | [p] => p
  | p :: rest => p ++ sep ++ join sep rest
  end.

(** [s.split(sep)] for a one-character separator *)
Fixpoint split_on (sep : char) (s : str) : list str :=
  match s with
  | [] => [[]]
  | c :: t =>
      if (c =? sep)%N then [] :: split_on sep t
      else match split_on sep t with
           | w :: ws => (c :: w) :: ws
           | [] => [[c]]
           end
  end.

(** [s.lstrip(c)], [s.rstrip(c)] and [s.strip(c)] for one character *)
Definition lstrip (c : char) (s : str) : str := after_run (fun x => (x =? c)%N) s.
Definition rstrip (c : char) (s : str) : str := rev (lstrip c (rev s)).
Definition strip (c : char) (s : str) : str := rstrip c (lstrip c s).

(** ** Regular-expression substitution

    A pattern is given by its matcher: [m s = Some (g, n)] when the pattern
    matches a prefix of [s] of length [n], with [g] the text of its capture
    group 1 (the whole match when the pattern has no group).  None of the
    converter's patterns matches the empty string, so [n >= 1] throughout.

    [re_sub m f s] is [re.sub(pattern, f, s)]: scanning left to right, every
    match found is replaced by [f g] and the scan resumes after it; a
    character at which nothing matches is copied.  The counter [skip] is the
    number of characters of the current match still to be passed over. *)
Definition matcher := str -> option (str * nat).

Fixpoint sub_scan (m : matcher) (f : str -> str) (skip : nat) (s : str) : str :=
  match s with
  | [] => []
  | c :: t =>
      match skip with
      | S k => sub_scan m f k t
      | O =>
          match m s with
          | Some (g, n) => f g ++ sub_scan m f (pred n) t
          | None => c :: sub_scan m f 0 t
          end
      end
  end.

Definition re_sub (m : matcher) (f : str -> str) (s : str) : str := sub_scan m f 0 s.

(** [re.findall] for a pattern with one group: the groups of the successive
    matches. *)
Fixpoint findall_scan (m : matcher) (skip : nat) (s : str) : list str :=
  match s with
  | [] => []
  | _ :: t =>
      match skip with
      | S k => findall_scan m k t
      | O =>
          match m s with
          | Some (g, n) => g :: findall_scan m (pred n) t
          | None => findall_scan m 0 t
          end
      end
  end.

Definition re_findall (m : matcher) (s : str) : list str := findall_scan m 0 s.

(** ** Slugs ([slugify], lines 38-56) *)

Section Slugify.
Context `{Unicode}.

(** [[^\w\s-]] *)
Definition pat_not_word_space_hyphen : matcher := fun s =>
  match s with
  | c :: _ =>
      if negb (re_word c || re_space c || (c =? HYPHEN)%N) then Some ([c], 1) else None
  | [] => None
  end.

(** [[-\s]+] *)
Definition is_sep (c : char) : bool := (c =? HYPHEN)%N || re_space c.

Definition pat_sep_run : matcher := fun s =>
  match run_of is_sep s with
  | [] => None
  | r => Some (r, length r)
  end.

Definition slugify (text : option str) : str :=
  match text with
  | None | Some [] => lit "untitled"
  | Some text =>
      let text := nfkd text in
      let text := List.filter is_ascii text in
      let text := re_sub pat_not_word_space_hyphen (fun _ => []) (str_lower text) in
      let text := re_sub pat_sep_run (fun _ => lit "-") text in
      let result := strip HYPHEN text in
      match result with
      | [] => lit "untitled"
      | _ => result
      end
  end.

(** A character of the text once it is filtered and lower-cased (ASCII, not
    an upper-case letter), and such a character that the first substitution
    keeps. *)
Definition folded_char (c : char) : Prop :=
  is_ascii c = true /\ ascii_upper c = false.

Definition kept_char (c : char) : Prop :=
  folded_char c /\ (re_word c || re_space c || (c =? HYPHEN)%N) = true.
End Slugify.

(** A fragment of the Unicode tables, for the examples: the Latin-1 letters
    with a canonical decomposition into a base letter and a combining mark;
    every other code point is its own normal form. *)
Definition nfkd_char (c : char) : str :=
  if (c =? 220)%N then [85; 776]%N       (* U+00DC -> U, combining diaeresis *)
  else if (c =? 252)%N then [117; 776]%N (* U+00FC -> u, combining diaeresis *)
  else if (c =? 233)%N then [101; 769]%N (* U+00E9 -> e, combining acute *)
  else if (c =? 201)%N then [69; 769]%N  (* U+00C9 -> E, combining acute *)
  else [c].

#[export] Instance sample_unicode : Unicode := {|
  nfkd := flat_map nfkd_char;
  uni_alnum := fun c => (c =? 220)%N || (c =? 252)%N || (c =? 233)%N || (c =? 201)%N;
  uni_digit := fun _ => false;
  uni_space := fun c => (c =? 133)%N || (c =? 160)%N;
  uni_lower := fun c => if (c =? 220)%N then [252%N] else if (c =? 201)%N then [233%N] else [c];
  uni_upper := fun c => if (c =? 252)%N then [220%N] else if (c =? 233)%N then [201%N] else [c]
|}.

(** The characters a slug is made of: lower-case ASCII letters, digits, the
    hyphen and the underscore (an underscore is a word character, so
    [slugify] keeps it). *)
Definition slug_char (c : char) : bool :=
  ascii_lower c || ascii_digit c || (c =? HYPHEN)%N || (c =? USCORE)%N.

(** The narrower set [a-z0-9-]. *)
Definition alnum_hyphen_char (c : char) : bool :=
  ascii_lower c || ascii_digit c || (c =? HYPHEN)%N.

(** no two hyphens in a row *)
Fixpoint no_double_hyphen (s : str) : bool :=
  match s with
  | a :: t =>
      match t with
      | b :: _ => negb ((a =? HYPHEN)%N && (b =? HYPHEN)%N)
      | [] => true
      end && no_double_hyphen t
  | [] => true
  end.

(** What every result of [slugify] looks like. *)
Record slug_shape (r : str) : Prop := {
  shape_nonempty : r <> [];
  shape_chars : Forall (fun c => slug_char c = true) r;
  shape_runs : no_double_hyphen r = true;
  shape_first : hd_error r <> Some HYPHEN;
  shape_last : hd_error (rev r) <> Some HYPHEN
}.

(** ** Paths ([pathlib.Path], POSIX flavour)

    A path is its list of components, with a flag for a leading root.
    [Path('.')] is the relative path without components.  The root [//],
    which POSIX keeps apart from [/], is not modelled.  Stems and suffixes
    are those of CPython up to 3.13. *)

Record path := { absolute : bool; parts : list str }.

#[export] Instance path_eq_dec : EqDecision path.
Proof. solve_decision. Defined.

Definition path_eqb (p q : path) : bool := bool_decide (p = q).

(** [Path(s)]: empty components and [.] are dropped *)
Definition path_of_str (s : str) : path :=
  {| absolute := startswith [SLASH] s;
     parts := List.filter (fun p => negb (str_eqb p [] || str_eqb p [DOT]))
                          (split_on SLASH s) |}.

(** [str(p)] *)
Definition path_str (p : path) : str :=
  match parts p with
  | [] => if absolute p then [SLASH] else [DOT]
  | ps => (if absolute p then [SLASH] else []) ++ join [SLASH] ps
  end.

(** [p.name] *)
Definition path_name (p : path) : str := List.last (parts p) [].

(** [p.stem] and [p.suffix]: the name is cut at its last dot, unless that dot
    is the first or the last character of the name. *)
Definition not_dot (c : char) : bool := negb (c =? DOT)%N.

Definition name_stem (name : str) : str :=
  let ext_rev := run_of not_dot (rev name) in
  match after_run not_dot (rev name) with
  | _ :: ((_ :: _) as stem_rev) =>
      match ext_rev with
      | _ :: _ => rev stem_rev
      | [] => name
      end
  | _ => name
  end.

Definition name_suffix (name : str) : str :=
  let ext_rev := run_of not_dot (rev name) in
  match after_run not_dot (rev name) with
  | _ :: _ :: _ =>
      match ext_rev with
      | _ :: _ => DOT :: rev ext_rev
      | [] => []
      end
  | _ => []
  end.

Definition path_stem (p : path) : str := name_stem (path_name p).
Definition path_suffix (p : path) : str := name_suffix (path_name p).

(** [p.parent] *)
Definition path_parent (p : path) : path :=
  {| absolute := absolute p; parts := removelast (parts p) |}.

(** [p / q] *)
Definition path_join (p q : path) : path :=
  if absolute q then q
  else {| absolute := absolute p; parts := parts p ++ parts q |}.

Fixpoint strip_prefix (pre l : list str) : option (list str) :=
  match pre, l with
  | [], _ => Some l
  | a :: pre', b :: l' => if str_eqb a b then strip_prefix pre' l' else None
  | _ :: _, [] => None
  end.

(** [p.relative_to(base)]; [None] stands for [ValueError] *)
Definition path_relative_to (p base : path) : option path :=
  if Bool.eqb (absolute p) (absolute base) then
    option_map (fun ps => {| absolute := false; parts := ps |})
               (strip_prefix (parts base) (parts p))
  else None.

(** ** Converter object

    The attributes set by [__init__] (lines 31-36): the three options, and
    the two tables that live as long as the converter.  [file_mapping] is a
    [dict] that [convert_links] iterates, so it is kept in insertion order;
    [asset_mapping] is only looked up. *)

Inductive format := Org | Md.
Inductive assets_mode := AssetsCopy | AssetsLink | AssetsIgnore.

Record config := {
  output_format : format;
  preserve_links : bool;
  assets_handling : assets_mode;
  assets_dir : str
}.

Definition default_config : config :=
  {| output_format := Org; preserve_links := true;
     assets_handling := AssetsCopy; assets_dir := lit "assets" |}.

(** [d[k] = v] on an insertion-ordered dictionary: an existing key keeps its
    place. *)
Fixpoint dict_set {K V} `{EqDecision K} (k : K) (v : V) (d : list (K * V)) : list (K * V) :=
  match d with
  | [] => [(k, v)]
  | (k', v') :: rest =>
      if bool_decide (k' = k) then (k, v) :: rest else (k', v') :: dict_set k v rest
  end.

Fixpoint dict_get {K V} `{EqDecision K} (k : K) (d : list (K * V)) : option V :=
  match d with
  | [] => None
  | (k', v) :: rest => if bool_decide (k' = k) then Some v else dict_get k rest
  end.

(** ** Wiki-links ([convert_links], lines 141-184) *)

Definition not_rbrack (c : char) : bool := negb (c =? RBRACK)%N.

(** [\[\[([^\]]+)\]\]] *)
Definition pat_wikilink : matcher := fun s =>
  match s with
  | a :: b :: t =>
      if (a =? LBRACK)%N && (b =? LBRACK)%N then
        match run_of not_rbrack t, after_run not_rbrack t with
        | (_ :: _) as g, c :: d :: _ =>
            if (c =? RBRACK)%N && (d =? RBRACK)%N then Some (g, 2 + length g + 2) else None
        | _, _ => None
        end
      else None
  | _ => None
  end.

(** [!\[\[([^\]]+)\]\]] *)
Definition pat_embed : matcher := fun s =>
  match s with
  | c :: t =>
      if (c =? BANG)%N then
        match pat_wikilink t with
        | Some (g, n) => Some (g, S n)
        | None => None
        end
      else None
  | [] => None
  end.

(** Lines 147-150: the target and the description of a link. *)
Definition split_link (link_text : str) : str * str :=
  if contains [BAR] link_text then split_once BAR link_text
  else (link_text, link_text).

(** Lines 153-156: the first entry of the file mapping whose original stem is
    the target gives the new stem. *)
Definition resolve_link (file_mapping : list (path * str)) (link : str) : str :=
  match List.find (fun e => str_eqb (path_stem (fst e)) link) file_mapping with
  | Some (_, new_name) => path_stem (path_of_str new_name)
  | None => link
  end.

Definition replace_link_org (file_mapping : list (path * str)) (link_text : str) : str :=
  let (link, desc) := split_link link_text in
  lit "[[file:" ++ resolve_link file_mapping link ++ lit ".org][" ++ desc ++ lit "]]".

Definition replace_link_md (file_mapping : list (path * str)) (link_text : str) : str :=
  let (link, desc) := split_link link_text in
  lit "[" ++ desc ++ lit "](" ++ resolve_link file_mapping link ++ lit ".md)".

Definition replace_embed (ref : str) : str := lit "[[file:" ++ ref ++ lit "]]".

Definition convert_links (cfg : config) (file_mapping : list (path * str))
    (content : str) (is_org : bool) : str :=
  if is_org then
    let content := re_sub pat_wikilink (replace_link_org file_mapping) content in
    re_sub pat_embed replace_embed content
  else if negb (preserve_links cfg) then
    re_sub pat_wikilink (replace_link_md file_mapping) content
  else content.

(** *** Documents with wiki-links

    A note body seen as a sequence of pieces: stretches of text and the two
    forms of wiki-link. *)
Inductive piece :=
  | Text (s : str)
  | Link (target : str)
  | LinkAs (target display : str).

Definition piece_source (p : piece) : str :=
  match p with
  | Text s => s
  | Link t => lit "[[" ++ t ++ lit "]]"
  | LinkAs t d => lit "[[" ++ t ++ lit "|" ++ d ++ lit "]]"
  end.

Definition org_link (file_mapping : list (path * str)) (target display : str) : str :=
  lit "[[file:" ++ resolve_link file_mapping target ++ lit ".org][" ++ display ++ lit "]]".

Definition piece_org (file_mapping : list (path * str)) (p : piece) : str :=
  match p with
  | Text s => s
  | Link t => org_link file_mapping t t
  | LinkAs t d => org_link file_mapping t d
  end.

(** Text between links: every opening bracket in it is followed, in it, by a
    character other than an opening bracket (so it holds no [[[] and does not
    end in [[]). *)
Fixpoint plain_text (s : str) : bool :=
  match s with
  | c :: t =>
      (if (c =? LBRACK)%N then
         match t with
         | c' :: _ => negb (c' =? LBRACK)%N
         | [] => false
         end
       else true) && plain_text t
  | [] => true
  end.

Definition no_brackets (s : str) : bool :=
  forallb (fun c => negb ((c =? LBRACK)%N || (c =? RBRACK)%N)) s.

Definition no_bar (s : str) : bool := forallb (fun c => negb (c =? BAR)%N) s.

Definition well_formed_piece (p : piece) : bool :=
  match p with
  | Text s => plain_text s
  | Link t => negb (str_eqb t []) && no_brackets t && no_bar t
  | LinkAs t d => no_brackets t && no_bar t && no_brackets d
  end.

(** The stems of generated file names hold no bracket. *)
Definition bracket_free_mapping (file_mapping : list (path * str)) : bool :=
  forallb (fun e => no_brackets (path_stem (path_of_str (snd e)))) file_mapping.

(** [embed_blocked rest]: an exclamation mark standing right before [rest]
    does not start an embed. *)
Definition embed_blocked (rest : str) : Prop := pat_embed (BANG :: rest) = None.

(** A mapping and a note body for the examples. *)
Definition sample_mapping : list (path * str) :=
  [(path_of_str (lit "vault/notes/my-note.md"), lit "20240115T103000--my-note__tag1.org")].

Definition sample_doc : list piece :=
  [Text (lit "See "); Link (lit "my-note"); Text (lit ", [a](b) and ");
   LinkAs (lit "another note") (lit "description"); Text (lit ".")].

(** ** Metadata values

    What the YAML parser hands back, as far as the converter tells values
    apart: [None], strings, lists, and any other value (a number, a date, a
    boolean, a nested mapping), of which the converter uses only the truth
    value and the text [str()] gives. *)
#[warnings="-register-all"]
Inductive pyval :=
  | PNone
  | PStr (s : str)
  | PList (items : list pyval)
  | POther (truth : bool) (text : str).

(** The part of the Python runtime left open: how [str()] renders a list,
    and the order in which a set built from a list is iterated. *)
Class PyRuntime := {
  list_str : list pyval -> str;
  set_order : list str -> list str
}.

Definition nonempty {A} (l : list A) : bool :=
  match l with [] => false | _ => true end.

(** [bool(v)] *)
Definition py_truthy (v : pyval) : bool :=
  match v with
  | PNone => false
  | PStr s => nonempty s
  | PList items => nonempty items
  | POther b _ => b
  end.

(** [str(v)] *)
Definition py_str `{PyRuntime} (v : pyval) : str :=
  match v with
  | PNone => lit "None"
  | PStr s => s
  | PList items => list_str items
  | POther _ text => text
  end.

(** The metadata of a note: [None], or a mapping with string keys, in the
    order of the front matter. *)
Abbreviation metadata := (option (list (list N * pyval))) (only parsing).

(** [if metadata:] *)
Definition md_truthy (md : metadata) : bool :=
  match md with Some (_ :: _) => true | _ => false end.

(** [metadata[key]] when [key in metadata] *)
Definition md_get (key : str) (md : metadata) : option pyval :=
  match md with Some d => dict_get key d | None => None end.

(** ** Front matter ([extract_yaml_frontmatter], lines 58-72) *)

(** [yaml.safe_load]; [None] stands for [yaml.YAMLError].  The documents
    considered are those whose top level is empty or a mapping with string
    keys. *)
Class Yaml := {
  yaml_safe_load : str -> option metadata
}.

(** [s[i:j]] *)
Definition slice (s : str) (i j : nat) : str := firstn (j - i) (skipn i s).

Definition extract_yaml_frontmatter `{Yaml} (content : str) : metadata * str :=
  if startswith (lit "---" ++ [NL]) content then
    match index_from ([NL] ++ lit "---" ++ [NL]) content 4 with
    | Some end_idx =>
        match yaml_safe_load (slice content 4 end_idx) with
        | Some md => (md, skipn (end_idx + 5) content)
        | None => (Some [], content)
        end
    | None => (Some [], content)
    end
  else (Some [], content).

(** ** File names ([generate_denote_filename], lines 74-139) *)

(** Dates and times ([datetime]): parsing ISO text, the two formats the
    converter prints, and the current time. *)
Class Clock := {
  datetime : Type;
  fromisoformat : str -> option datetime;
  strftime_stamp : datetime -> str;   (* '%Y%m%dT%H%M%S' *)
  strftime_date : datetime -> str;    (* '%Y-%m-%d' *)
  now : datetime
}.

(** The file system as the converter reads it; [None] stands for [OSError].
    [find_asset] is the search of lines 186-238.  [mkdir p] tells whether
    [p.mkdir(exist_ok=True)] goes through, [mkdir_parents p] whether
    [p.mkdir(parents=True, exist_ok=True)] does; [false] stands for the
    [OSError] raised ([FileNotFoundError] for a missing parent,
    [FileExistsError] for a file of that name, [PermissionError]). *)
Class FileSystem `{Clock} := {
  read_text : path -> option str;
  stat_mtime : path -> option datetime;
  glob_md : path -> list path;
  find_asset : str -> path -> option path;
  copy2 : path -> path -> bool;
  can_write : path -> bool;
  mkdir : path -> bool;
  mkdir_parents : path -> bool
}.

Section Filename.
Context `{Unicode} `{PyRuntime} `{Clock} `{!FileSystem}.

Definition not_nl (c : char) : bool := negb (c =? NL)%N.

(** [^#\s+(.+)$] at the start of a line.  [\s+] first takes the whole run of
    whitespace and gives characters back until a non-empty stretch of line
    follows it. *)
Fixpoint heading_text (k : nat) (t : str) : option str :=
  match k with
  | O => None
  | S k' =>
      match run_of not_nl (skipn k t) with
      | [] => heading_text k' t
      | g => Some g
      end
  end.

Definition pat_heading (line : str) : option str :=
  match line with
  | c :: t =>
      if (c =? HASH)%N then heading_text (length (run_of re_space t)) t else None
  | [] => None
  end.

(** [re.search(r'^#\s+(.+)$', content, re.MULTILINE)], group 1 *)
Fixpoint heading_search (line_start : bool) (s : str) : option str :=
  match s with
  | [] => None
  | c :: t =>
      match (if line_start then pat_heading s else None) with
      | Some g => Some g
      | None => heading_search (c =? NL)%N t
      end
  end.

(** [#(\w+)] *)
Definition pat_inline_tag : matcher := fun s =>
  match s with
  | c :: t =>
      if (c =? HASH)%N then
        match run_of re_word t with
        | [] => None
        | g => Some (g, S (length g))
        end
      else None
  | [] => None
  end.

(** Lines 76-84 *)
Definition created_time_of (mtime : datetime) (md : metadata) : datetime :=
  if md_truthy md then
    match md_get (lit "created") md with
    | Some v =>
        match fromisoformat (py_str v) with
        | Some t => t
        | None => mtime
        end
    | None => mtime
    end
  else mtime.

(** Lines 96-100: the title an alias gives *)
Definition alias_title (md : metadata) (fallback : str) : str :=
  match md_get (lit "aliases") md with
  | Some (PList (first :: _)) => py_str first
  | Some (PStr ((_ :: _) as s)) => s
  | _ => fallback
  end.

(** Lines 93-100 *)
Definition metadata_title (md : metadata) (fallback : str) : str :=
  if md_truthy md then
    match md_get (lit "title") md with
    | Some v => if py_truthy v then py_str v else alias_title md fallback
    | None => alias_title md fallback
    end
  else fallback.

(** Lines 89-110 *)
Definition title_of (original_path : path) (md : metadata) (content : str) : str :=
  let title := path_stem original_path in
  let title := metadata_title md title in
  let title :=
    if str_eqb title (path_stem original_path) && nonempty content then
      match heading_search true content with
      | Some g => g
      | None => title
      end
    else title in
  if nonempty title then title else lit "untitled".

(** Lines 115-120 *)
Definition metadata_tags (md : metadata) : list str :=
  if md_truthy md then
    match md_get (lit "tags") md with
    | Some (PList items) => map py_str (List.filter py_truthy items)
    | Some (PStr s) => [s]
    | _ => []
    end
  else [].

(** Lines 115-128 *)
Definition tags_of (md : metadata) (content : str) : list str :=
  let tags := metadata_tags md in
  let tags := if nonempty content then tags ++ re_findall pat_inline_tag content else tags in
  set_order (List.filter nonempty tags).

Definition extension_of (cfg : config) : str :=
  match output_format cfg with Org => lit ".org" | Md => lit ".md" end.

Definition generate_denote_filename (cfg : config) (original_path : path)
    (md : metadata) (content : str) : option (str * str * list str * datetime) :=
  match stat_mtime original_path with
  | None => None
  | Some mtime =>
      let created_time := created_time_of mtime md in
      let timestamp := strftime_stamp created_time in
      let title := title_of original_path md content in
      let title_slug := slugify (Some title) in
      let tags := tags_of md content in
      let tags_str :=
        if nonempty tags
        then lit "__" ++ join (lit "_") (map (fun tag => slugify (Some tag)) tags)
        else [] in
      let filename := timestamp ++ lit "--" ++ title_slug ++ tags_str ++ extension_of cfg in
      Some (filename, title, tags, created_time)
  end.
End Filename.

(** ** State and exceptions

    A method of the converter runs on the state of the converter object and
    of the output directory, and either returns or raises.  An exception
    leaves the state as it was at the point of the raise. *)

Inductive exn :=
  | OSError (p : path)
  | ValueError
  | KeyError
  | AttributeError.

Inductive outcome (A : Type) :=
  | Ok (a : A)
  | Raise (e : exn).

Arguments Ok {A} a.
Arguments Raise {A} e.

(** What the walker prints for a file. *)
Inductive event :=
  | Converted (file : path) (new_filename : str)
  | Failed (file : path) (e : exn).

Record state := {
  file_mapping : list (path * str);        (* [self.file_mapping] *)
  asset_mapping : gmap (list N) (list N);  (* [self.asset_mapping] *)
  copied : list (path * path);             (* the copies [shutil.copy2] made *)
  written : list (path * str);             (* the files written *)
  console : list event
}.

Definition fresh : state :=
  {| file_mapping := []; asset_mapping := ∅; copied := []; written := []; console := [] |}.

Definition M (A : Type) : Type := state -> state * outcome A.

Definition ret {A} (a : A) : M A := fun st => (st, Ok a).

Definition raise {A} (e : exn) : M A := fun st => (st, Raise e).

Definition bind {A B} (c : M A) (k : A -> M B) : M B := fun st =>
  match c st with
  | (st', Ok a) => k a st'
  | (st', Raise e) => (st', Raise e)
  end.

Notation "x <- c ;; k" := (bind c (fun x => k))
  (at level 100, c at next level, right associativity).
Notation "c ;;; k" := (bind c (fun _ => k))
  (at level 100, right associativity).

Definition get : M state := fun st => (st, Ok st).

Definition modify (f : state -> state) : M unit := fun st => (f st, Ok tt).

Definition of_option {A} (e : exn) (o : option A) : M A :=
  match o with Some a => ret a | None => raise e end.

Definition of_outcome {A} (o : outcome A) : M A := fun st => (st, o).

Definition set_file_mapping (k : path) (v : str) (st : state) : state :=
  {| file_mapping := dict_set k v (file_mapping st); asset_mapping := asset_mapping st;
     copied := copied st; written := written st; console := console st |}.

Definition set_asset_mapping (k v : str) (st : state) : state :=
  {| file_mapping := file_mapping st; asset_mapping := <[k := v]> (asset_mapping st);
     copied := copied st; written := written st; console := console st |}.

Definition log_copy (src dst : path) (st : state) : state :=
  {| file_mapping := file_mapping st; asset_mapping := asset_mapping st;
     copied := copied st ++ [(src, dst)]; written := written st; console := console st |}.

Definition log_write (p : path) (text : str) (st : state) : state :=
  {| file_mapping := file_mapping st; asset_mapping := asset_mapping st;
     copied := copied st; written := written st ++ [(p, text)]; console := console st |}.

Definition log_event (ev : event) (st : state) : state :=
  {| file_mapping := file_mapping st; asset_mapping := asset_mapping st;
     copied := copied st; written := written st; console := console st ++ [ev] |}.

(** A computation that prints nothing: the console is as it was. *)
Definition keeps_console {A} (c : M A) : Prop :=
  forall st, console (fst (c st)) = console st.


(** [hashlib.md5(s.encode()).hexdigest()] *)
Class Hashing := {
  md5_hexdigest : str -> str
}.

(** ** Assets ([copy_asset], lines 240-256, and [process_assets], lines 258-363) *)

Section Assets.
Context `{Clock} `{!FileSystem} `{Hashing}.

(** [shutil.copy2(src, dst)] *)
Definition shutil_copy2 (src dst : path) : M unit :=
  if copy2 src dst then modify (log_copy src dst) else raise (OSError src).

(** [p.mkdir(exist_ok=True)] and [p.mkdir(parents=True, exist_ok=True)]; the
    directories made are not kept in the state. *)
Definition make_dir (p : path) : M unit :=
  if mkdir p then ret tt else raise (OSError p).

Definition make_dirs (p : path) : M unit :=
  if mkdir_parents p then ret tt else raise (OSError p).

Definition copy_asset (cfg : config) (asset_path output_dir : path) : M str :=
  let assets_dir := path_join output_dir (path_of_str (assets_dir cfg)) in
  let hash_suffix := firstn 8 (md5_hexdigest (path_str asset_path)) in
  let new_name := path_stem asset_path ++ lit "_" ++ hash_suffix ++ path_suffix asset_path in
  let dest_path := path_join assets_dir (path_of_str new_name) in
  st <- get ;;
  match asset_mapping st !! path_str asset_path with
  | None =>
      shutil_copy2 asset_path dest_path ;;;
      rel <- of_option ValueError (path_relative_to dest_path output_dir) ;;
      modify (set_asset_mapping (path_str asset_path) (path_str rel))
  | Some _ => ret tt
  end ;;;
  st <- get ;;
  of_option KeyError (asset_mapping st !! path_str asset_path).

(** [re.sub] with a replacement function that runs on the state.  The
    matcher sees the character before the position it is tried at (for the
    look-behind of the attachment pattern) and yields the groups of the match
    and its length; the replacement function is given the matched text and
    the groups. *)
Definition gmatcher := option N -> str -> option (list str * nat).

Fixpoint sub_scan_m (m : gmatcher) (f : str -> list str -> M str)
    (prev : option N) (skip : nat) (s : str) : M str :=
  match s with
  | [] => ret []
  | c :: t =>
      match skip with
      | S k => sub_scan_m m f (Some c) k t
      | O =>
          match m prev s with
          | Some (groups, n) =>
              r <- f (firstn n s) groups ;;
              rest <- sub_scan_m m f (Some c) (pred n) t ;;
              ret (r ++ rest)
          | None =>
              rest <- sub_scan_m m f (Some c) 0 t ;;
              ret (c :: rest)
          end
      end
  end.

Definition re_sub_m (m : gmatcher) (f : str -> list str -> M str) (s : str) : M str :=
  sub_scan_m m f None 0 s.

(** [embed_pattern], line 270 *)
Definition gpat_embed : gmatcher := fun _ s =>
  match pat_embed s with
  | Some (g, n) => Some ([g], n)
  | None => None
  end.

(** [md_img_pattern], line 272: an exclamation mark, the alternative text in
    brackets (any characters but a closing bracket, possibly none), and the
    path in parentheses (one or more characters, none a closing parenthesis) *)
Definition not_rparen (c : char) : bool := negb (c =? RPAREN)%N.

Definition gpat_md_image : gmatcher := fun _ s =>
  match s with
  | a :: b :: t =>
      if (a =? BANG)%N && (b =? LBRACK)%N then
        let alt := run_of not_rbrack t in
        match after_run not_rbrack t with
        | c :: d :: u =>
            if (c =? RBRACK)%N && (d =? LPAREN)%N then
              match run_of not_rparen u, after_run not_rparen u with
              | (_ :: _) as p, _ :: _ => Some ([alt; p], 2 + length alt + 2 + length p + 1)
              | _, _ => None
              end
            else None
        | _ => None
        end
      else None
  | _ => None
  end.

(** [attach_pattern], line 274: a bracketed reference, not preceded by an
    exclamation mark, whose file part ends in one of the listed extensions,
    with an optional [|description]. *)
Definition attachment_extensions : list str :=
  map lit [".pdf"; ".doc"; ".docx"; ".xls"; ".xlsx"; ".ppt"; ".pptx";
           ".zip"; ".mp4"; ".mp3"; ".wav"]%string.

Definition not_rbrack_bar (c : char) : bool :=
  negb ((c =? RBRACK)%N || (c =? BAR)%N).

Definition has_attachment_extension (file : str) : bool :=
  existsb (fun ext => endswith ext file && (length ext <? length file)) attachment_extensions.

Definition gpat_attachment : gmatcher := fun prev s =>
  match s with
  | a :: b :: t =>
      if negb (bool_decide (prev = Some BANG)) && (a =? LBRACK)%N && (b =? LBRACK)%N then
        let file := run_of not_rbrack_bar t in
        if has_attachment_extension file then
          match after_run not_rbrack_bar t with
          | c :: u =>
              if (c =? RBRACK)%N then
                match u with
                | d :: _ => if (d =? RBRACK)%N then Some ([file], 2 + length file + 2) else None
                | [] => None
                end
              else
                match run_of not_rbrack u, after_run not_rbrack u with
                | (_ :: _) as desc, _ :: d :: _ =>
                    if (d =? RBRACK)%N
                    then Some ([file ++ [BAR] ++ desc], 2 + length file + 1 + length desc + 2)
                    else None
                | _, _ => None
                end
          | [] => None
          end
        else None
      else None
  | _ => None
  end.

(** the extensions [process_embed] takes for assets, lines 281-283 *)
Definition embed_extensions : list str :=
  map lit [".png"; ".jpg"; ".jpeg"; ".gif"; ".bmp"; ".svg"; ".pdf";
           ".mp4"; ".mp3"; ".wav"; ".mov"; ".docx"; ".xlsx"; ".pptx"]%string.

Section Callbacks.
Variables (cfg : config) (source_dir output_dir : path) (is_org : bool).

Definition process_embed (whole : str) (groups : list str) : M str :=
  let file_ref := nth 0 groups [] in
  if negb (existsb (fun ext => endswith ext file_ref) embed_extensions) then ret whole
  else
    match find_asset file_ref source_dir with
    | None => ret whole
    | Some asset_path =>
        match assets_handling cfg with
        | AssetsCopy =>
            new_path <- copy_asset cfg asset_path output_dir ;;
            if is_org then ret (lit "[[file:" ++ new_path ++ lit "]]")
            else ret (lit "![" ++ path_stem asset_path ++ lit "](" ++ new_path ++ lit ")")
        | _ =>
            if is_org then ret (lit "[[file:" ++ path_str asset_path ++ lit "]]")
            else ret (lit "![" ++ path_stem asset_path ++ lit "](" ++ path_str asset_path ++ lit ")")
        end
    end.

Definition process_md_image (whole : str) (groups : list str) : M str :=
  let alt_text := nth 0 groups [] in
  let img_path := nth 1 groups [] in
  if startswith (lit "http://") img_path || startswith (lit "https://") img_path then ret whole
  else
    match find_asset img_path source_dir with
    | None => ret whole
    | Some asset_path =>
        match assets_handling cfg with
        | AssetsCopy =>
            new_path <- copy_asset cfg asset_path output_dir ;;
            if is_org then ret (lit "[[file:" ++ new_path ++ lit "]]")
            else ret (lit "![" ++ alt_text ++ lit "](" ++ new_path ++ lit ")")
        | _ =>
            if is_org then ret (lit "[[file:" ++ path_str asset_path ++ lit "]]")
            else ret whole
        end
    end.

Definition process_attachment (whole : str) (groups : list str) : M str :=
  let file_info := nth 0 groups [] in
  let (file_ref, desc) :=
    if contains [BAR] file_info then split_once BAR file_info
    else (file_info, path_stem (path_of_str file_info)) in
  match find_asset file_ref source_dir with
  | None => ret whole
  | Some asset_path =>
      match assets_handling cfg with
      | AssetsCopy =>
          new_path <- copy_asset cfg asset_path output_dir ;;
          if is_org then ret (lit "[[file:" ++ new_path ++ lit "][" ++ desc ++ lit "]]")
          else ret (lit "[" ++ desc ++ lit "](" ++ new_path ++ lit ")")
      | _ =>
          if is_org then ret (lit "[[file:" ++ path_str asset_path ++ lit "][" ++ desc ++ lit "]]")
          else ret (lit "[" ++ desc ++ lit "](" ++ path_str asset_path ++ lit ")")
      end
  end.

(** Lines 258-363, with the creation of the assets directory in copy mode
    (lines 264-266).  The progress messages are left out. *)
Definition process_assets (content : str) : M str :=
  match assets_handling cfg with
  | AssetsIgnore => ret content
  | mode =>
      match mode with
      | AssetsCopy => make_dir (path_join output_dir (path_of_str (assets_dir cfg)))
      | _ => ret tt
      end ;;;
      content <- re_sub_m gpat_embed process_embed content ;;
      content <- re_sub_m gpat_md_image process_md_image content ;;
      re_sub_m gpat_attachment process_attachment content
  end.
End Callbacks.
End Assets.

(** ** Org markup ([convert_to_org], lines 365-432) *)

Section OrgMarkup.
Context `{Unicode} `{PyRuntime} `{Clock}.

(** [s.strip()] *)
Definition strip_ws (s : str) : str :=
  rev (after_run re_space (rev (after_run re_space s))).

(** A pattern [d(.+?)d] for a delimiter [d]: the delimiter, at least one
    character, and the first delimiter that follows; the dot does not match
    a line feed. *)
Definition pat_delimited (d : str) : matcher := fun s =>
  if startswith d s then
    match skipn (length d) s with
    | c :: rest =>
        match find_str d rest with
        | Some i =>
            if forallb not_nl (c :: firstn i rest)
            then Some (c :: firstn i rest, length d + S i + length d)
            else None
        | None => None
        end
    | [] => None
    end
  else None.

(** The pattern of inline code (line 419): a backquote, one or more
    characters other than a backquote, a backquote. *)
Definition not_backquote (c : char) : bool := negb (c =? 96)%N.

Definition pat_inline_code : matcher := fun s =>
  match s with
  | c :: t =>
      if (c =? 96)%N then
        match run_of not_backquote t, after_run not_backquote t with
        | (_ :: _) as g, _ :: _ => Some (g, S (length g) + 1)
        | _, _ => None
        end
      else None
  | [] => None
  end.

Definition wrap (d : str) (g : str) : str := d ++ g ++ d.

(** Lines 414-419 *)
Definition convert_emphasis (line : str) : str :=
  let line := re_sub (pat_delimited (lit "**")) (wrap (lit "*")) line in
  let line := re_sub (pat_delimited (lit "__")) (wrap (lit "*")) line in
  let line := re_sub (pat_delimited (lit "*")) (wrap (lit "/")) line in
  let line := re_sub (pat_delimited (lit "_")) (wrap (lit "/")) line in
  let line := re_sub (pat_delimited (lit "~~")) (wrap (lit "+")) line in
  re_sub pat_inline_code (wrap (lit "~")) line.

(** The four patterns anchored at the start of the line (lines 422-427):
    leading whitespace, a marker, one whitespace character. *)
Definition is_bullet (c : char) : bool :=
  (c =? HYPHEN)%N || (c =? 42)%N || (c =? 43)%N.

Definition sub_bullet (line : str) : str :=
  match after_run re_space line with
  | b :: sp :: rest =>
      if is_bullet b && re_space sp
      then run_of re_space line ++ lit "- " ++ rest
      else line
  | _ => line
  end.

Definition sub_ordered (line : str) : str :=
  let after_ws := after_run re_space line in
  match run_of re_digit after_ws, after_run re_digit after_ws with
  | (_ :: _) as digits, dot :: sp :: rest =>
      if (dot =? DOT)%N && re_space sp
      then run_of re_space line ++ digits ++ lit ". " ++ rest
      else line
  | _, _ => line
  end.

Definition sub_checkbox (mark : str) (replacement : str) (line : str) : str :=
  let after_ws := after_run re_space line in
  if startswith mark after_ws then
    match skipn (length mark) after_ws with
    | sp :: rest =>
        if re_space sp then run_of re_space line ++ replacement ++ rest else line
    | [] => line
    end
  else line.

(** Lines 413-427: a line outside a code block that is not a heading *)
Definition convert_inline (line : str) : str :=
  let line := convert_emphasis line in
  let line := sub_bullet line in
  let line := sub_ordered line in
  let line := sub_checkbox (lit "- [ ]") (lit "- [ ] ") line in
  sub_checkbox (lit "- [x]") (lit "- [X] ") line.

(** Lines 407-410 *)
Definition convert_heading (line : str) : str :=
  let level := length (run_of (fun c => (c =? HASH)%N) line) in
  repeat 42%N level ++ lit " " ++ strip_ws (skipn level line).

(** Lines 390-429: the loop over the lines, with its flag [in_code_block] *)
Fixpoint convert_lines (in_code_block : bool) (lines : list str) : list str :=
  match lines with
  | [] => []
  | line :: rest =>
      if startswith (lit "```") line then
        if negb in_code_block
        then (lit "#+BEGIN_SRC " ++ strip_ws (skipn 3 line)) :: convert_lines true rest
        else lit "#+END_SRC" :: convert_lines false rest
      else if in_code_block then line :: convert_lines true rest
      else if startswith [HASH] line then convert_heading line :: convert_lines false rest
      else convert_inline line :: convert_lines false rest
  end.

Definition is_header_key (key : str) : bool :=
  str_eqb key (lit "title") || str_eqb key (lit "tags") || str_eqb key (lit "aliases").

(** Lines 371-385 *)
Definition org_header (md : metadata) (title : str) (tags : list str) : list str :=
  [lit "#+title: " ++ title; lit "#+date: " ++ strftime_date now]
  ++ (if nonempty tags
      then [lit "#+filetags: " ++ join (lit " ") (map (wrap (lit ":")) tags)]
      else [])
  ++ match md with
     | Some ((_ :: _) as d) =>
         [[NL] ++ lit ":PROPERTIES:"]
         ++ map (fun kv => lit ":" ++ str_upper (fst kv) ++ lit ": " ++ py_str (snd kv))
                (List.filter (fun kv => negb (is_header_key (fst kv))) d)
         ++ [lit ":END:"]
     | _ => []
     end
  ++ [[]].

Definition convert_to_org (cfg : config) (file_mapping : list (path * str))
    (content : str) (md : metadata) (title : str) (tags : list str) : str :=
  let lines := split_on NL content in
  let org_lines := org_header md title tags ++ convert_lines false lines in
  convert_links cfg file_mapping (join [NL] org_lines) true.
End OrgMarkup.

(** ** One file ([convert_file], lines 434-505) *)

Section Convert.
Context `{Unicode} `{PyRuntime} `{Yaml} `{Clock} `{!FileSystem} `{Hashing}.

(** [open(p, 'r').read()] and [open(p, 'w').write(text)]; a file that cannot
    be opened, read, decoded or written raises. *)
Definition read_file (p : path) : M str := of_option (OSError p) (read_text p).

Definition write_file (p : path) (text : str) : M unit :=
  if can_write p then modify (log_write p text) else raise (OSError p).

(** Lines 481-490: the front matter of markdown output *)
Definition md_header (title : str) (tags : list str) (created_time : datetime) : str :=
  join [NL]
    [lit "---";
     lit "title: " ++ title;
     lit "date: " ++ strftime_date created_time;
     lit "tags: " ++ join (lit ", ") tags;
     lit "identifier: " ++ strftime_stamp created_time;
     lit "---";
     []].

(** The parameter [vault_root] of the source is assigned and never read; it
    is left out.  Under [preserve_structure] the folder of the output is
    made before the file is written (lines 493-496). *)
Definition convert_file (cfg : config) (input_path output_dir : path)
    (relative_path : option path) (preserve_structure : bool) : M (str * path) :=
  content <- read_file input_path ;;
  let (md, remaining_content) := extract_yaml_frontmatter content in
  let source_dir := path_parent input_path in
  let is_org := match output_format cfg with Org => true | Md => false end in
  remaining_content <- process_assets cfg source_dir output_dir is_org remaining_content ;;
  named <- of_option (OSError input_path)
             (generate_denote_filename cfg input_path md remaining_content) ;;
  let '(denote_filename, title, tags, created_time) := named in
  modify (set_file_mapping input_path denote_filename) ;;;
  st <- get ;;
  let converted_content :=
    if is_org then convert_to_org cfg (file_mapping st) remaining_content md title tags
    else md_header title tags created_time
         ++ convert_links cfg (file_mapping st) remaining_content false in
  let output_path :=
    match relative_path with
    | Some rel =>
        if preserve_structure
        then path_join (path_join output_dir (path_parent rel)) (path_of_str denote_filename)
        else path_join output_dir (path_of_str denote_filename)
    | None => path_join output_dir (path_of_str denote_filename)
    end in
  match relative_path with
  | Some rel =>
      if preserve_structure then make_dirs (path_join output_dir (path_parent rel))
      else ret tt
  | None => ret tt
  end ;;;
  write_file output_path converted_content ;;;
  ret (denote_filename, output_path).

(** ** A directory ([convert_directory], lines 507-567) *)

Definition here : path := {| absolute := false; parts := [] |}.

(** Lines 540-549: the metadata with the folder names added to its tags.
    [extend] exists on lists only. *)
Definition with_folder_tags (md : metadata) (folders : list str)
  : outcome (list (list N * pyval)) :=
  let d := match md with Some d => d | None => [] end in
  let folder_tags := map (fun part => PStr (slugify (Some part))) folders in
  match dict_get (lit "tags") d with
  | None => Ok (dict_set (lit "tags") (PList folder_tags) d)
  | Some (PStr s) => Ok (dict_set (lit "tags") (PList (PStr s :: folder_tags)) d)
  | Some (PList items) => Ok (dict_set (lit "tags") (PList (items ++ folder_tags)) d)
  | Some _ => Raise AttributeError
  end.

(** Lines 531-553: the body of the [try] block for one file.  The metadata
    with the folder tags is a local value of the loop; [convert_file] is
    called with the path of the file and reads the file again. *)
Definition convert_one (cfg : config) (input_dir output_dir : path)
    (preserve_structure add_folder_tags : bool) (md_file : path) : M (str * path) :=
  relative_path <- of_option ValueError (path_relative_to md_file input_dir) ;;
  (if add_folder_tags && negb (path_eqb (path_parent relative_path) here) then
     content <- read_file md_file ;;
     let (md, _) := extract_yaml_frontmatter content in
     _ <- of_outcome (with_folder_tags md (parts (path_parent relative_path))) ;;
     ret tt
   else ret tt) ;;;
  convert_file cfg md_file output_dir (Some relative_path) preserve_structure.

(** Lines 528-567: the loop, with its [try] and [except Exception].  Of the
    messages printed, the line for each file is kept, as an event. *)
Fixpoint convert_each (cfg : config) (input_dir output_dir : path)
    (preserve_structure add_folder_tags : bool)
    (md_files : list path) (converted_files : list (path * path)) : M (list (path * path)) :=
  match md_files with
  | [] => ret converted_files
  | md_file :: rest => fun st =>
      match convert_one cfg input_dir output_dir preserve_structure add_folder_tags md_file st with
      | (st', Ok (new_filename, output_file_path)) =>
          convert_each cfg input_dir output_dir preserve_structure add_folder_tags rest
            (converted_files ++ [(md_file, output_file_path)])
            (log_event (Converted md_file new_filename) st')
      | (st', Raise e) =>
          convert_each cfg input_dir output_dir preserve_structure add_folder_tags rest
            converted_files
            (log_event (Failed md_file e) st')
      end
  end.

(** Lines 517-567: the output directory is made (line 519, outside the
    [try]), then the files found by [glob] (line 522), which the file system
    gives, are walked. *)
Definition convert_directory (cfg : config) (input_dir output_dir : path)
    (preserve_structure add_folder_tags : bool) : M (list (path * path)) :=
  make_dirs output_dir ;;;
  convert_each cfg input_dir output_dir preserve_structure add_folder_tags
    (glob_md input_dir) [].
End Convert.

(** ** Sequences of calls *)

Section Runs.
Context `{Clock} `{!FileSystem} `{Hashing}.

(** The destination [copy_asset] computes for an asset (lines 242-248). *)
Definition asset_dest (cfg : config) (asset_path output_dir : path) : path :=
  path_join (path_join output_dir (path_of_str (assets_dir cfg)))
    (path_of_str (path_stem asset_path ++ lit "_"
                  ++ firstn 8 (md5_hexdigest (path_str asset_path))
                  ++ path_suffix asset_path)).


(** A run of [copy_asset] calls, each given its asset and output directory. *)
Fixpoint copy_assets (cfg : config) (calls : list (path * path)) : M (list str) :=
  match calls with
  | [] => ret []
  | (asset_path, output_dir) :: rest =>
      r <- copy_asset cfg asset_path output_dir ;;
      rs <- copy_assets cfg rest ;;
      ret (r :: rs)
  end.
End Runs.

(** The elements of a list in the order of their first occurrence. *)
Fixpoint unseen (seen l : list str) : list str :=
  match l with
  | [] => []
  | x :: t =>
      if existsb (str_eqb x) seen then unseen seen t else x :: unseen (x :: seen) t
  end.

Definition first_occurrences (l : list str) : list str := unseen [] l.

(** ** A sample vault

    Instances of the interfaces for the examples: a clock whose times are
    their own stamps, a vault of four notes (one of them unreadable) and one
    image, the parses of the front matters that occur in it, and the MD5
    digests of the paths that occur in it. *)

Definition text_of_lines (ls : list string) : str := join [NL] (map lit ls).

#[export] Instance sample_clock : Clock := {|
  datetime := str;
  fromisoformat := fun s =>
    if str_eqb s (lit "2024-01-15") then Some (lit "20240115T000000")
    else if str_eqb s (lit "2024-01-01T10:00:00") then Some (lit "20240101T100000")
    else None;
  strftime_stamp := fun d => d;
  strftime_date := fun d => slice d 0 4 ++ lit "-" ++ slice d 4 6 ++ lit "-" ++ slice d 6 8;
  now := lit "20240201T120000"
|}.

Definition vault_file (s : string) : path := path_of_str (lit "vault/" ++ lit s).

Definition sample_files : list (path * str) :=
  [(vault_file "index.md",
    text_of_lines ["---"; "title: Index"; "tags: [main, toc]"; "---"; "# Index"; EmptyString;
                   "See [[my-project]] and ![[diagram.png]]."]%string);
   (vault_file "projects/my-project.md",
    text_of_lines ["---"; "tags: [important]"; "---"; "# My Project"]%string);
   (vault_file "daily/2024-01-15.md",
    text_of_lines ["# Daily Note"; EmptyString; "- [x] Task 2 #meeting"; "![[diagram.png]]"]%string);
   (vault_file "note.md",
    text_of_lines ["---"; "title: note"; "---"; "# Heading"]%string)].

Definition sample_listing : list path :=
  [vault_file "index.md"; vault_file "projects/my-project.md";
   vault_file "daily/unreadable.md"; vault_file "daily/2024-01-15.md"].

#[export] Instance sample_fs : FileSystem := {|
  read_text := fun p => dict_get p sample_files;
  stat_mtime := fun p =>
    if endswith (lit ".md") (path_str p) then Some (lit "20240115T103000") else None;
  glob_md := fun _ => sample_listing;
  find_asset := fun file_ref _ =>
    if str_eqb file_ref (lit "diagram.png") then Some (vault_file "attachments/diagram.png")
    else None;
  copy2 := fun _ _ => true;
  can_write := fun _ => true;
  mkdir := fun _ => true;
  mkdir_parents := fun _ => true
|}.

Definition sample_documents : list (list N * option (list (list N * pyval))) :=
  [(text_of_lines ["title: Index"; "tags: [main, toc]"]%string,
    Some [(lit "title", PStr (lit "Index"));
          (lit "tags", PList [PStr (lit "main"); PStr (lit "toc")])]);
   (lit "tags: [important]",
    Some [(lit "tags", PList [PStr (lit "important")])]);
   (lit "title: note",
    Some [(lit "title", PStr (lit "note"))]);
   ([], None)].

(** Every other document, such as [title: [unclosed], is taken as malformed. *)
#[export] Instance sample_yaml : Yaml := {|
  yaml_safe_load := fun s => dict_get s sample_documents
|}.

(** A note whose front matter does not parse. *)
Definition malformed_note : str :=
  text_of_lines ["---"; "title: [unclosed"; "---"; "body"]%string.

Fixpoint sample_repr (v : pyval) : str :=
  match v with
  | PNone => lit "None"
  | PStr s => lit "'" ++ s ++ lit "'"
  | PList items => lit "[" ++ join (lit ", ") (map sample_repr items) ++ lit "]"
  | POther _ text => text
  end.

#[export] Instance sample_runtime : PyRuntime := {|
  list_str := fun items => sample_repr (PList items);
  set_order := first_occurrences
|}.

#[export] Instance sample_hashing : Hashing := {|
  md5_hexdigest := fun s =>
    if str_eqb s (lit "vault/attachments/diagram.png")
    then lit "c2ad02881ab330697ca36ae4b41528cd"
    else if str_eqb s (lit "vault/attachments/project-spec.pdf")
    then lit "307cb8b5e5c84e7d49f764a0c9b2a1a0"
    else lit "00000000000000000000000000000000"
|}.

Definition vault : path := path_of_str (lit "vault").
Definition out : path := path_of_str (lit "out").

(** Three calls of [copy_asset], the first and the last for the same image. *)
Definition sample_calls : list (path * path) :=
  [(vault_file "attachments/diagram.png", out);
   (vault_file "attachments/project-spec.pdf", out);
   (vault_file "attachments/diagram.png", out)].

(** The walk of the sample vault with [add_folder_tags], flat output. *)
Definition sample_run : state * outcome (list (path * path)) :=
  convert_directory default_config vault out false true fresh.

(** ** The search for an asset ([find_asset], lines 186-238)

    The search runs on a disk that tells which paths exist and which are
    files, and that lists the matches of a recursive glob ([None] when the
    pattern is refused, as the empty one is).  The field [find_asset] of the
    file system stands for the result of this search where the asset pass
    calls it; [search_asset] is the search itself. *)

Class Disk := {
  path_exists : path -> bool;
  path_is_file : path -> bool;
  path_is_dir : path -> bool;
  rglob : path -> str -> option (list path)
}.

Section FindAsset.
Context `{Unicode} `{Disk}.

(** Lines 193-199: the loop climbs from the directory of the note while the
    directory has a parent; it stops at the first directory that holds
    [.obsidian].  [None] is the loop running out, the [else] of the [while]. *)
Fixpoint climb_to_vault (fuel : nat) (dir : path) : option path :=
  match fuel with
  | O => None
  | S fuel' =>
      if path_eqb (path_parent dir) dir then None
      else if path_exists (path_join dir (path_of_str (lit ".obsidian"))) then Some dir
      else climb_to_vault fuel' (path_parent dir)
  end.

Definition vault_root_of (current_dir : path) : path :=
  match climb_to_vault (S (length (parts current_dir))) current_dir with
  | Some root => root
  | None => current_dir
  end.

(** Lines 202-206 *)
Definition clean_ref (file_ref : str) : str :=
  let file_ref :=
    if contains [BAR] file_ref then strip_ws (fst (split_once BAR file_ref))
    else file_ref in
  strip_ws file_ref.

(** Lines 209-221 *)
Definition possible_paths (current_dir vault_root : path) (file_ref : str) : list path :=
  let ref := path_of_str file_ref in
  let under (dir : path) (folder : str) := path_join (path_join dir (path_of_str folder)) ref in
  [path_join current_dir ref;
   path_join vault_root ref;
   under vault_root (lit "attachments");
   under vault_root (lit "Attachments");
   under vault_root (lit "assets");
   under vault_root (lit "Assets");
   under vault_root (lit "images");
   under vault_root (lit "Images");
   under vault_root (lit "Files");
   under current_dir (lit "attachments");
   under current_dir (lit "assets")].

Definition is_existing_file (p : path) : bool := path_exists p && path_is_file p.

Definition search_asset (file_ref : str) (source_dir : path) : outcome (option path) :=
  let current_dir := source_dir in
  let vault_root := vault_root_of current_dir in
  let file_ref := clean_ref file_ref in
  match List.find is_existing_file (possible_paths current_dir vault_root file_ref) with
  | Some p => Ok (Some p)
  | None =>
      let search_name := path_name (path_of_str file_ref) in
      match rglob vault_root search_name with
      | Some found => Ok (List.find path_is_file found)
      | None => Raise ValueError
      end
  end.
End FindAsset.

(** ** The command line ([main], lines 569-655)

    The arguments as [argparse] hands them over. *)

Record arguments := {
  arg_input : str;
  arg_output : str;
  arg_format : format;
  arg_preserve_links : bool;
  arg_preserve_structure : bool;
  arg_add_folder_tags : bool;
  arg_assets : assets_mode;
  arg_assets_dir : str
}.

Section Main.
Context `{Unicode} `{PyRuntime} `{Yaml} `{Clock} `{!FileSystem} `{Hashing} `{Disk}.

(** Lines 616-624 *)
Definition converter_of (args : arguments) : config :=
  {| output_format := arg_format args;
     preserve_links := arg_preserve_links args;
     assets_handling := arg_assets args;
     assets_dir := if nonempty (arg_assets_dir args) then arg_assets_dir args
                   else lit "assets" |}.

(** Lines 626-655: the exit code; an exception of a single-file conversion
    is not caught.  For a single file the output directory is made first
    (line 631); for a directory [convert_directory] makes it. *)
Definition main (args : arguments) : M nat :=
  let converter := converter_of args in
  let input_path := path_of_str (arg_input args) in
  if path_is_file input_path then
    make_dirs (path_of_str (arg_output args)) ;;;
    converted <- convert_file converter input_path (path_of_str (arg_output args)) None false ;;
    ret 0
  else if path_is_dir input_path then
    converted <- convert_directory converter input_path (path_of_str (arg_output args))
                   (arg_preserve_structure args) (arg_add_folder_tags args) ;;
    ret 0
  else ret 1.
End Main.

(** ** Shapes of text, for the statements *)

(** A wiki-link piece in markdown output. *)
Definition md_link (file_mapping : list (path * str)) (target display : str) : str :=
  lit "[" ++ display ++ lit "](" ++ resolve_link file_mapping target ++ lit ".md)".

Definition piece_md (file_mapping : list (path * str)) (p : piece) : str :=
  match p with
  | Text s => s
  | Link t => md_link file_mapping t t
  | LinkAs t d => md_link file_mapping t d
  end.

(** A character of a word: a lower-case ASCII letter, a digit or an
    underscore. *)
Definition word_char (c : char) : bool :=
  ascii_lower c || ascii_digit c || (c =? USCORE)%N.

(** A computation that leaves a component of the state as it was, whether
    it returns or raises. *)
Definition keeps {A B} (component : state -> B) (c : M A) : Prop :=
  forall st, component (fst (c st)) = component st.

(** Letters, digits, hyphens and underscores: the characters of a generated
    file name before its extension. *)
Definition file_char (c : char) : bool :=
  ascii_alnum c || (c =? HYPHEN)%N || (c =? USCORE)%N.

(** Lines 493-500: where [convert_file] writes. *)
Definition output_path_of (output_dir : path) (relative_path : option path)
    (preserve_structure : bool) (denote_filename : str) : path :=
  match relative_path with
  | Some rel =>
      if preserve_structure
      then path_join (path_join output_dir (path_parent rel)) (path_of_str denote_filename)
      else path_join output_dir (path_of_str denote_filename)
  | None => path_join output_dir (path_of_str denote_filename)
  end.

(** A disk for the examples: the vault root holds [.obsidian] and the image
    of the sample vault lies in its [attachments] folder. *)
#[export] Instance sample_disk : Disk := {|
  path_exists := fun p =>
    path_eqb p (vault_file ".obsidian") || path_eqb p (vault_file "attachments/diagram.png")
    || path_eqb p vault || path_eqb p (vault_file "projects");
  path_is_file := fun p => path_eqb p (vault_file "attachments/diagram.png");
  path_is_dir := fun p => path_eqb p vault || path_eqb p (vault_file "projects");
  rglob := fun root name =>
    if str_eqb name [] then None
    else if str_eqb name (lit "diagram.png") then Some [vault_file "attachments/diagram.png"]
    else Some []
|}.

(** A clock with a single instant, and a vault on it that holds the notes of
    the sample vault and no asset. *)
Definition still_clock : Clock := {|
  datetime := unit;
  fromisoformat := fun _ => Some tt;
  strftime_stamp := fun _ => lit "20240115T103000";
  strftime_date := fun _ => lit "2024-01-15";
  now := tt
|}.

Definition bare_fs : @FileSystem still_clock :=
  @Build_FileSystem still_clock
    (fun p => dict_get p sample_files)
    (fun _ => Some tt)
    (fun _ => sample_listing)
    (fun _ _ => None)
    (fun _ _ => true)
    (fun _ => true)
    (fun _ => true)
    (fun _ => true).

(** A character that takes no part in emphasis markup: no asterisk, no
    underscore, no tilde, no backquote, and no line feed. *)
Definition markup_free (c : char) : bool :=
  negb ((c =? 42)%N || (c =? USCORE)%N || (c =? 126)%N || (c =? 96)%N || (c =? NL)%N).

(** A line that is not a code fence. *)
Definition no_fence (line : str) : bool := negb (startswith (lit "```") line).

(** A vault with one note in a folder whose front matter has an empty
    [tags:] entry, which the parser reads as [None]. *)
Definition untagged_note : str := text_of_lines ["---"; "tags:"; "---"; "body"]%string.

Definition untagged_yaml : Yaml := {|
  yaml_safe_load := fun s =>
    if str_eqb s (lit "tags:") then Some (Some [(lit "tags", PNone)]) else None
|}.

Definition untagged_fs : @FileSystem sample_clock :=
  @Build_FileSystem sample_clock
    (fun p => if path_eqb p (vault_file "projects/untagged.md") then Some untagged_note
              else None)
    (fun _ => Some (lit "20240115T103000"))
    (fun _ => [vault_file "projects/untagged.md"])
    (fun _ _ => None)
    (fun _ _ => true)
    (fun _ => true)
    (fun _ => true)
    (fun _ => true).

(** The arguments of a run over the sample vault with the defaults of the
    command line. *)
Definition sample_arguments (input : string) : arguments :=
  {| arg_input := lit input; arg_output := lit "out"; arg_format := Org;
     arg_preserve_links := false; arg_preserve_structure := false;
     arg_add_folder_tags := false; arg_assets := AssetsCopy;
     arg_assets_dir := lit "assets" |}.

(** The directory [k] levels above [dir]. *)
Definition ancestor (k : nat) (dir : path) : path := Nat.iter k path_parent dir.

Definition dot_obsidian : path := path_of_str (lit ".obsidian").

(** A vault with two notes of the same name and content in two folders. *)
Definition twin_fs : @FileSystem still_clock :=
  @Build_FileSystem still_clock
    (fun p => if path_eqb p (vault_file "home/todo.md") || path_eqb p (vault_file "work/todo.md")
              then Some (lit "remember") else None)
    (fun _ => Some tt)
    (fun _ => [vault_file "home/todo.md"; vault_file "work/todo.md"])
    (fun _ _ => None)
    (fun _ _ => true)
    (fun _ => true)
    (fun _ => true)
    (fun _ => true).

(** ** The walk of a batch, file by file

    What the loop of [convert_directory] is to do: the files are converted
    one after the other, each in the state the walk has reached; the line of
    the file is printed, [Converted] when its conversion returned and
    [Failed] when it raised, and the walk goes on with the next file. *)
Definition event_of (md_file : path) (result : outcome (str * path)) : event :=
  match result with
  | Ok (new_filename, _) => Converted md_file new_filename
  | Raise e => Failed md_file e
  end.

Section Walk.
Context `{Unicode} `{PyRuntime} `{Yaml} `{Clock} `{!FileSystem} `{Hashing}.

Fixpoint walk (cfg : config) (input_dir output_dir : path)
    (preserve_structure add_folder_tags : bool) (md_files : list path) (st : state)
  : list (path * outcome (str * path)) * state :=
  match md_files with
  | [] => ([], st)
  | md_file :: rest =>
      let run := convert_one cfg input_dir output_dir preserve_structure add_folder_tags
                   md_file st in
      let after := log_event (event_of md_file (snd run)) (fst run) in
      let rest_run := walk cfg input_dir output_dir preserve_structure add_folder_tags
                        rest after in
      ((md_file, snd run) :: fst rest_run, snd rest_run)
  end.
End Walk.

(** The pairs of the files whose conversion returned, in order. *)
Definition converted_of (trace : list (path * outcome (str * path))) : list (path * path) :=
  flat_map (fun entry =>
              match snd entry with
              | Ok (_, output_file_path) => [(fst entry, output_file_path)]
              | Raise _ => []
              end) trace.

Definition failed_in (trace : list (path * outcome (str * path))) : list path :=
  flat_map (fun entry => match snd entry with Ok _ => [] | Raise _ => [fst entry] end) trace.

(** The vault without assets on a file system that lets no directory be
    made. *)
Definition sealed_fs : @FileSystem still_clock :=
  @Build_FileSystem still_clock
    (fun p => dict_get p sample_files)
    (fun _ => Some tt)
    (fun _ => sample_listing)
    (fun _ _ => None)
    (fun _ _ => true)
    (fun _ => true)
    (fun _ => false)
    (fun _ => false).



(** No number sign of the text is directly followed by a word character. *)
Fixpoint no_tag_start `{Unicode} (s : str) : bool :=
  match s with
  | c :: t =>
      negb ((c =? HASH)%N && match t with x :: _ => re_word x | [] => false end)
      && no_tag_start t
  | [] => true
  end.

(** The directories the climb of [find_asset] looks into: the directory of
    the note and its ancestors, as long as they have a component; the last
    one, which is its own parent, is not looked into. *)
Definition climbed (dir : path) : list path :=
  map (fun k => ancestor k dir) (seq 0 (length (parts dir))).

Definition holds_obsidian `{Disk} (dir : path) : bool :=
  path_exists (path_join dir dot_obsidian).

(** * Properties *)

Unset Implicit Arguments.

(** ** Characters and scanning *)

Ltac char_cases :=
  repeat match goal with
    | H : context [(?a <=? ?b)%N] |- _ => destruct (N.leb_spec a b); simpl in H; try lia
    | H : context [(?a <? ?b)%N] |- _ => destruct (N.ltb_spec a b); simpl in H; try lia
    | H : context [(?a =? ?b)%N] |- _ => destruct (N.eqb_spec a b); simpl in H; try lia
    | |- context [(?a <=? ?b)%N] => destruct (N.leb_spec a b); simpl; try lia
    | |- context [(?a <? ?b)%N] => destruct (N.ltb_spec a b); simpl; try lia
    | |- context [(?a =? ?b)%N] => destruct (N.eqb_spec a b); simpl; try lia
    end;
  try congruence; try lia.

Ltac char_unfold :=
  unfold slug_char, alnum_hyphen_char, is_sep, re_word, re_space, is_ascii,
    ascii_alnum, ascii_space, ascii_digit, ascii_upper, ascii_lower,
    HYPHEN, USCORE, LBRACK, RBRACK, BANG, BAR, NL, HASH, DOT, SLASH in *.

Ltac char_solve := char_unfold; simpl in *; char_cases.

Lemma run_after (p : char -> bool) (s : str) : s = run_of p s ++ after_run p s.
Proof.
  induction s as [|c t IH]; simpl; [reflexivity|].
  destruct (p c); simpl; [f_equal; exact IH | reflexivity].
Qed.

Lemma after_run_head (p : char -> bool) (s : str) c t :
  after_run p s = c :: t -> p c = false.
Proof.
  induction s as [|a s IH]; simpl; [discriminate|].
  destruct (p a) eqn:E; [exact IH|].
  intros [= <- _]. exact E.
Qed.

Lemma after_run_length (p : char -> bool) (s : str) :
  length (after_run p s) <= length s.
Proof.
  induction s as [|a s IH]; simpl; [lia|].
  destruct (p a); simpl; lia.
Qed.

Lemma run_of_all (p : char -> bool) (s : str) : Forall (fun c => p c = true) (run_of p s).
Proof.
  induction s as [|a s IH]; simpl; [constructor|].
  destruct (p a) eqn:E; constructor; assumption.
Qed.

Lemma run_of_app_stop (p : char -> bool) (a : str) c t :
  Forall (fun x => p x = true) a -> p c = false ->
  run_of p (a ++ c :: t) = a /\ after_run p (a ++ c :: t) = c :: t.
Proof.
  intros Ha Hc. induction Ha as [|x a Hx _ IH]; simpl.
  - rewrite Hc. split; reflexivity.
  - rewrite Hx. destruct IH as [-> ->]. split; reflexivity.
Qed.

Lemma after_run_id (p : char -> bool) (s : str) :
  match s with c :: _ => p c = false | [] => True end -> after_run p s = s.
Proof. destruct s as [|c t]; simpl; [reflexivity|]. intros ->. reflexivity. Qed.

Lemma sub_scan_skip (m : matcher) f (a s : str) :
  sub_scan m f (length a) (a ++ s) = sub_scan m f 0 s.
Proof. induction a as [|c a IH]; simpl; [destruct s; reflexivity | exact IH]. Qed.

Lemma re_sub_nil (m : matcher) f : re_sub m f [] = [].
Proof. reflexivity. Qed.

Lemma re_sub_copy (m : matcher) f c t :
  m (c :: t) = None -> re_sub m f (c :: t) = c :: re_sub m f t.
Proof. unfold re_sub. simpl. intros ->. reflexivity. Qed.

Lemma re_sub_match (m : matcher) f c a s g :
  m (c :: a ++ s) = Some (g, S (length a)) ->
  re_sub m f (c :: a ++ s) = f g ++ re_sub m f s.
Proof. unfold re_sub. simpl. intros ->. simpl. rewrite sub_scan_skip. reflexivity. Qed.

Lemma sub_scan_Forall (P Q : char -> Prop) (m : matcher) f :
  (forall s g n, m s = Some (g, n) -> Forall P (f g)) ->
  (forall c t, Q c -> m (c :: t) = None -> P c) ->
  forall s k, Forall Q s -> Forall P (sub_scan m f k s).
Proof.
  intros Hrep Hcopy s. induction s as [|c t IH]; intros k Hs; simpl; [constructor|].
  inversion Hs as [|? ? Hc Ht]; subst.
  destruct k as [|k]; [|apply IH; assumption].
  destruct (m (c :: t)) as [[g n]|] eqn:E.
  - apply Forall_app. split; [eapply Hrep; eassumption | apply IH; assumption].
  - constructor; [eapply Hcopy; eassumption | apply IH; assumption].
Qed.

Lemma re_sub_untouched (P : char -> Prop) (m : matcher) f :
  (forall c t, P c -> m (c :: t) = None) ->
  forall s, Forall P s -> re_sub m f s = s.
Proof.
  intros Hno s Hs. induction Hs as [|c t Hc _ IH]; [reflexivity|].
  rewrite re_sub_copy by (apply Hno; assumption). f_equal. exact IH.
Qed.

Lemma filter_all (p : char -> bool) (s : str) : Forall (fun c => p c = true) (List.filter p s).
Proof.
  induction s as [|c t IH]; simpl; [constructor|].
  destruct (p c) eqn:E; [constructor; assumption | assumption].
Qed.

Lemma filter_id (p : char -> bool) (s : str) :
  Forall (fun c => p c = true) s -> List.filter p s = s.
Proof.
  induction 1 as [|c t Hc _ IH]; simpl; [reflexivity|]. rewrite Hc, IH. reflexivity.
Qed.

(** ** [strip] *)

Lemma lstrip_suffix c s : exists l, s = l ++ lstrip c s.
Proof. eexists. apply run_after. Qed.

Lemma rstrip_prefix c s : exists r, s = rstrip c s ++ r.
Proof.
  unfold rstrip. destruct (lstrip_suffix c (rev s)) as [l E].
  exists (rev l). rewrite <- rev_app_distr, <- E, rev_involutive. reflexivity.
Qed.

Lemma lstrip_head c s : hd_error (lstrip c s) <> Some c.
Proof.
  unfold lstrip. destruct (after_run _ s) as [|x t] eqn:E; simpl; [discriminate|].
  apply after_run_head in E. intros [= ->]. rewrite N.eqb_refl in E. discriminate.
Qed.

Lemma lstrip_id c s : hd_error s <> Some c -> lstrip c s = s.
Proof.
  intros Hh. apply after_run_id. destruct s as [|x t]; [exact I|].
  simpl in Hh. destruct (N.eqb_spec x c); [subst; congruence | reflexivity].
Qed.

Lemma strip_id c s :
  hd_error s <> Some c -> hd_error (rev s) <> Some c -> strip c s = s.
Proof.
  intros Hf Hl. unfold strip, rstrip. rewrite (lstrip_id _ _ Hf), (lstrip_id _ _ Hl).
  apply rev_involutive.
Qed.

Lemma strip_ends c s :
  hd_error (strip c s) <> Some c /\ hd_error (rev (strip c s)) <> Some c.
Proof.
  split.
  - destruct (rstrip_prefix c (lstrip c s)) as [r E]. fold (strip c s) in E.
    destruct (strip c s) as [|x t]; simpl; [discriminate|].
    intros [= ->]. apply (lstrip_head c s). rewrite E. reflexivity.
  - unfold strip, rstrip. rewrite rev_involutive. apply lstrip_head.
Qed.

Lemma strip_segment c s : exists l r, s = l ++ strip c s ++ r.
Proof.
  destruct (lstrip_suffix c s) as [l El].
  destruct (rstrip_prefix c (lstrip c s)) as [r Er].
  exists l, r. unfold strip. rewrite <- Er. exact El.
Qed.

Lemma no_double_hyphen_app_r a b :
  no_double_hyphen (a ++ b) = true -> no_double_hyphen b = true.
Proof.
  induction a as [|x a IH]; simpl; [tauto|].
  rewrite andb_true_iff. intros [_ Hr]. apply IH. exact Hr.
Qed.

Lemma no_double_hyphen_app_l a b :
  no_double_hyphen (a ++ b) = true -> no_double_hyphen a = true.
Proof.
  induction a as [|x a IH]; simpl; [reflexivity|].
  rewrite !andb_true_iff. intros [Hh Hr]. split; [|apply IH; exact Hr].
  destruct a; [reflexivity | exact Hh].
Qed.

(** ** [slugify] *)

Section SlugifyFacts.
Context `{Unicode}.

Lemma str_lower_low (s : str) :
  Forall (fun c => is_ascii c = true) s -> Forall folded_char (str_lower s).
Proof.
  induction 1 as [|c t Hc _ IH]; simpl; [constructor|].
  unfold lower_char. rewrite Hc. simpl. constructor; [|exact IH].
  unfold folded_char. destruct (ascii_upper c) eqn:E; split; char_solve.
Qed.

Lemma str_lower_id (s : str) : Forall folded_char s -> str_lower s = s.
Proof.
  induction 1 as [|c t [Ha Hu] _ IH]; simpl; [reflexivity|].
  unfold lower_char. rewrite Ha, Hu. simpl. f_equal. exact IH.
Qed.

Lemma drop_others_kept (s : str) :
  Forall folded_char s -> Forall kept_char (re_sub pat_not_word_space_hyphen (fun _ => []) s).
Proof.
  apply sub_scan_Forall.
  - intros; constructor.
  - intros c t Hc. unfold pat_not_word_space_hyphen, kept_char.
    destruct (re_word c || re_space c || (c =? HYPHEN)%N); simpl; [auto | discriminate].
Qed.

Lemma kept_not_sep_slug c : kept_char c -> is_sep c = false -> slug_char c = true.
Proof. intros [[Ha Hu] Hk] Hs. char_solve. Qed.

Lemma collapse_slug_chars (s : str) :
  Forall kept_char s ->
  Forall (fun c => slug_char c = true) (re_sub pat_sep_run (fun _ => lit "-") s).
Proof.
  apply sub_scan_Forall.
  - intros _ _ _ _. repeat constructor.
  - intros c t Hc. unfold pat_sep_run. simpl.
    destruct (is_sep c) eqn:E; [discriminate|]. intros _.
    apply kept_not_sep_slug; assumption.
Qed.

(** The two ways [[-\s]+] meets a character. *)
Lemma collapse_copy c t :
  is_sep c = false ->
  re_sub pat_sep_run (fun _ => lit "-") (c :: t)
  = c :: re_sub pat_sep_run (fun _ => lit "-") t.
Proof.
  intros E. apply re_sub_copy. unfold pat_sep_run. simpl. rewrite E. reflexivity.
Qed.

Lemma collapse_run c t :
  is_sep c = true ->
  re_sub pat_sep_run (fun _ => lit "-") (c :: t)
  = HYPHEN :: re_sub pat_sep_run (fun _ => lit "-") (after_run is_sep t).
Proof.
  intros E. rewrite (run_after is_sep t) at 1.
  rewrite re_sub_match with (g := c :: run_of is_sep t); [reflexivity|].
  unfold pat_sep_run. simpl. rewrite E. rewrite <- run_after. reflexivity.
Qed.

Lemma collapse_no_double_hyphen (s : str) :
  no_double_hyphen (re_sub pat_sep_run (fun _ => lit "-") s) = true.
Proof.
  remember (length s) as n eqn:En. revert s En.
  induction n as [n IH] using lt_wf_ind. intros s En.
  destruct s as [|c t]; [reflexivity|]. simpl in En.
  destruct (is_sep c) eqn:E.
  - rewrite collapse_run by exact E.
    pose proof (after_run_length is_sep t) as Hlen.
    pose proof (IH (length (after_run is_sep t)) ltac:(lia) _ eq_refl) as Hrest.
    destruct (after_run is_sep t) as [|c' t'] eqn:Ea; [reflexivity|].
    apply after_run_head in Ea.
    rewrite collapse_copy in * by exact Ea.
    change (negb ((HYPHEN =? HYPHEN)%N && (c' =? HYPHEN)%N)
            && no_double_hyphen (c' :: re_sub pat_sep_run (fun _ => lit "-") t') = true).
    rewrite Hrest, andb_true_r. unfold is_sep in Ea.
    destruct (c' =? HYPHEN)%N; [discriminate | reflexivity].
  - rewrite collapse_copy by exact E.
    pose proof (IH (length t) ltac:(lia) _ eq_refl) as Hrest.
    simpl. rewrite Hrest, andb_true_r.
    destruct (re_sub pat_sep_run _ t); [reflexivity|].
    unfold is_sep in E. destruct (c =? HYPHEN)%N; [discriminate | reflexivity].
Qed.

Lemma collapse_id (s : str) :
  Forall (fun c => slug_char c = true) s -> no_double_hyphen s = true ->
  re_sub pat_sep_run (fun _ => lit "-") s = s.
Proof.
  induction 1 as [|c t Hc Ht IH]; intros Hd; [reflexivity|].
  simpl in Hd. apply andb_true_iff in Hd as [Hh Hd].
  destruct (is_sep c) eqn:E.
  - rewrite collapse_run by exact E.
    assert (c = HYPHEN) as -> by char_solve.
    rewrite after_run_id; [f_equal; apply IH; exact Hd|].
    destruct t as [|c' t']; [exact I|].
    inversion Ht as [|? ? Hc' _]; subst. char_solve.
  - rewrite collapse_copy by exact E. f_equal. apply IH. exact Hd.
Qed.

Lemma untitled_shape : slug_shape (lit "untitled").
Proof.
  split; try (vm_compute; congruence).
  repeat constructor.
Qed.

(** Every result of [slugify] has the shape of a slug. *)
Lemma slugify_shape (text : option str) : slug_shape (slugify text).
Proof.
  destruct text as [[|c0 t0]|]; try apply untitled_shape.
  unfold slugify.
  set (t1 := List.filter is_ascii (nfkd (c0 :: t0))).
  set (t3 := re_sub pat_not_word_space_hyphen _ (str_lower t1)).
  set (t4 := re_sub pat_sep_run _ t3).
  assert (H4 : Forall (fun c => slug_char c = true) t4).
  { apply collapse_slug_chars, drop_others_kept, str_lower_low, filter_all. }
  assert (D4 : no_double_hyphen t4 = true) by apply collapse_no_double_hyphen.
  destruct (strip_segment HYPHEN t4) as (l & r & E).
  destruct (strip_ends HYPHEN t4) as [Hf Hl].
  destruct (strip HYPHEN t4) as [|x u] eqn:Es; [apply untitled_shape|].
  split; try assumption; try discriminate.
  - rewrite E in H4. apply Forall_app in H4 as [_ H4].
    apply Forall_app in H4 as [H4 _]. exact H4.
  - rewrite E in D4. apply no_double_hyphen_app_r in D4.
    apply no_double_hyphen_app_l in D4. exact D4.
Qed.

(** A slug is a fixed point of [slugify], NFKD being the identity on ASCII
    text. *)
Lemma slugify_fixes_slugs (r : str) :
  (forall s, Forall (fun c => is_ascii c = true) s -> nfkd s = s) ->
  slug_shape r -> slugify (Some r) = r.
Proof.
  intros Hn [Hne Hc Hd Hf Hl].
  assert (Ha : Forall (fun c => is_ascii c = true) r).
  { eapply List.Forall_impl; [|exact Hc]. intros c Hs. char_solve. }
  assert (Hlow : Forall folded_char r).
  { eapply List.Forall_impl; [|exact Hc]. intros c Hs. split; char_solve. }
  destruct r as [|c t]; [congruence|].
  unfold slugify. set (r := c :: t) in *. cbv zeta.
  rewrite (Hn r Ha), (filter_id _ _ Ha), (str_lower_id _ Hlow).
  rewrite re_sub_untouched with (P := fun c => slug_char c = true) (m := pat_not_word_space_hyphen); [| |exact Hc].
  - rewrite (collapse_id _ Hc Hd), (strip_id _ _ Hf Hl). reflexivity.
  - intros c' t' Hs. unfold pat_not_word_space_hyphen.
    replace (re_word c' || re_space c' || (c' =? HYPHEN)%N) with true; [reflexivity|].
    symmetry. char_solve.
Qed.
End SlugifyFacts.

Lemma nfkd_sample_ascii (s : str) :
  Forall (fun c => is_ascii c = true) s -> nfkd (Unicode := sample_unicode) s = s.
Proof.
  induction 1 as [|c t Hc _ IH]; [reflexivity|].
  simpl in *. rewrite IH. unfold nfkd_char.
  repeat match goal with |- context [(c =? ?k)%N] =>
    destruct (N.eqb_spec c k); [subst; vm_compute in Hc; discriminate|] end.
  reflexivity.
Qed.

(** *** The unit tests of [slugify] ([test_slugify]) *)

Example slugify_tests :
  slugify (Some (lit "Hello World")) = lit "hello-world"
  /\ slugify (Some (lit "Test & Special@Characters!")) = lit "test-specialcharacters"
  /\ slugify (Some (lit "Multiple   Spaces")) = lit "multiple-spaces"
  /\ slugify (Some []) = lit "untitled"
  /\ slugify None = lit "untitled"
  /\ slugify (Some ([220%N] ++ lit "ber Caf" ++ [233%N])) = lit "uber-cafe"
  /\ slugify (Some (lit "123-numbers")) = lit "123-numbers".
Proof. repeat split; vm_compute; reflexivity. Qed.

(** C1, as stated, fails: the claim bounds the characters of a slug by
    [a-z0-9-], but an underscore is a word character for [[^\w\s-]] and goes
    through: [slugify("a_b")] is ["a_b"]. *)
Lemma slugify_keeps_underscore :
  slugify (Some (lit "a_b")) = lit "a_b"
  /\ ~ Forall (fun c => alnum_hyphen_char c = true) (slugify (Some (lit "a_b"))).
Proof.
  assert (E : slugify (Some (lit "a_b")) = lit "a_b") by (vm_compute; reflexivity).
  split; [exact E|]. rewrite E. intros Hall.
  inversion Hall as [|? ? _ Htl]. inversion Htl as [|? ? Hu _].
  vm_compute in Hu. discriminate.
Qed.

(** C1, amended: [slugify] is a total function of its input; whatever the
    input (absent, empty or any text, under any Unicode tables) the result is
    non-empty and made only of lower-case ASCII letters, digits, hyphens and
    underscores, and it is exactly ["untitled"] for absent and for empty
    input. *)
Theorem slugify_total_charset `{Unicode} (text : option str) :
  slugify text <> []
  /\ Forall (fun c => slug_char c = true) (slugify text)
  /\ slugify None = lit "untitled"
  /\ slugify (Some []) = lit "untitled".
Proof.
  destruct (slugify_shape text) as [Hne Hc _ _ _].
  repeat split; assumption || reflexivity.
Qed.

(** C10: [slugify] is idempotent.  NFKD normalisation leaves ASCII text
    unchanged; that is the one fact about the Unicode tables the property
    depends on. *)
Theorem slugify_idempotent `{Unicode}
    (nfkd_ascii : forall s, Forall (fun c => is_ascii c = true) s -> nfkd s = s)
    (text : option str) :
  slugify (Some (slugify text)) = slugify text.
Proof. apply slugify_fixes_slugs; [exact nfkd_ascii | apply slugify_shape]. Qed.

Lemma slugify_idempotent_witness :
  (forall s, Forall (fun c => is_ascii c = true) s -> nfkd (Unicode := sample_unicode) s = s)
  /\ slugify (Some (slugify (Some (lit "  Hello -- World_1!  "))))
     = slugify (Some (lit "  Hello -- World_1!  ")).
Proof.
  split; [exact nfkd_sample_ascii|].
  apply (slugify_idempotent (H := sample_unicode) nfkd_sample_ascii).
Defined.

(** ** Wiki-links *)

Ltac eval_lits :=
  repeat match goal with
    | |- context [lit ?s] =>
        let v := eval vm_compute in (lit s) in change (lit s) with v
    end.

Lemma pat_wikilink_first c t : c <> LBRACK -> pat_wikilink (c :: t) = None.
Proof.
  intros Hc. unfold pat_wikilink. destruct t as [|b t]; [reflexivity|].
  destruct (N.eqb_spec c LBRACK); [contradiction | reflexivity].
Qed.

Lemma pat_wikilink_second c c' t : c' <> LBRACK -> pat_wikilink (c :: c' :: t) = None.
Proof.
  intros Hc. unfold pat_wikilink.
  destruct (N.eqb_spec c' LBRACK); [contradiction|].
  rewrite andb_false_r. reflexivity.
Qed.

Lemma no_brackets_not_rbrack s :
  no_brackets s = true -> Forall (fun c => not_rbrack c = true) s.
Proof.
  unfold no_brackets. rewrite forallb_forall, List.Forall_forall.
  intros Hs c Hc. specialize (Hs c Hc). unfold not_rbrack.
  rewrite negb_orb in Hs. apply andb_true_iff in Hs as [_ Hs]. exact Hs.
Qed.

Lemma no_brackets_plain s : no_brackets s = true -> plain_text s = true.
Proof.
  induction s as [|c t IH]; simpl; [reflexivity|].
  rewrite andb_true_iff, negb_orb, andb_true_iff. intros [[Hl _] Ht].
  rewrite (IH Ht), andb_true_r. destruct (c =? LBRACK)%N; [discriminate | reflexivity].
Qed.

Lemma no_brackets_app a b :
  no_brackets (a ++ b) = no_brackets a && no_brackets b.
Proof. apply forallb_app. Qed.

(** The pattern matches a bracketed, bracket-free, non-empty text. *)
Lemma pat_wikilink_link g rest :
  g <> [] -> Forall (fun c => not_rbrack c = true) g ->
  pat_wikilink (LBRACK :: LBRACK :: g ++ RBRACK :: RBRACK :: rest)
  = Some (g, 2 + length g + 2).
Proof.
  intros Hne Hg. unfold pat_wikilink. rewrite N.eqb_refl. simpl andb. cbv iota.
  destruct (run_of_app_stop not_rbrack g RBRACK (RBRACK :: rest) Hg eq_refl) as [-> ->].
  destruct g; [congruence|]. rewrite N.eqb_refl. reflexivity.
Qed.

Lemma wikilink_pass_link f g rest :
  g <> [] -> Forall (fun c => not_rbrack c = true) g ->
  re_sub pat_wikilink f (lit "[[" ++ g ++ lit "]]" ++ rest)
  = f g ++ re_sub pat_wikilink f rest.
Proof.
  intros Hne Hg. eval_lits.
  change ([91; 91]%N ++ g ++ [93; 93]%N ++ rest)
    with (LBRACK :: (LBRACK :: g ++ [RBRACK; RBRACK]%N ++ rest)).
  replace (LBRACK :: g ++ [RBRACK; RBRACK] ++ rest)
    with ((LBRACK :: g ++ [RBRACK; RBRACK]) ++ rest)
    by (simpl; rewrite <- app_assoc; reflexivity).
  apply re_sub_match.
  simpl app at 1. rewrite <- app_assoc. simpl app.
  rewrite (pat_wikilink_link g rest Hne Hg). f_equal. f_equal.
  simpl. rewrite length_app. simpl. lia.
Qed.

Lemma wikilink_pass_text f s rest :
  plain_text s = true ->
  re_sub pat_wikilink f (s ++ rest) = s ++ re_sub pat_wikilink f rest.
Proof.
  induction s as [|c t IH]; [reflexivity|].
  simpl plain_text. rewrite andb_true_iff. intros [Hc Ht].
  simpl app. rewrite re_sub_copy; [f_equal; apply IH; exact Ht|].
  destruct (N.eqb_spec c LBRACK) as [->|Hn]; [|apply pat_wikilink_first; exact Hn].
  destruct t as [|c' t']; [discriminate|]. simpl app.
  apply pat_wikilink_second. destruct (N.eqb_spec c' LBRACK); [discriminate | assumption].
Qed.

(** *** The two parts of a link text *)

Lemma find_bar_none s : no_bar s = true -> find_str [BAR] s = None.
Proof.
  induction s as [|c t IH]; [reflexivity|].
  simpl no_bar. rewrite andb_true_iff. intros [Hc Ht].
  simpl find_str. rewrite (IH Ht).
  unfold startswith, str_eqb. simpl firstn.
  rewrite bool_decide_eq_false_2; [reflexivity|].
  intros [= ->]. discriminate.
Qed.

Lemma contains_bar_no s : no_bar s = true -> contains [BAR] s = false.
Proof. intros Hs. unfold contains. rewrite (find_bar_none s Hs). reflexivity. Qed.

Lemma contains_bar_yes t d : contains [BAR] (t ++ BAR :: d) = true.
Proof.
  unfold contains. induction t as [|c t IH]; [reflexivity|].
  simpl app. simpl find_str. destruct (startswith [BAR] (c :: t ++ BAR :: d)); [reflexivity|].
  destruct (find_str [BAR] (t ++ BAR :: d)); [reflexivity | discriminate].
Qed.

Lemma split_link_one t : no_bar t = true -> split_link t = (t, t).
Proof. intros Ht. unfold split_link. rewrite (contains_bar_no t Ht). reflexivity. Qed.

Lemma split_link_two t d : no_bar t = true -> split_link (t ++ BAR :: d) = (t, d).
Proof.
  intros Ht. unfold split_link, split_once. rewrite contains_bar_yes.
  assert (Hall : Forall (fun c => negb (c =? BAR)%N = true) t).
  { unfold no_bar in Ht. rewrite forallb_forall in Ht. apply List.Forall_forall. exact Ht. }
  destruct (run_of_app_stop (fun c => negb (c =? BAR)%N) t BAR d Hall eq_refl) as [-> ->].
  reflexivity.
Qed.

Lemma resolve_link_no_brackets fm t :
  bracket_free_mapping fm = true -> no_brackets t = true ->
  no_brackets (resolve_link fm t) = true.
Proof.
  intros Hfm Ht. unfold resolve_link.
  destruct (List.find _ fm) as [[old new]|] eqn:E; [|exact Ht].
  apply find_some in E as [Hin _].
  unfold bracket_free_mapping in Hfm. rewrite forallb_forall in Hfm.
  exact (Hfm _ Hin).
Qed.

Lemma resolve_link_unmapped fm t :
  Forall (fun e => path_stem (fst e) <> t) fm -> resolve_link fm t = t.
Proof.
  intros Hfm. unfold resolve_link.
  destruct (List.find _ fm) as [[old new]|] eqn:E; [|reflexivity].
  apply find_some in E as [Hin Heq]. rewrite List.Forall_forall in Hfm.
  specialize (Hfm _ Hin). unfold str_eqb in Heq.
  apply bool_decide_eq_true_1 in Heq. contradiction.
Qed.

Lemma resolve_link_mapped earlier old new later t :
  Forall (fun e => path_stem (fst e) <> t) earlier -> path_stem old = t ->
  resolve_link (earlier ++ (old, new) :: later) t = path_stem (path_of_str new).
Proof.
  intros He Ho. unfold resolve_link.
  induction He as [|e earlier Hne _ IH]; simpl.
  - unfold str_eqb. rewrite bool_decide_eq_true_2 by exact Ho. reflexivity.
  - unfold str_eqb at 1. rewrite bool_decide_eq_false_2 by exact Hne. exact IH.
Qed.

(** *** The second pass, over the result of the first *)

Lemma pat_embed_first c t : c <> BANG -> pat_embed (c :: t) = None.
Proof.
  intros Hc. unfold pat_embed. destruct (N.eqb_spec c BANG); [contradiction | reflexivity].
Qed.

Lemma embed_blocked_intro rest : pat_wikilink rest = None -> embed_blocked rest.
Proof. intros E. unfold embed_blocked, pat_embed. rewrite N.eqb_refl, E. reflexivity. Qed.

Lemma embed_blocked_nil : embed_blocked [].
Proof. reflexivity. Qed.

Lemma embed_blocked_plain s rest :
  plain_text s = true -> s <> [] -> embed_blocked (s ++ rest).
Proof.
  intros Hs Hne. apply embed_blocked_intro.
  destruct s as [|c t]; [congruence|]. simpl in Hs. apply andb_true_iff in Hs as [Hc _].
  destruct (N.eqb_spec c LBRACK) as [->|Hn]; [|apply pat_wikilink_first; exact Hn].
  destruct t as [|c' t']; [discriminate|]. simpl app.
  apply pat_wikilink_second. destruct (N.eqb_spec c' LBRACK); [discriminate | assumption].
Qed.

(** An org link does not complete an embed: its first closing bracket is
    followed by an opening one. *)
Lemma embed_blocked_org_link l d rest :
  no_brackets l = true ->
  embed_blocked (lit "[[file:" ++ l ++ lit ".org][" ++ d ++ lit "]]" ++ rest).
Proof.
  intros Hl. apply embed_blocked_intro. eval_lits.
  set (tail := d ++ [93; 93]%N ++ rest).
  change (pat_wikilink (LBRACK :: LBRACK :: [102; 105; 108; 101; 58]%N ++ l
                          ++ [46; 111; 114; 103]%N ++ RBRACK :: LBRACK :: tail) = None).
  unfold pat_wikilink. rewrite N.eqb_refl. simpl andb. cbv iota.
  assert (Hg : Forall (fun c => not_rbrack c = true)
                 ([102; 105; 108; 101; 58]%N ++ l ++ [46; 111; 114; 103]%N)).
  { apply Forall_app. split; [repeat constructor|].
    apply Forall_app. split; [apply no_brackets_not_rbrack; exact Hl | repeat constructor]. }
  pose proof (run_of_app_stop not_rbrack _ RBRACK (LBRACK :: tail) Hg eq_refl) as [E1 E2].
  rewrite <- !app_assoc in E1, E2. rewrite E1, E2. reflexivity.
Qed.

Lemma embed_pass_text f s rest :
  plain_text s = true -> embed_blocked rest ->
  re_sub pat_embed f (s ++ rest) = s ++ re_sub pat_embed f rest.
Proof.
  intros Hs Hrest. induction s as [|c t IH]; [reflexivity|].
  assert (Ht : plain_text t = true).
  { simpl in Hs. apply andb_true_iff in Hs as [_ Ht]. exact Ht. }
  simpl app. rewrite re_sub_copy; [f_equal; apply IH; exact Ht|].
  destruct (N.eqb_spec c BANG) as [->|Hn]; [|apply pat_embed_first; exact Hn].
  destruct t as [|c' t']; [exact Hrest|].
  apply (embed_blocked_plain (c' :: t') rest Ht). discriminate.
Qed.

Lemma embed_pass_org_link f l d rest :
  no_brackets l = true -> no_brackets d = true ->
  re_sub pat_embed f (lit "[[file:" ++ l ++ lit ".org][" ++ d ++ lit "]]" ++ rest)
  = lit "[[file:" ++ l ++ lit ".org][" ++ d ++ lit "]]" ++ re_sub pat_embed f rest.
Proof.
  intros Hl Hd. eval_lits. simpl app.
  do 7 (rewrite re_sub_copy by reflexivity; f_equal).
  rewrite embed_pass_text;
    [f_equal | apply no_brackets_plain; exact Hl | apply embed_blocked_intro; reflexivity].
  do 6 (rewrite re_sub_copy by reflexivity; f_equal).
  rewrite embed_pass_text;
    [reflexivity | apply no_brackets_plain; exact Hd | apply embed_blocked_intro; reflexivity].
Qed.

Section OrgDocuments.
Variable fm : list (path * str).
Hypothesis fm_ok : bracket_free_mapping fm = true.

Lemma well_formed_link_parts p :
  well_formed_piece p = true ->
  match p with
  | Text s => plain_text s = true
  | Link t => t <> [] /\ no_brackets t = true /\ no_bar t = true
  | LinkAs t d => no_brackets t = true /\ no_bar t = true /\ no_brackets d = true
  end.
Proof.
  destruct p as [s|t|t d]; simpl; [tauto| |].
  - rewrite !andb_true_iff, negb_true_iff. intros [[Hne Hb] Hn]. repeat split; try assumption.
    intros ->. discriminate.
  - rewrite !andb_true_iff. tauto.
Qed.

Lemma piece_org_blocked p rest :
  well_formed_piece p = true -> embed_blocked rest ->
  embed_blocked (piece_org fm p ++ rest).
Proof using fm_ok.
  intros Hp Hrest. apply well_formed_link_parts in Hp.
  destruct p as [s|t|t d]; cbn [piece_org].
  - destruct s as [|c s']; [exact Hrest|].
    apply embed_blocked_plain; [exact Hp | discriminate].
  - destruct Hp as (_ & Hb & _). unfold org_link. rewrite <- !app_assoc.
    apply embed_blocked_org_link, resolve_link_no_brackets; assumption.
  - destruct Hp as (Hb & _ & _). unfold org_link. rewrite <- !app_assoc.
    apply embed_blocked_org_link, resolve_link_no_brackets; assumption.
Qed.

Lemma doc_org_blocked (doc : list piece) :
  Forall (fun p => well_formed_piece p = true) doc ->
  embed_blocked (concat (map (piece_org fm) doc)).
Proof using fm_ok.
  induction 1 as [|p doc Hp _ IH]; [exact embed_blocked_nil|].
  cbn [concat map]. apply piece_org_blocked; assumption.
Qed.

(** First pass: every link is replaced, the text between links is copied. *)
Lemma wikilink_pass_doc (doc : list piece) :
  Forall (fun p => well_formed_piece p = true) doc ->
  re_sub pat_wikilink (replace_link_org fm) (concat (map piece_source doc))
  = concat (map (piece_org fm) doc).
Proof.
  induction 1 as [|p doc Hp _ IH]; [reflexivity|].
  apply well_formed_link_parts in Hp. cbn [concat map].
  destruct p as [s|t|t d]; cbn [piece_source piece_org].
  - rewrite wikilink_pass_text by exact Hp. f_equal. exact IH.
  - destruct Hp as (Hne & Hb & Hn). rewrite <- !app_assoc.
    rewrite wikilink_pass_link; [|exact Hne | apply no_brackets_not_rbrack; exact Hb].
    rewrite IH. f_equal. unfold replace_link_org. rewrite (split_link_one t Hn). reflexivity.
  - destruct Hp as (Hb & Hn & Hd).
    replace ((lit "[[" ++ t ++ lit "|" ++ d ++ lit "]]") ++ concat (map piece_source doc))
      with (lit "[[" ++ (t ++ BAR :: d) ++ lit "]]" ++ concat (map piece_source doc))
      by (rewrite <- !app_assoc; reflexivity).
    rewrite wikilink_pass_link.
    + rewrite IH. f_equal. unfold replace_link_org. rewrite (split_link_two t d Hn). reflexivity.
    + destruct t; discriminate.
    + apply no_brackets_not_rbrack. rewrite no_brackets_app, Hb. simpl. exact Hd.
Qed.

(** Second pass: nothing in the result of the first is an embed. *)
Lemma embed_pass_doc (doc : list piece) :
  Forall (fun p => well_formed_piece p = true) doc ->
  re_sub pat_embed replace_embed (concat (map (piece_org fm) doc))
  = concat (map (piece_org fm) doc).
Proof using fm_ok.
  induction 1 as [|p doc Hp Hdoc IH]; [reflexivity|].
  pose proof (doc_org_blocked doc Hdoc) as Hrest.
  apply well_formed_link_parts in Hp. cbn [concat map].
  destruct p as [s|t|t d]; cbn [piece_org].
  - rewrite embed_pass_text by assumption. f_equal. exact IH.
  - destruct Hp as (_ & Hb & _). unfold org_link. rewrite <- !app_assoc.
    rewrite embed_pass_org_link; [|apply resolve_link_no_brackets; assumption | exact Hb].
    rewrite IH. reflexivity.
  - destruct Hp as (Hb & _ & Hd). unfold org_link. rewrite <- !app_assoc.
    rewrite embed_pass_org_link; [|apply resolve_link_no_brackets; assumption | exact Hd].
    rewrite IH. reflexivity.
Qed.

Lemma convert_links_org_doc cfg (doc : list piece) :
  Forall (fun p => well_formed_piece p = true) doc ->
  convert_links cfg fm (concat (map piece_source doc)) true
  = concat (map (piece_org fm) doc).
Proof using fm_ok.
  intros Hdoc. unfold convert_links.
  rewrite (wikilink_pass_doc doc Hdoc). apply embed_pass_doc. exact Hdoc.
Qed.
End OrgDocuments.

Lemma convert_links_embed_general cfg ref :
  ref <> [] -> no_brackets ref = true -> no_bar ref = true ->
  convert_links cfg [] (lit "![[" ++ ref ++ lit "]]") true
  = lit "![[file:" ++ ref ++ lit ".org][" ++ ref ++ lit "]]".
Proof.
  intros Hne Hb Hn.
  assert (Hdoc : Forall (fun p => well_formed_piece p = true) [Text [BANG]; Link ref]).
  { repeat constructor. simpl. rewrite Hb, Hn, andb_true_r, andb_true_r.
    destruct ref; [congruence | reflexivity]. }
  pose proof (convert_links_org_doc [] eq_refl cfg _ Hdoc) as E.
  cbn [concat map piece_source piece_org] in E. rewrite !app_nil_r in E.
  unfold org_link, resolve_link in E. cbn [List.find] in E.
  exact E.
Qed.

(** The unit test of the org links ([test_convert_links_to_org]). *)
Example convert_links_to_org_test cfg :
  convert_links cfg [] (lit "Check [[my-note]] and [[another note|description]]") true
  = lit "Check [[file:my-note.org][my-note]] and [[file:another note.org][description]]".
Proof. vm_compute. reflexivity. Qed.

(** C3: for org output, in a note body made of text and wiki-links, every
    link [[target]] becomes [[file:<resolved>.org][target]] and every link
    [[target|display]] becomes [[file:<resolved>.org][display]], the text in
    between being left as it is; <resolved> is the new stem recorded for the
    first note of the file mapping whose original stem is the target, and the
    target itself when the mapping has no such note. *)
Theorem convert_links_org_wikilinks cfg (fm : list (path * str)) (doc : list piece)
    (doc_ok : Forall (fun p => well_formed_piece p = true) doc)
    (fm_ok : bracket_free_mapping fm = true) :
  convert_links cfg fm (concat (map piece_source doc)) true
  = concat (map (piece_org fm) doc)
  /\ (forall t, Forall (fun e => path_stem (fst e) <> t) fm -> resolve_link fm t = t)
  /\ (forall earlier old new later t,
        fm = earlier ++ (old, new) :: later ->
        Forall (fun e => path_stem (fst e) <> t) earlier ->
        path_stem old = t ->
        resolve_link fm t = path_stem (path_of_str new)).
Proof.
  split; [apply convert_links_org_doc; assumption|].
  split; [apply resolve_link_unmapped|].
  intros earlier old new later t ->. apply resolve_link_mapped.
Qed.

Lemma convert_links_org_wikilinks_witness :
  Forall (fun p => well_formed_piece p = true) sample_doc
  /\ bracket_free_mapping sample_mapping = true
  /\ convert_links default_config sample_mapping
       (lit "See [[my-note]], [a](b) and [[another note|description]].") true
     = lit "See [[file:20240115T103000--my-note__tag1.org][my-note]], [a](b) and [[file:another note.org][description]].".
Proof.
  split; [repeat constructor|]. split; [reflexivity|].
  exact (proj1 (convert_links_org_wikilinks default_config sample_mapping sample_doc
                  ltac:(repeat constructor) eq_refl)).
Defined.

(** C4 fails on the code: the wiki-link substitution runs first and rewrites
    the bracketed part of an embed as a link to a note, after which the embed
    pattern finds nothing to match.  [![[image.png]]] comes out as
    [![[file:image.png.org][image.png]]], not as [[[file:image.png]]]. *)
Theorem convert_links_embed_not_raw_link cfg :
  convert_links cfg [] (lit "![[image.png]]") true
  = lit "![[file:image.png.org][image.png]]"
  /\ convert_links cfg [] (lit "![[image.png]]") true <> lit "[[file:image.png]]".
Proof.
  assert (E : convert_links cfg [] (lit "![[image.png]]") true
              = lit "![[file:image.png.org][image.png]]").
  { apply (convert_links_embed_general cfg (lit "image.png")); [discriminate | reflexivity..]. }
  split; [exact E|]. rewrite E. vm_compute. discriminate.
Qed.

(** ** Org markup: the unit tests of [convert_to_org] and of the markdown
    links, with the date of the sample clock *)

Example convert_to_org_headers :
  convert_to_org default_config []
    (text_of_lines ["# Level 1"; "## Level 2"; "### Level 3"; "#### Level 4"]%string)
    (Some []) (lit "Test") []
  = text_of_lines ["#+title: Test"; "#+date: 2024-02-01"; EmptyString;
                   "* Level 1"; "** Level 2"; "*** Level 3"; "**** Level 4"]%string.
Proof. vm_compute. reflexivity. Qed.

Example convert_to_org_emphasis :
  convert_to_org default_config []
    (lit "**bold** and *italic* and ~~strikethrough~~ and `code`") (Some []) (lit "Test") []
  = text_of_lines ["#+title: Test"; "#+date: 2024-02-01"; EmptyString;
                   "/bold/ and /italic/ and +strikethrough+ and ~code~"]%string.
Proof. vm_compute. reflexivity. Qed.

Example convert_to_org_lists :
  convert_to_org default_config []
    (text_of_lines ["* Item 1"; "+ Item 2"; "  - Nested item"; "1.	Numbered item"]%string)
    (Some []) (lit "Test") []
  = text_of_lines ["#+title: Test"; "#+date: 2024-02-01"; EmptyString;
                   "- Item 1"; "- Item 2"; "  - Nested item"; "1. Numbered item"]%string.
Proof. vm_compute. reflexivity. Qed.

Example convert_to_org_checkboxes :
  convert_to_org default_config []
    (text_of_lines ["- [ ] Unchecked"; "- [x] Checked"]%string) (Some []) (lit "Test") []
  = text_of_lines ["#+title: Test"; "#+date: 2024-02-01"; EmptyString;
                   "- [ ] Unchecked"; "- [X] Checked"]%string.
Proof. vm_compute. reflexivity. Qed.

Example convert_to_org_code_blocks :
  convert_to_org default_config []
    (text_of_lines ["```python"; "def hello():"; "    print(**kw)"; "```"]%string)
    (Some []) (lit "Test") []
  = text_of_lines ["#+title: Test"; "#+date: 2024-02-01"; EmptyString;
                   "#+BEGIN_SRC python"; "def hello():"; "    print(**kw)";
                   "#+END_SRC"]%string.
Proof. vm_compute. reflexivity. Qed.

Example convert_to_org_with_metadata :
  convert_to_org default_config [] (lit "Content")
    (Some [(lit "title", PStr (lit "My Note")); (lit "author", PStr (lit "John Doe"));
           (lit "created", PStr (lit "2024-01-15"))])
    (lit "My Note") [lit "tag1"; lit "tag2"]
  = text_of_lines ["#+title: My Note"; "#+date: 2024-02-01"; "#+filetags: :tag1: :tag2:";
                   EmptyString; ":PROPERTIES:"; ":AUTHOR: John Doe"; ":CREATED: 2024-01-15";
                   ":END:"; EmptyString; "Content"]%string.
Proof. vm_compute. reflexivity. Qed.

Example convert_links_to_markdown_test :
  convert_links {| output_format := Md; preserve_links := false;
                   assets_handling := AssetsCopy; assets_dir := lit "assets" |} []
    (lit "Check [[my-note]] and [[another note|description]]") false
  = lit "Check [my-note](my-note.md) and [description](another note.md)".
Proof. vm_compute. reflexivity. Qed.

(** ** Front matter *)

(** The unit test of the front matter ([test_extract_yaml_frontmatter], the
    note without front matter). *)
Example extract_without_frontmatter :
  extract_yaml_frontmatter (text_of_lines ["# Just Content"; "No frontmatter here"]%string)
  = (Some [], text_of_lines ["# Just Content"; "No frontmatter here"]%string).
Proof. vm_compute. reflexivity. Qed.

Example extract_with_frontmatter :
  extract_yaml_frontmatter
    (text_of_lines ["---"; "tags: [important]"; "---"; "# My Project"]%string)
  = (Some [(lit "tags", PList [PStr (lit "important")])], lit "# My Project").
Proof. vm_compute. reflexivity. Qed.

(** C7: when the text starts with the delimiter line, a closing delimiter
    line is found and the block between the two does not parse (the parser
    raises [YAMLError]), the metadata returned is the empty mapping and the
    body returned is the whole input text. *)
Theorem extract_yaml_frontmatter_malformed `{Yaml} (content : str) (end_idx : nat)
    (opens : startswith (lit "---" ++ [NL]) content = true)
    (closes : index_from ([NL] ++ lit "---" ++ [NL]) content 4 = Some end_idx)
    (malformed : yaml_safe_load (slice content 4 end_idx) = None) :
  extract_yaml_frontmatter content = (Some [], content).
Proof.
  unfold extract_yaml_frontmatter. rewrite opens, closes, malformed. reflexivity.
Qed.

Lemma extract_yaml_frontmatter_malformed_witness :
  startswith (lit "---" ++ [NL]) malformed_note = true
  /\ index_from ([NL] ++ lit "---" ++ [NL]) malformed_note 4 = Some 20
  /\ yaml_safe_load (slice malformed_note 4 20) = None
  /\ extract_yaml_frontmatter malformed_note = (Some [], malformed_note).
Proof.
  split; [vm_compute; reflexivity|].
  split; [vm_compute; reflexivity|].
  split; [vm_compute; reflexivity|].
  apply (extract_yaml_frontmatter_malformed (H := sample_yaml) malformed_note 20);
    vm_compute; reflexivity.
Defined.

(** ** File names *)




Section FilenameFacts.
Context `{Unicode} `{PyRuntime} `{Clock} `{!FileSystem}.

Lemma md_get_truthy key md v : md_get key md = Some v -> md_truthy md = true.
Proof. destruct md as [[|kv d]|]; simpl; (discriminate || reflexivity). Qed.

Lemma heading_search_nonempty b content g :
  heading_search b content = Some g -> nonempty content = true.
Proof. destruct content; [discriminate | reflexivity]. Qed.

(** When the title of the metadata is the stem of the file name, a heading
    of the body takes its place. *)
Lemma title_of_heading_over_title p md content v g :
  md_get (lit "title") md = Some v -> py_truthy v = true ->
  py_str v = path_stem p ->
  heading_search true content = Some g -> g <> [] ->
  title_of p md content = g.
Proof.
  intros Hget Htrue Hstem Hhead Hg. unfold title_of, metadata_title.
  rewrite (md_get_truthy _ _ _ Hget), Hget, Htrue, Hstem.
  unfold str_eqb. rewrite bool_decide_eq_true_2 by reflexivity.
  rewrite (heading_search_nonempty _ _ _ Hhead), Hhead. simpl.
  destruct g; [congruence | reflexivity].
Qed.



End FilenameFacts.

(** The unit tests of the file names ([test_generate_denote_filename] and
    the string-valued tags of [test_edge_cases]), at the modification time
    of the sample files. *)
Example generate_denote_filename_tests :
  generate_denote_filename default_config (vault_file "test.md")
    (Some [(lit "title", PStr (lit "Test Note"));
           (lit "tags", PList [PStr (lit "tag1"); PStr (lit "tag2")])])
    (lit "# Test Content")
  = Some (lit "20240115T103000--test-note__tag1_tag2.org", lit "Test Note",
          [lit "tag1"; lit "tag2"], lit "20240115T103000")
  /\ generate_denote_filename default_config (vault_file "test.md")
       (Some [(lit "tags", PStr (lit "single-tag"))]) []
     = Some (lit "20240115T103000--test__single-tag.org", lit "test",
             [lit "single-tag"], lit "20240115T103000")
  /\ generate_denote_filename default_config (vault_file "test.md")
       (Some [(lit "tags", PList [])]) []
     = Some (lit "20240115T103000--test.org", lit "test", [], lit "20240115T103000").
Proof. repeat split; vm_compute; reflexivity. Qed.

(** The titles of [test_generate_denote_filename_with_heading] and of a note
    with neither metadata nor heading; and a second way in which the order
    of the fallbacks is not kept: an empty first alias ends the search, and
    the title is [untitled] although the body has a heading and the file a
    name. *)
Example title_of_examples :
  title_of (vault_file "untitled.md") (Some [])
    (text_of_lines ["# My Important Note"; "Some content"]%string)
  = lit "My Important Note"
  /\ title_of (vault_file "my-note.md") None (lit "Just some content") = lit "my-note"
  /\ title_of (vault_file "note.md") (Some [(lit "aliases", PList [PStr []])]) (lit "# Heading")
     = lit "untitled".
Proof. repeat split; vm_compute; reflexivity. Qed.

(** C5 fails on the code: a title given by the metadata is kept only while
    it differs from the stem of the file name.  For the note [note.md] with
    the metadata title [note] and the body [# Heading], the title chosen is
    [Heading] (and the file name is built from it), where the claim gives the
    metadata title the first place. *)
Theorem title_of_metadata_title_overridden
    `{Unicode} `{PyRuntime} (p : path) (md : metadata) (content : str) (v : pyval) (g : str)
    (has_title : md_get (lit "title") md = Some v)
    (title_nonempty : py_truthy v = true)
    (title_is_stem : py_str v = path_stem p)
    (has_heading : heading_search true content = Some g)
    (heading_differs : g <> [] /\ g <> py_str v) :
  title_of p md content = g /\ title_of p md content <> py_str v.
Proof.
  destruct heading_differs as [Hg Hne].
  rewrite (title_of_heading_over_title p md content v g) by assumption.
  split; [reflexivity | exact Hne].
Qed.

Lemma title_of_metadata_title_overridden_witness :
  title_of (vault_file "note.md") (Some [(lit "title", PStr (lit "note"))]) (lit "# Heading")
  = lit "Heading"
  /\ generate_denote_filename default_config (vault_file "note.md")
       (Some [(lit "title", PStr (lit "note"))]) (lit "# Heading")
     = Some (lit "20240115T103000--heading.org", lit "Heading", [], lit "20240115T103000").
Proof.
  split; [|vm_compute; reflexivity].
  apply (title_of_metadata_title_overridden
           (vault_file "note.md") (Some [(lit "title", PStr (lit "note"))]) (lit "# Heading")
           (PStr (lit "note")) (lit "Heading"));
    try (vm_compute; reflexivity).
  split; vm_compute; discriminate.
Defined.



(** A string given as [aliases] is the title as a whole, and the first of a
    list of aliases is. *)
Example alias_title_examples :
  title_of (vault_file "index.md") (Some [(lit "aliases", PStr (lit "Home"))]) (lit "# Heading")
  = lit "Home"
  /\ fst <$> generate_denote_filename default_config (vault_file "index.md")
               (Some [(lit "aliases", PStr (lit "Home"))]) (lit "text")
     = Some (lit "20240115T103000--home.org", lit "Home", [])
  /\ title_of (vault_file "index.md")
       (Some [(lit "aliases", PList [PStr (lit "Start"); PStr (lit "Home")])]) []
     = lit "Start"
  /\ title_of (vault_file "index.md") (Some [(lit "aliases", PStr (lit "A"))]) [] = lit "A".
Proof. repeat split; vm_compute; reflexivity. Qed.

(** ** Assets *)

Section AssetFacts.
Context `{Clock} `{!FileSystem} `{Hashing}.









End AssetFacts.




(** The run of the three sample calls: two copies, and the same destination
    for the first and the last call. *)
Example copy_assets_sample :
  snd (copy_assets default_config sample_calls fresh)
  = Ok [lit "assets/diagram_c2ad0288.png"; lit "assets/project-spec_307cb8b5.pdf";
        lit "assets/diagram_c2ad0288.png"]
  /\ copied (fst (copy_assets default_config sample_calls fresh))
     = [(vault_file "attachments/diagram.png",
         path_of_str (lit "out/assets/diagram_c2ad0288.png"));
        (vault_file "attachments/project-spec.pdf",
         path_of_str (lit "out/assets/project-spec_307cb8b5.pdf"))].
Proof. split; vm_compute; reflexivity. Qed.

(** The walk of the sample vault: the image that two notes embed is copied
    once, and the mapping holds its one destination. *)
Example sample_run_copies_once :
  copied (fst sample_run)
  = [(vault_file "attachments/diagram.png",
      path_of_str (lit "out/assets/diagram_c2ad0288.png"))]
  /\ asset_mapping (fst sample_run) !! lit "vault/attachments/diagram.png"
     = Some (lit "assets/diagram_c2ad0288.png").
Proof. split; vm_compute; reflexivity. Qed.

(** ** The walker *)

Lemma kc_ret {A} (a : A) : keeps_console (ret a).
Proof. intros st. reflexivity. Qed.

Lemma kc_raise {A} (e : exn) : keeps_console (@raise A e).
Proof. intros st. reflexivity. Qed.

Lemma kc_get : keeps_console get.
Proof. intros st. reflexivity. Qed.

Lemma kc_modify (f : state -> state) :
  (forall st, console (f st) = console st) -> keeps_console (modify f).
Proof. intros Hf st. apply Hf. Qed.

Lemma kc_bind {A B} (c : M A) (k : A -> M B) :
  keeps_console c -> (forall a, keeps_console (k a)) -> keeps_console (bind c k).
Proof.
  intros Hc Hk st. unfold bind. specialize (Hc st).
  destruct (c st) as [st1 [a|e]]; simpl in *; [|exact Hc].
  rewrite (Hk a st1). exact Hc.
Qed.

Lemma kc_of_option {A} (e : exn) (o : option A) : keeps_console (of_option e o).
Proof. destruct o; [apply kc_ret | apply kc_raise]. Qed.

Lemma kc_of_outcome {A} (o : outcome A) : keeps_console (of_outcome o).
Proof. intros st. reflexivity. Qed.

Ltac kc_step :=
  first
    [ apply kc_ret | apply kc_raise | apply kc_get | apply kc_of_option
    | apply kc_of_outcome
    | apply kc_modify; intros; reflexivity
    | apply kc_bind; [|intros]
    | match goal with
      | |- keeps_console (match ?x with _ => _ end) => destruct x
      | |- keeps_console (if ?b then _ else _) => destruct b
      end ].

Ltac kc := repeat kc_step.

Ltac kc_using lem := repeat first [apply lem | kc_step].

Section WalkerFacts.
Context `{Unicode} `{PyRuntime} `{Yaml} `{Clock} `{!FileSystem} `{Hashing}.

Lemma kc_copy_asset cfg a o : keeps_console (copy_asset cfg a o).
Proof. unfold copy_asset, shutil_copy2. kc. Qed.

Lemma kc_make_dir p : keeps_console (make_dir p).
Proof. unfold make_dir. kc. Qed.

Lemma kc_make_dirs p : keeps_console (make_dirs p).
Proof. unfold make_dirs. kc. Qed.

Lemma kc_sub_scan_m (m : gmatcher) (f : str -> list str -> M str) :
  (forall w g, keeps_console (f w g)) ->
  forall s prev skip, keeps_console (sub_scan_m m f prev skip s).
Proof.
  intros Hf s. induction s as [|c t IH]; intros prev skip; simpl; [apply kc_ret|].
  destruct skip; [|apply IH].
  destruct (m prev (c :: t)) as [[groups n]|]; kc; auto.
Qed.

Lemma kc_process_assets cfg source_dir output_dir is_org content :
  keeps_console (process_assets cfg source_dir output_dir is_org content).
Proof.
  unfold process_assets.
  assert (He : forall w g, keeps_console (process_embed cfg source_dir output_dir is_org w g)).
  { intros w g. unfold process_embed. kc_using kc_copy_asset. }
  assert (Hi : forall w g, keeps_console (process_md_image cfg source_dir output_dir is_org w g)).
  { intros w g. unfold process_md_image. kc_using kc_copy_asset. }
  assert (Ha : forall w g, keeps_console (process_attachment cfg source_dir output_dir is_org w g)).
  { intros w g. unfold process_attachment. kc_using kc_copy_asset. }
  destruct (assets_handling cfg); [| |apply kc_ret];
    (apply kc_bind; [first [apply kc_make_dir | apply kc_ret] | intros];
     apply kc_bind; [apply kc_sub_scan_m; assumption | intros];
     apply kc_bind; [apply kc_sub_scan_m; assumption | intros];
     apply kc_sub_scan_m; assumption).
Qed.

Lemma kc_convert_file cfg input_path output_dir relative_path preserve_structure :
  keeps_console (convert_file cfg input_path output_dir relative_path preserve_structure).
Proof.
  unfold convert_file, read_file, write_file.
  apply kc_bind; [kc|]. intros content.
  destruct (extract_yaml_frontmatter content) as [md remaining].
  apply kc_bind; [apply kc_process_assets|]. intros remaining'.
  apply kc_bind; [kc|]. intros [[[denote_filename title] tags] created_time].
  kc_using kc_make_dirs.
Qed.

Lemma kc_convert_one cfg input_dir output_dir preserve_structure add_folder_tags md_file :
  keeps_console
    (convert_one cfg input_dir output_dir preserve_structure add_folder_tags md_file).
Proof.
  unfold convert_one, read_file.
  apply kc_bind; [kc|]. intros rel.
  apply kc_bind; [|intros; apply kc_convert_file].
  destruct (_ && _); [|apply kc_ret].
  apply kc_bind; [kc|]. intros content.
  destruct (extract_yaml_frontmatter content) as [md remaining]. kc.
Qed.

(** The folder tags are computed and dropped: when the reading of the file
    for them succeeds, the conversion is the one made without them. *)
Lemma convert_one_folder_tags_dropped cfg input_dir output_dir preserve_structure
    md_file rel content tagged (st : state) :
  path_relative_to md_file input_dir = Some rel ->
  read_text md_file = Some content ->
  with_folder_tags (fst (extract_yaml_frontmatter content)) (parts (path_parent rel))
  = Ok tagged ->
  convert_one cfg input_dir output_dir preserve_structure true md_file st
  = convert_one cfg input_dir output_dir preserve_structure false md_file st.
Proof.
  intros Hrel Hread Htags. unfold convert_one, read_file, bind, of_option.
  rewrite Hrel. simpl.
  destruct (negb (path_eqb (path_parent rel) here)); [|reflexivity].
  rewrite Hread. simpl.
  destruct (extract_yaml_frontmatter content) as [md remaining]. simpl in Htags.
  unfold of_outcome. rewrite Htags. reflexivity.
Qed.
End WalkerFacts.

(** The sample vault, walked with [add_folder_tags]: the unreadable note is
    reported and the notes after it are converted. *)
Example convert_directory_sample :
  console (fst sample_run)
  = [Converted (vault_file "index.md") (lit "20240115T103000--index__main_toc.org");
     Converted (vault_file "projects/my-project.md")
       (lit "20240115T103000--my-project__important.org");
     Failed (vault_file "daily/unreadable.md") (OSError (vault_file "daily/unreadable.md"));
     Converted (vault_file "daily/2024-01-15.md")
       (lit "20240115T103000--daily-note__meeting.org")]
  /\ snd sample_run
     = Ok [(vault_file "index.md",
            path_of_str (lit "out/20240115T103000--index__main_toc.org"));
           (vault_file "projects/my-project.md",
            path_of_str (lit "out/20240115T103000--my-project__important.org"));
           (vault_file "daily/2024-01-15.md",
            path_of_str (lit "out/20240115T103000--daily-note__meeting.org"))].
Proof. split; vm_compute; reflexivity. Qed.

(** The loop with its accumulator is the walk file by file. *)
Lemma convert_each_is_walk
    `{Unicode} `{PyRuntime} `{Yaml} `{Clock} `{!FileSystem} `{Hashing}
    (cfg : config) (input_dir output_dir : path) (preserve_structure add_folder_tags : bool)
    (md_files : list path) :
  forall (converted_files : list (path * path)) (st : state),
    convert_each cfg input_dir output_dir preserve_structure add_folder_tags
      md_files converted_files st
    = (snd (walk cfg input_dir output_dir preserve_structure add_folder_tags md_files st),
       Ok (converted_files
           ++ converted_of
                (fst (walk cfg input_dir output_dir preserve_structure add_folder_tags
                        md_files st)))).
Proof.
  induction md_files as [|f rest IH]; intros conv st.
  - simpl. rewrite app_nil_r. reflexivity.
  - cbn [convert_each walk fst snd].
    destruct (convert_one cfg input_dir output_dir preserve_structure add_folder_tags f st)
      as [st1 [[new_filename output_file_path]|e]]; cbn [fst snd event_of].
    + rewrite IH. unfold converted_of at 2. cbn [flat_map fst snd].
      rewrite <- app_assoc. reflexivity.
    + rewrite IH. reflexivity.
Qed.

Lemma walk_console
    `{Unicode} `{PyRuntime} `{Yaml} `{Clock} `{!FileSystem} `{Hashing}
    (cfg : config) (input_dir output_dir : path) (preserve_structure add_folder_tags : bool)
    (md_files : list path) :
  forall st : state,
    let run := walk cfg input_dir output_dir preserve_structure add_folder_tags md_files st in
    map fst (fst run) = md_files
    /\ console (snd run)
       = console st ++ map (fun entry => event_of (fst entry) (snd entry)) (fst run).
Proof.
  induction md_files as [|f rest IH]; intros st.
  - simpl. rewrite app_nil_r. split; reflexivity.
  - cbn [walk fst snd map].
    pose proof (kc_convert_one cfg input_dir output_dir preserve_structure
                  add_folder_tags f st) as Hkc.
    destruct (IH (log_event
                    (event_of f (snd (convert_one cfg input_dir output_dir
                                        preserve_structure add_folder_tags f st)))
                    (fst (convert_one cfg input_dir output_dir preserve_structure
                            add_folder_tags f st)))) as [Hfiles Hcon].
    split; [f_equal; exact Hfiles|].
    rewrite Hcon. cbn [log_event console]. rewrite Hkc, <- app_assoc. reflexivity.
Qed.

Lemma failed_not_converted (trace : list (path * outcome (str * path))) :
  List.NoDup (map fst trace) ->
  forall md_file, In md_file (failed_in trace) -> ~ In md_file (map fst (converted_of trace)).
Proof.
  induction trace as [|[f o] tr IH]; intros Hnd md_file; [intros []|].
  cbn [map fst] in Hnd. inversion Hnd as [|? ? Hf Hnd']; subst.
  assert (Hsub : forall x, In x (map fst (converted_of tr)) -> In x (map fst tr)).
  { clear. induction tr as [|[g o] tr IH]; intros x; [intros []|].
    unfold converted_of. cbn [flat_map fst snd map].
    destruct o as [[n p]|e]; cbn [app map fst In]; [intros [->|Hx]; auto|]; auto. }
  assert (Hsubf : forall x, In x (failed_in tr) -> In x (map fst tr)).
  { clear. induction tr as [|[g o] tr IH]; intros x; [intros []|].
    unfold failed_in. cbn [flat_map fst snd map].
    destruct o as [[n p]|e]; cbn [app map fst In]; [|intros [->|Hx]; auto]; auto. }
  unfold failed_in, converted_of. cbn [flat_map fst snd].
  destruct o as [[n p]|e]; cbn [app map fst In].
  - intros Hfail [<-|Hconv]; [apply Hf, Hsubf, Hfail | exact (IH Hnd' md_file Hfail Hconv)].
  - intros [<-|Hfail] Hconv; [apply Hf, Hsub, Hconv | exact (IH Hnd' md_file Hfail Hconv)].
Qed.

(** C9: once the output directory is made, [convert_directory] is the walk
    of the files found, file by file: every file found is converted in its
    turn, in the order found, whatever happened to the files before it; for
    each a line is printed, [Converted] with the new name when its
    conversion returned and [Failed] with the exception when it raised; the
    list returned holds, in order, exactly the files whose conversion
    returned, each with the output path its conversion returned, so a file
    that failed is not in it.  When the output directory cannot be made,
    before the walk, the exception is raised and nothing is done. *)
Theorem convert_directory_continues
    `{Unicode} `{PyRuntime} `{Yaml} `{Clock} `{!FileSystem} `{Hashing}
    (cfg : config) (input_dir output_dir : path)
    (preserve_structure add_folder_tags : bool) (st : state) :
  let trace := fst (walk cfg input_dir output_dir preserve_structure add_folder_tags
                      (glob_md input_dir) st) in
  let st' := snd (walk cfg input_dir output_dir preserve_structure add_folder_tags
                    (glob_md input_dir) st) in
  convert_directory cfg input_dir output_dir preserve_structure add_folder_tags st
  = (if mkdir_parents output_dir then (st', Ok (converted_of trace))
     else (st, Raise (OSError output_dir)))
  /\ map fst trace = glob_md input_dir
  /\ console st' = console st ++ map (fun entry => event_of (fst entry) (snd entry)) trace
  /\ (List.NoDup (glob_md input_dir) ->
      forall md_file, In md_file (failed_in trace) ->
                      ~ In md_file (map fst (converted_of trace))).
Proof.
  cbv zeta.
  destruct (walk_console cfg input_dir output_dir preserve_structure add_folder_tags
              (glob_md input_dir) st) as [Hfiles Hcon].
  split; [|split; [exact Hfiles | split; [exact Hcon|]]].
  - unfold convert_directory, make_dirs, bind.
    destruct (mkdir_parents output_dir); [|reflexivity].
    cbn [ret]. rewrite convert_each_is_walk. reflexivity.
  - intros Hnd. apply failed_not_converted. rewrite Hfiles. exact Hnd.
Qed.

Lemma convert_directory_continues_witness :
  snd sample_run
  = Ok (converted_of (fst (walk default_config vault out false true sample_listing fresh)))
  /\ ~ In (vault_file "daily/unreadable.md")
         (map fst (converted_of
                     (fst (walk default_config vault out false true sample_listing fresh)))).
Proof.
  destruct (@convert_directory_continues sample_unicode sample_runtime sample_yaml sample_clock
              sample_fs sample_hashing default_config vault out false true fresh)
    as (Hrun & _ & _ & Hfailed).
  split.
  - unfold sample_run. rewrite Hrun. reflexivity.
  - apply Hfailed.
    + change (glob_md vault) with sample_listing. unfold sample_listing.
      repeat (apply List.NoDup_cons; [vm_compute; intuition discriminate|]).
      apply List.NoDup_nil.
    + vm_compute. left. reflexivity.
Defined.

(** The folder tags the walker computes for the sample note in [projects]. *)
Example with_folder_tags_sample :
  with_folder_tags (Some [(lit "tags", PList [PStr (lit "important")])]) [lit "projects"]
  = Ok [(lit "tags", PList [PStr (lit "important"); PStr (lit "projects")])].
Proof. vm_compute. reflexivity. Qed.

(** C2 fails on the code: the walker adds the folder names to a copy of the
    metadata that it then drops, and [convert_file] reads the note again.
    For the note [projects/my-project.md] of the sample vault, whose front
    matter has the tag [important], the walk with [add_folder_tags] gives the
    file name and the [filetags] line without the tag [projects]; the whole
    walk is the one made without the option. *)
Theorem folder_tags_not_applied :
  In (Converted (vault_file "projects/my-project.md")
        (lit "20240115T103000--my-project__important.org"))
     (console (fst sample_run))
  /\ dict_get (path_of_str (lit "out/20240115T103000--my-project__important.org"))
       (written (fst sample_run))
     = Some (text_of_lines ["#+title: My Project"; "#+date: 2024-02-01";
                            "#+filetags: :important:"; EmptyString; ":PROPERTIES:"; ":END:"; EmptyString;
                            "* My Project"]%string)
  /\ sample_run = convert_directory default_config vault out false false fresh.
Proof.
  split; [|split]; [|vm_compute; reflexivity..].
  destruct convert_directory_sample as [E _]. rewrite E. simpl. auto.
Qed.

(** * Further properties *)

(** ** Slugs *)

Lemma no_double_hyphen_pair a b :
  no_double_hyphen (a ++ HYPHEN :: HYPHEN :: b) = false.
Proof.
  destruct (no_double_hyphen (a ++ HYPHEN :: HYPHEN :: b)) eqn:E; [|reflexivity].
  apply no_double_hyphen_app_r in E. simpl in E. discriminate.
Qed.

(** X1: a slug neither starts nor ends with a hyphen and holds no two
    hyphens in a row, whatever the input and the Unicode tables. *)
Theorem slugify_hyphens_single_inside `{Unicode} (text : option str) :
  (forall t, slugify text <> HYPHEN :: t)
  /\ (forall t, slugify text <> t ++ [HYPHEN])
  /\ (forall a b, slugify text <> a ++ HYPHEN :: HYPHEN :: b).
Proof.
  destruct (slugify_shape text) as [_ _ Hd Hf Hl]. repeat split.
  - intros t E. rewrite E in Hf. apply Hf. reflexivity.
  - intros t E. rewrite E, rev_app_distr in Hl. apply Hl. reflexivity.
  - intros a b E. rewrite E, no_double_hyphen_pair in Hd. discriminate.
Qed.

Section SlugWords.
Context `{Unicode}.

Lemma word_char_facts c :
  word_char c = true ->
  folded_char c /\ is_sep c = false /\ slug_char c = true
  /\ (re_word c || re_space c || (c =? HYPHEN)%N) = true /\ is_ascii c = true.
Proof. unfold word_char, folded_char. intros Hc. repeat split; char_solve. Qed.

Lemma space_facts :
  folded_char 32%N /\ is_sep 32%N = true
  /\ (re_word 32%N || re_space 32%N || (32 =? HYPHEN)%N) = true /\ is_ascii 32%N = true.
Proof. unfold folded_char. repeat split; reflexivity. Qed.

(** The words joined by single spaces, and by single hyphens. *)
Lemma spaced_all (P : char -> Prop) (words : list str) :
  P 32%N -> Forall (Forall P) words -> Forall P (join (lit " ") words).
Proof.
  intros Hsp Hw. induction Hw as [|w ws Hw _ IH]; [constructor|].
  destruct ws as [|w' ws']; [exact Hw|].
  change (join (lit " ") (w :: w' :: ws')) with (w ++ lit " " ++ join (lit " ") (w' :: ws')).
  apply Forall_app. split; [exact Hw|]. apply Forall_app. split; [|exact IH].
  repeat constructor. exact Hsp.
Qed.

Lemma collapse_word w rest :
  Forall (fun c => word_char c = true) w ->
  re_sub pat_sep_run (fun _ => lit "-") (w ++ rest)
  = w ++ re_sub pat_sep_run (fun _ => lit "-") rest.
Proof.
  induction 1 as [|c t Hc _ IH]; [reflexivity|].
  simpl app. rewrite collapse_copy by (apply word_char_facts; exact Hc).
  f_equal. exact IH.
Qed.

Lemma collapse_spaced (words : list str) :
  Forall (fun w => w <> [] /\ Forall (fun c => word_char c = true) w) words ->
  re_sub pat_sep_run (fun _ => lit "-") (join (lit " ") words) = join (lit "-") words.
Proof.
  induction 1 as [|w ws [Hne Hw] Hws IH]; [reflexivity|].
  destruct ws as [|w' ws'].
  - simpl join. rewrite <- (app_nil_r w) at 1. rewrite collapse_word by exact Hw.
    rewrite app_nil_r. reflexivity.
  - change (join (lit " ") (w :: w' :: ws')) with (w ++ lit " " ++ join (lit " ") (w' :: ws')).
    change (join (lit "-") (w :: w' :: ws')) with (w ++ lit "-" ++ join (lit "-") (w' :: ws')).
    rewrite collapse_word by exact Hw. f_equal.
    change (lit " " ++ join (lit " ") (w' :: ws')) with (32%N :: join (lit " ") (w' :: ws')).
    rewrite collapse_run by reflexivity.
    inversion Hws as [|? ? [Hne' Hw'] _]; subst.
    rewrite after_run_id; [rewrite IH; reflexivity|].
    destruct w' as [|c t]; [congruence|].
    inversion Hw' as [|? ? Hc _]; subst.
    destruct ws'; simpl; apply word_char_facts; exact Hc.
Qed.

Lemma join_first (sep : str) (words : list str) :
  words <> [] ->
  Forall (fun w => w <> [] /\ Forall (fun c => word_char c = true) w) words ->
  exists x post, join sep words = x :: post /\ word_char x = true.
Proof.
  intros Hne Hw. destruct Hw as [|w ws [Hwne Hw] _]; [congruence|].
  destruct w as [|x t]; [congruence|]. inversion Hw as [|? ? Hx _]; subst.
  destruct ws; simpl; eauto.
Qed.

Lemma join_last (sep : str) (words : list str) :
  words <> [] ->
  Forall (fun w => w <> [] /\ Forall (fun c => word_char c = true) w) words ->
  exists pre x, join sep words = pre ++ [x] /\ word_char x = true.
Proof.
  intros Hne Hw. induction Hw as [|w ws [Hwne Hw] Hws IH]; [congruence|].
  destruct ws as [|w' ws'].
  - simpl. destruct (exists_last Hwne) as (pre & x & ->).
    exists pre, x. split; [reflexivity|].
    apply Forall_app in Hw as [_ Hx]. inversion Hx; assumption.
  - destruct IH as (pre & x & E & Hx); [discriminate|].
    exists (w ++ sep ++ pre), x. split; [|exact Hx].
    change (join sep (w :: w' :: ws')) with (w ++ sep ++ join sep (w' :: ws')).
    rewrite E, <- !app_assoc. reflexivity.
Qed.

(** Words joined by single spaces are joined by single hyphens. *)
Lemma slugify_spaced (words : list str) :
  (forall s, Forall (fun c => is_ascii c = true) s -> nfkd s = s) ->
  words <> [] ->
  Forall (fun w => w <> [] /\ Forall (fun c => word_char c = true) w) words ->
  slugify (Some (join (lit " ") words)) = join (lit "-") words.
Proof.
  intros Hn Hne Hw.
  assert (Hchars : Forall (Forall (fun c => word_char c = true)) words).
  { eapply List.Forall_impl; [|exact Hw]. intros w [_ ?]. assumption. }
  assert (Ha : Forall (fun c => is_ascii c = true) (join (lit " ") words)).
  { apply spaced_all; [reflexivity|]. eapply List.Forall_impl; [|exact Hchars].
    intros w. apply List.Forall_impl. intros c Hc. apply word_char_facts. exact Hc. }
  assert (Hf : Forall folded_char (join (lit " ") words)).
  { apply spaced_all; [apply space_facts|]. eapply List.Forall_impl; [|exact Hchars].
    intros w. apply List.Forall_impl. intros c Hc. apply word_char_facts. exact Hc. }
  assert (Hk : Forall (fun c => (re_word c || re_space c || (c =? HYPHEN)%N) = true)
                 (join (lit " ") words)).
  { apply spaced_all; [reflexivity|]. eapply List.Forall_impl; [|exact Hchars].
    intros w. apply List.Forall_impl. intros c Hc. apply word_char_facts. exact Hc. }
  destruct (join_first (lit " ") words Hne Hw) as (x & post & Es & _).
  destruct (join_first (lit "-") words Hne Hw) as (y & post' & Ef & Hy).
  destruct (join_last (lit "-") words Hne Hw) as (pre & z & El & Hz).
  unfold slugify. rewrite Es. rewrite <- Es. cbv zeta.
  rewrite (Hn _ Ha), (filter_id _ _ Ha), (str_lower_id _ Hf).
  rewrite re_sub_untouched with (m := pat_not_word_space_hyphen)
    (P := fun c => (re_word c || re_space c || (c =? HYPHEN)%N) = true); [| |exact Hk].
  - rewrite (collapse_spaced words Hw). rewrite strip_id.
    + rewrite Ef. reflexivity.
    + rewrite Ef. simpl. intros [= ->]. vm_compute in Hy. discriminate.
    + rewrite El, rev_app_distr. simpl. intros [= ->]. vm_compute in Hz. discriminate.
  - intros c t Hc. unfold pat_not_word_space_hyphen. rewrite Hc. reflexivity.
Qed.
End SlugWords.

(** X2: lower-case words (letters, digits, underscores) separated by single
    spaces are slugified to the same words separated by single hyphens;
    NFKD leaves ASCII text unchanged. *)
Theorem slugify_joins_words `{Unicode} (words : list str)
    (nfkd_ascii : forall s, Forall (fun c => is_ascii c = true) s -> nfkd s = s)
    (some_word : words <> [])
    (word_shape : Forall (fun w => w <> [] /\ Forall (fun c => word_char c = true) w) words) :
  slugify (Some (join (lit " ") words)) = join (lit "-") words.
Proof. apply slugify_spaced; assumption. Qed.

Lemma slugify_joins_words_witness :
  (forall s, Forall (fun c => is_ascii c = true) s -> nfkd (Unicode := sample_unicode) s = s)
  /\ [lit "my"; lit "note_2"; lit "x"] <> []
  /\ Forall (fun w => w <> [] /\ Forall (fun c => word_char c = true) w)
       [lit "my"; lit "note_2"; lit "x"]
  /\ slugify (Some (lit "my note_2 x")) = lit "my-note_2-x".
Proof.
  assert (Hw : Forall (fun w => w <> [] /\ Forall (fun c => word_char c = true) w)
                 [lit "my"; lit "note_2"; lit "x"]).
  { repeat constructor; discriminate. }
  split; [exact nfkd_sample_ascii|]. split; [discriminate|]. split; [exact Hw|].
  exact (slugify_joins_words (H := sample_unicode) [lit "my"; lit "note_2"; lit "x"]
           nfkd_sample_ascii ltac:(discriminate) Hw).
Defined.

(** ** Front matter *)

Lemma startswith_true sub s : startswith sub s = true -> exists t, s = sub ++ t.
Proof.
  unfold startswith, str_eqb. intros E. apply bool_decide_eq_true_1 in E.
  exists (skipn (length sub) s). rewrite <- E at 1. symmetry. apply firstn_skipn.
Qed.

Lemma startswith_prefix sub t : startswith sub (sub ++ t) = true.
Proof.
  unfold startswith, str_eqb. apply bool_decide_eq_true_2.
  rewrite firstn_app, Nat.sub_diag, firstn_all. simpl. apply app_nil_r.
Qed.

Lemma startswith_app sub s t :
  length sub <= length s -> startswith sub (s ++ t) = startswith sub s.
Proof.
  intros Hlen. unfold startswith. rewrite firstn_app.
  replace (length sub - length s) with 0 by lia. simpl. rewrite app_nil_r. reflexivity.
Qed.

Lemma find_str_fits sub s i : find_str sub s = Some i -> i + length sub <= length s.
Proof.
  revert i. induction s as [|c s IH]; intros i; simpl.
  - destruct (startswith sub []) eqn:E; [|discriminate].
    intros [= <-]. apply startswith_true in E as [t E].
    destruct sub; [simpl; lia | discriminate].
  - destruct (startswith sub (c :: s)) eqn:E.
    + intros [= <-]. apply startswith_true in E as [t E].
      apply (f_equal (@length N)) in E. rewrite length_app in E. simpl in *. lia.
    + destruct (find_str sub s) as [j|]; [|discriminate].
      intros [= <-]. specialize (IH j eq_refl). simpl in *. lia.
Qed.

(** The first occurrence in a text is the first occurrence in any text that
    extends it. *)
Lemma find_str_app sub s t i : find_str sub s = Some i -> find_str sub (s ++ t) = Some i.
Proof.
  revert i. induction s as [|c s IH]; intros i.
  - simpl. destruct (startswith sub []) eqn:E; [|discriminate].
    intros [= <-]. apply startswith_true in E as [u E].
    destruct sub; [|discriminate]. destruct t; reflexivity.
  - simpl. destruct (startswith sub (c :: s)) eqn:E.
    + intros [= <-]. apply startswith_true in E as [u E].
      change (c :: s ++ t) with ((c :: s) ++ t). rewrite E, <- app_assoc, startswith_prefix.
      reflexivity.
    + destruct (find_str sub s) as [j|] eqn:Ej; [|discriminate].
      intros [= <-]. pose proof (find_str_fits _ _ _ Ej) as Hfit.
      change (c :: s ++ t) with ((c :: s) ++ t).
      rewrite startswith_app by (simpl; lia). rewrite E, (IH j eq_refl). reflexivity.
Qed.

Section FrontMatterFacts.
Context `{Yaml}.

Lemma extract_split (block body : str) (md : metadata) :
  find_str ([NL] ++ lit "---" ++ [NL]) (block ++ [NL] ++ lit "---" ++ [NL])
  = Some (length block) ->
  yaml_safe_load block = Some md ->
  extract_yaml_frontmatter
    (lit "---" ++ [NL] ++ block ++ ([NL] ++ lit "---" ++ [NL]) ++ body)
  = (md, body).
Proof.
  intros Hfind Hload.
  assert (Hs : forall x, startswith (lit "---" ++ [NL]) (lit "---" ++ [NL] ++ x) = true)
    by (intros; reflexivity).
  assert (Hk : forall x, skipn 4 (lit "---" ++ [NL] ++ x) = x) by reflexivity.
  unfold extract_yaml_frontmatter. rewrite Hs. unfold index_from. rewrite Hk.
  set (delim := [NL] ++ lit "---" ++ [NL]) in *.
  assert (Hd : length (block ++ delim) = length block + 5)
    by (rewrite length_app; reflexivity).
  rewrite (app_assoc block delim body), (find_str_app _ _ body _ Hfind).
  cbn [option_map]. unfold slice. rewrite Hk.
  replace (4 + length block - 4) with (length block) by lia.
  rewrite <- app_assoc, firstn_app, Nat.sub_diag, firstn_all. simpl firstn. rewrite app_nil_r.
  rewrite Hload. f_equal.
  replace (4 + length block + 5) with (length (block ++ delim) + 4) by lia.
  rewrite <- skipn_skipn, Hk, app_assoc, skipn_app, Nat.sub_diag, skipn_all. reflexivity.
Qed.

Lemma extract_body_suffix (content : str) :
  exists front, content = front ++ snd (extract_yaml_frontmatter content).
Proof.
  unfold extract_yaml_frontmatter.
  destruct (startswith _ content); [|exists []; reflexivity].
  destruct (index_from _ content 4) as [e|]; [|exists []; reflexivity].
  destruct (yaml_safe_load _) as [md|]; [|exists []; reflexivity].
  exists (firstn (e + 5) content). symmetry. apply firstn_skipn.
Qed.
End FrontMatterFacts.

(** X3: a note that opens with a delimiter line, a block that parses and
    holds no delimiter line before the one that closes it, gives the parsed
    metadata and, as body, exactly the text after the closing delimiter
    line. *)
Theorem extract_yaml_frontmatter_splits `{Yaml} (block body : str) (md : metadata)
    (first_delimiter :
       find_str ([NL] ++ lit "---" ++ [NL]) (block ++ [NL] ++ lit "---" ++ [NL])
       = Some (length block))
    (parses : yaml_safe_load block = Some md) :
  extract_yaml_frontmatter
    (lit "---" ++ [NL] ++ block ++ ([NL] ++ lit "---" ++ [NL]) ++ body)
  = (md, body).
Proof. apply extract_split; assumption. Qed.

Lemma extract_yaml_frontmatter_splits_witness :
  find_str ([NL] ++ lit "---" ++ [NL]) (lit "tags: [important]" ++ [NL] ++ lit "---" ++ [NL])
  = Some (length (lit "tags: [important]"))
  /\ yaml_safe_load (lit "tags: [important]")
     = Some (Some [(lit "tags", PList [PStr (lit "important")])])
  /\ extract_yaml_frontmatter
       (text_of_lines ["---"; "tags: [important]"; "---"; "# My Project"]%string)
     = (Some [(lit "tags", PList [PStr (lit "important")])], lit "# My Project").
Proof.
  split; [vm_compute; reflexivity|]. split; [vm_compute; reflexivity|].
  exact (extract_yaml_frontmatter_splits (H := sample_yaml)
           (lit "tags: [important]") (lit "# My Project") _
           ltac:(vm_compute; reflexivity) ltac:(vm_compute; reflexivity)).
Defined.

(** X4: an empty front matter is not recognised.  The closing delimiter is
    searched from index 4, past the line feed it would have to start with;
    when the text has no later delimiter line, the metadata is empty and the
    body is the whole text, its two delimiter lines included, and the parser
    is not consulted. *)
Theorem extract_yaml_frontmatter_empty_block `{Yaml} (body : str)
    (no_later_delimiter :
       contains ([NL] ++ lit "---" ++ [NL]) (lit "---" ++ [NL] ++ body) = false) :
  extract_yaml_frontmatter (lit "---" ++ [NL] ++ lit "---" ++ [NL] ++ body)
  = (Some [], lit "---" ++ [NL] ++ lit "---" ++ [NL] ++ body).
Proof.
  assert (Hs : forall x, startswith (lit "---" ++ [NL]) (lit "---" ++ [NL] ++ x) = true)
    by (intros; reflexivity).
  assert (Hk : forall x, skipn 4 (lit "---" ++ [NL] ++ x) = x) by reflexivity.
  unfold extract_yaml_frontmatter. rewrite Hs. unfold index_from. rewrite Hk.
  unfold contains in no_later_delimiter.
  destruct (find_str _ (lit "---" ++ [NL] ++ body)); [discriminate | reflexivity].
Qed.

Lemma extract_yaml_frontmatter_empty_block_witness :
  contains ([NL] ++ lit "---" ++ [NL]) (lit "---" ++ [NL] ++ lit "# Content") = false
  /\ extract_yaml_frontmatter (text_of_lines ["---"; "---"; "# Content"]%string)
     = (Some [], text_of_lines ["---"; "---"; "# Content"]%string).
Proof.
  split; [vm_compute; reflexivity|].
  exact (extract_yaml_frontmatter_empty_block (H := sample_yaml) (lit "# Content")
           ltac:(vm_compute; reflexivity)).
Defined.

(** X5: the body returned is always a final part of the input text: the
    extraction drops a front matter and changes nothing else. *)
Theorem extract_yaml_frontmatter_body_is_suffix `{Yaml} (content : str) :
  exists front, content = front ++ snd (extract_yaml_frontmatter content).
Proof. apply extract_body_suffix. Qed.

(** ** Wiki-links, further *)

Lemma wikilink_pass_md_doc (fm : list (path * str)) (doc : list piece) :
  Forall (fun p => well_formed_piece p = true) doc ->
  re_sub pat_wikilink (replace_link_md fm) (concat (map piece_source doc))
  = concat (map (piece_md fm) doc).
Proof.
  induction 1 as [|p doc Hp _ IH]; [reflexivity|].
  apply well_formed_link_parts in Hp. cbn [concat map].
  destruct p as [s|t|t d]; cbn [piece_source piece_md].
  - rewrite wikilink_pass_text by exact Hp. f_equal. exact IH.
  - destruct Hp as (Hne & Hb & Hn). rewrite <- !app_assoc.
    rewrite wikilink_pass_link; [|exact Hne | apply no_brackets_not_rbrack; exact Hb].
    rewrite IH. f_equal. unfold replace_link_md. rewrite (split_link_one t Hn). reflexivity.
  - destruct Hp as (Hb & Hn & Hd).
    replace ((lit "[[" ++ t ++ lit "|" ++ d ++ lit "]]") ++ concat (map piece_source doc))
      with (lit "[[" ++ (t ++ BAR :: d) ++ lit "]]" ++ concat (map piece_source doc))
      by (rewrite <- !app_assoc; reflexivity).
    rewrite wikilink_pass_link.
    + rewrite IH. f_equal. unfold replace_link_md. rewrite (split_link_two t d Hn). reflexivity.
    + destruct t; discriminate.
    + apply no_brackets_not_rbrack. rewrite no_brackets_app, Hb. simpl. exact Hd.
Qed.

(** X6: for markdown output without link preservation, in a note body made
    of text and wiki-links, every link becomes [display](<resolved>.md), the
    display being the target for the one-part form, and the text in between
    is left as it is; with link preservation the body is returned as it is. *)
Theorem convert_links_markdown cfg (fm : list (path * str)) (doc : list piece)
    (doc_ok : Forall (fun p => well_formed_piece p = true) doc) :
  (preserve_links cfg = false ->
   convert_links cfg fm (concat (map piece_source doc)) false
   = concat (map (piece_md fm) doc))
  /\ (preserve_links cfg = true ->
      convert_links cfg fm (concat (map piece_source doc)) false
      = concat (map piece_source doc)).
Proof.
  split; intros Hp; unfold convert_links; rewrite Hp; simpl; [|reflexivity].
  apply wikilink_pass_md_doc. exact doc_ok.
Qed.

Lemma convert_links_markdown_witness :
  Forall (fun p => well_formed_piece p = true) sample_doc
  /\ convert_links {| output_format := Md; preserve_links := false;
                      assets_handling := AssetsCopy; assets_dir := lit "assets" |}
       sample_mapping (lit "See [[my-note]], [a](b) and [[another note|description]].") false
     = lit "See [my-note](20240115T103000--my-note__tag1.md), [a](b) and [description](another note.md).".
Proof.
  split; [repeat constructor|].
  exact (proj1 (convert_links_markdown
                  {| output_format := Md; preserve_links := false;
                     assets_handling := AssetsCopy; assets_dir := lit "assets" |}
                  sample_mapping sample_doc ltac:(repeat constructor)) eq_refl).
Defined.

(** X7: a text without wiki-links (no two opening brackets in a row, no
    opening bracket at its end) goes through [convert_links] unchanged, for
    either output and any file mapping. *)
Theorem convert_links_keeps_plain_text cfg (fm : list (path * str)) (s : str) (is_org : bool)
    (plain : plain_text s = true) :
  convert_links cfg fm s is_org = s.
Proof.
  unfold convert_links.
  pose proof (wikilink_pass_text (replace_link_org fm) s [] plain) as E1.
  pose proof (wikilink_pass_text (replace_link_md fm) s [] plain) as E2.
  pose proof (embed_pass_text replace_embed s [] plain embed_blocked_nil) as E3.
  rewrite app_nil_r in E1, E2, E3. rewrite re_sub_nil, app_nil_r in E1, E2, E3.
  destruct is_org; [rewrite E1; exact E3|].
  destruct (preserve_links cfg); simpl; [reflexivity | exact E2].
Qed.

Lemma convert_links_keeps_plain_text_witness :
  plain_text (lit "- [x] done, see [docs](https://example.org) ![alt](a.png)") = true
  /\ convert_links default_config sample_mapping
       (lit "- [x] done, see [docs](https://example.org) ![alt](a.png)") true
     = lit "- [x] done, see [docs](https://example.org) ![alt](a.png)".
Proof.
  split; [reflexivity|].
  exact (convert_links_keeps_plain_text default_config sample_mapping
           (lit "- [x] done, see [docs](https://example.org) ![alt](a.png)") true eq_refl).
Defined.

(** X8: how the asset pass and the link pass compose for org output.  The
    asset pass writes a found asset as [[file:<path>]]; the wiki-link
    pattern matches that text too, so [convert_links] turns it into a link
    to a note named file:<path>: [[file:file:<path>.org][file:<path>]]. *)
Theorem convert_links_rewrites_asset_link cfg (fm : list (path * str)) (p : str)
    (path_shape : no_brackets p = true /\ no_bar p = true)
    (unmapped : Forall (fun e => path_stem (fst e) <> lit "file:" ++ p) fm) :
  convert_links cfg fm (lit "[[file:" ++ p ++ lit "]]") true
  = lit "[[file:file:" ++ p ++ lit ".org][file:" ++ p ++ lit "]]".
Proof.
  destruct path_shape as [Hb Hn]. unfold convert_links.
  assert (Hb' : no_brackets (lit "file:" ++ p) = true)
    by (rewrite no_brackets_app, Hb; reflexivity).
  assert (Hn' : no_bar (lit "file:" ++ p) = true).
  { unfold no_bar. rewrite forallb_app. fold (no_bar p). rewrite Hn. reflexivity. }
  pose proof (wikilink_pass_link (replace_link_org fm) (lit "file:" ++ p) []
                ltac:(discriminate) (no_brackets_not_rbrack _ Hb')) as E1.
  rewrite app_nil_r in E1.
  replace (lit "[[file:" ++ p ++ lit "]]") with (lit "[[" ++ (lit "file:" ++ p) ++ lit "]]")
    by reflexivity.
  rewrite E1, re_sub_nil, app_nil_r.
  unfold replace_link_org. rewrite (split_link_one _ Hn'), (resolve_link_unmapped _ _ unmapped).
  pose proof (embed_pass_org_link replace_embed (lit "file:" ++ p) (lit "file:" ++ p) []
                Hb' Hb') as E2.
  rewrite re_sub_nil, !app_nil_r in E2. rewrite E2.
  rewrite <- !app_assoc. reflexivity.
Qed.

Lemma convert_links_rewrites_asset_link_witness :
  (no_brackets (lit "assets/diagram_c2ad0288.png") = true
   /\ no_bar (lit "assets/diagram_c2ad0288.png") = true)
  /\ Forall (fun e => path_stem (fst e) <> lit "file:" ++ lit "assets/diagram_c2ad0288.png")
       sample_mapping
  /\ convert_links default_config sample_mapping (lit "[[file:assets/diagram_c2ad0288.png]]") true
     = lit "[[file:file:assets/diagram_c2ad0288.png.org][file:assets/diagram_c2ad0288.png]]".
Proof.
  assert (Hu : Forall (fun e => path_stem (fst e) <> lit "file:" ++ lit "assets/diagram_c2ad0288.png")
                 sample_mapping).
  { repeat constructor. vm_compute. discriminate. }
  split; [split; reflexivity|]. split; [exact Hu|].
  exact (convert_links_rewrites_asset_link default_config sample_mapping
           (lit "assets/diagram_c2ad0288.png") (conj eq_refl eq_refl) Hu).
Defined.

(** ** Titles, tags and file names, further *)

Lemma findall_scan_Forall (P : str -> Prop) (m : matcher) :
  (forall s g n, m s = Some (g, n) -> P g) ->
  forall s k, Forall P (findall_scan m k s).
Proof.
  intros Hm s. induction s as [|c t IH]; intros k; simpl; [constructor|].
  destruct k; [|apply IH].
  destruct (m (c :: t)) as [[g n]|] eqn:E; [|apply IH].
  constructor; [eapply Hm; eassumption | apply IH].
Qed.

Section TitleFacts.
Context `{Unicode} `{PyRuntime}.



Lemma title_of_metadata p md content v :
  md_get (lit "title") md = Some v -> py_truthy v = true ->
  py_str v <> path_stem p -> py_str v <> [] ->
  title_of p md content = py_str v.
Proof.
  intros Hget Htrue Hstem Hne. unfold title_of, metadata_title.
  rewrite (md_get_truthy _ _ _ Hget), Hget, Htrue.
  unfold str_eqb. rewrite bool_decide_eq_false_2 by exact Hstem. simpl.
  destruct (py_str v); [congruence | reflexivity].
Qed.


Lemma inline_tags_shape content :
  Forall (fun t => t <> [] /\ Forall (fun c => re_word c = true) t)
    (re_findall pat_inline_tag content).
Proof.
  apply findall_scan_Forall. intros s g n. unfold pat_inline_tag.
  destruct s as [|c t]; [discriminate|]. destruct (c =? HASH)%N; [|discriminate].
  destruct (run_of re_word t) as [|x r] eqn:E; [discriminate|].
  intros [= <- _]. split; [discriminate|]. rewrite <- E. apply run_of_all.
Qed.
End TitleFacts.

(** X9: a title of the metadata that is not empty and is not the stem of
    the file name is the title of the note, whatever the aliases and the
    body. *)
Theorem title_of_prefers_metadata_title `{Unicode} `{PyRuntime}
    (p : path) (md : metadata) (content : str) (v : pyval)
    (has_title : md_get (lit "title") md = Some v)
    (title_truthy : py_truthy v = true)
    (title_shape : py_str v <> path_stem p /\ py_str v <> []) :
  title_of p md content = py_str v.
Proof. destruct title_shape. apply title_of_metadata; assumption. Qed.

Lemma title_of_prefers_metadata_title_witness :
  md_get (lit "title") (Some [(lit "title", PStr (lit "Index")); (lit "aliases", PStr (lit "Home"))])
  = Some (PStr (lit "Index"))
  /\ title_of (vault_file "index.md")
       (Some [(lit "title", PStr (lit "Index")); (lit "aliases", PStr (lit "Home"))])
       (lit "# Heading")
     = lit "Index".
Proof.
  split; [reflexivity|].
  apply (title_of_prefers_metadata_title (vault_file "index.md")
           (Some [(lit "title", PStr (lit "Index")); (lit "aliases", PStr (lit "Home"))])
           (lit "# Heading") (PStr (lit "Index")));
    [reflexivity | reflexivity | split; vm_compute; discriminate].
Defined.



Lemma no_tag_start_none `{Unicode} (content : str) :
  no_tag_start content = true -> re_findall pat_inline_tag content = [].
Proof.
  unfold re_findall. induction content as [|c t IH]; [reflexivity|].
  cbn [no_tag_start findall_scan]. intros Hc. apply andb_true_iff in Hc as [Hhead Ht].
  assert (Hno : pat_inline_tag (c :: t) = None).
  { unfold pat_inline_tag. destruct (c =? HASH)%N; [|reflexivity].
    destruct t as [|x r]; [reflexivity|]. cbn [run_of].
    destruct (re_word x); [discriminate | reflexivity]. }
  rewrite Hno. exact (IH Ht).
Qed.

(** X11: every inline tag found in the body is a non-empty run of word
    characters, and a body in which no number sign is directly followed by a
    word character, as one whose number signs are all heading markers
    followed by a space, gives none. *)
Theorem inline_tags_are_words `{Unicode} (content : str) :
  Forall (fun t => t <> [] /\ Forall (fun c => re_word c = true) t)
    (re_findall pat_inline_tag content)
  /\ (no_tag_start content = true -> re_findall pat_inline_tag content = []).
Proof. split; [apply inline_tags_shape | apply no_tag_start_none]. Qed.

Lemma inline_tags_are_words_witness :
  re_findall pat_inline_tag (text_of_lines ["# Release"; "## Notes"; "a # b"]%string) = [].
Proof.
  exact (proj2 (@inline_tags_are_words sample_unicode
                  (text_of_lines ["# Release"; "## Notes"; "a # b"]%string))
           ltac:(vm_compute; reflexivity)).
Defined.

(** A heading that carries a tag gives that tag; headings alone give none. *)
Example inline_tags_of_headings :
  re_findall pat_inline_tag (lit "# Release #v2 notes") = [lit "v2"]
  /\ re_findall pat_inline_tag (text_of_lines ["# Release"; "## Notes"; "a # b"]%string) = [].
Proof. split; vm_compute; reflexivity. Qed.

(** ** Generated names as paths *)

Lemma split_on_single (sep : char) (s : str) :
  Forall (fun c => c <> sep) s -> split_on sep s = [s].
Proof.
  induction 1 as [|c t Hc _ IH]; [reflexivity|].
  simpl. destruct (N.eqb_spec c sep); [contradiction|]. rewrite IH. reflexivity.
Qed.

Lemma path_of_str_single (s : str) :
  Forall (fun c => c <> SLASH) s -> s <> [] -> s <> [DOT] ->
  path_of_str s = {| absolute := false; parts := [s] |}.
Proof.
  intros Hs Hne Hdot. unfold path_of_str. rewrite (split_on_single SLASH s Hs).
  cbn [List.filter]. unfold str_eqb.
  rewrite !bool_decide_eq_false_2 by assumption. simpl. f_equal.
  destruct s as [|c t]; [congruence|]. inversion Hs as [|? ? Hc _]; subst.
  unfold startswith, str_eqb. simpl. apply bool_decide_eq_false_2. congruence.
Qed.

Lemma name_stem_ext (n e : str) :
  n <> [] -> e <> [] -> Forall (fun c => not_dot c = true) e ->
  name_stem (n ++ DOT :: e) = n.
Proof.
  intros Hn He Hd. unfold name_stem.
  replace (rev (n ++ DOT :: e)) with (rev e ++ DOT :: rev n)
    by (rewrite rev_app_distr; simpl; rewrite <- app_assoc; reflexivity).
  assert (Hr : Forall (fun c => not_dot c = true) (rev e)).
  { apply List.Forall_forall. intros c Hc. apply in_rev in Hc.
    rewrite List.Forall_forall in Hd. apply Hd. exact Hc. }
  destruct (run_of_app_stop not_dot (rev e) DOT (rev n) Hr eq_refl) as [-> ->].
  destruct (rev n) as [|x r] eqn:En.
  { apply (f_equal (@rev N)) in En. rewrite rev_involutive in En. simpl in En. congruence. }
  destruct (rev e) as [|y r'] eqn:Ee.
  { apply (f_equal (@rev N)) in Ee. rewrite rev_involutive in Ee. simpl in Ee. congruence. }
  rewrite <- En. apply rev_involutive.
Qed.

Lemma file_char_facts c :
  file_char c = true ->
  c <> SLASH /\ c <> DOT /\ negb ((c =? LBRACK)%N || (c =? RBRACK)%N) = true.
Proof. unfold file_char. intros Hc. repeat split; char_solve. Qed.

Lemma slug_char_file_char c : slug_char c = true -> file_char c = true.
Proof. unfold file_char. intros Hc. char_solve. Qed.

Section NameShape.
Context `{Unicode} `{PyRuntime} `{Clock} `{!FileSystem}.

Lemma slugify_file_chars text : Forall (fun c => file_char c = true) (slugify text).
Proof.
  destruct (slugify_shape text) as [_ Hc _ _ _].
  eapply List.Forall_impl; [|exact Hc]. apply slug_char_file_char.
Qed.

Lemma joined_slugs_file_chars (tags : list str) :
  Forall (fun c => file_char c = true)
    (join (lit "_") (map (fun tag => slugify (Some tag)) tags)).
Proof.
  induction tags as [|t ts IH]; [constructor|].
  cbn [map]. destruct ts as [|t' ts'].
  - apply slugify_file_chars.
  - change (join (lit "_") (slugify (Some t) :: map (fun tag => slugify (Some tag)) (t' :: ts')))
      with (slugify (Some t) ++ lit "_"
              ++ join (lit "_") (map (fun tag => slugify (Some tag)) (t' :: ts'))).
    apply Forall_app. split; [apply slugify_file_chars|].
    apply Forall_app. split; [repeat constructor | exact IH].
Qed.

Lemma generated_equation cfg p md content filename title tags created :
  generate_denote_filename cfg p md content = Some (filename, title, tags, created) ->
  filename
  = (strftime_stamp created ++ lit "--" ++ slugify (Some title)
       ++ (if nonempty tags
           then lit "__" ++ join (lit "_") (map (fun tag => slugify (Some tag)) tags)
           else []))
    ++ extension_of cfg.
Proof.
  unfold generate_denote_filename. destruct (stat_mtime p) as [mtime|]; [|discriminate].
  intros [= <- <- <- <-]. rewrite <- !app_assoc. reflexivity.
Qed.

(** The name without its extension. *)
Lemma generated_name cfg p md content filename title tags created :
  generate_denote_filename cfg p md content = Some (filename, title, tags, created) ->
  Forall (fun c => ascii_alnum c = true) (strftime_stamp created) ->
  exists name,
    filename = name ++ extension_of cfg /\ name <> []
    /\ Forall (fun c => file_char c = true) name.
Proof.
  intros Hgen Hstamp. apply generated_equation in Hgen.
  eexists. split; [exact Hgen|]. split.
  - intros E. apply (f_equal (@length N)) in E. rewrite !length_app in E.
    change (length (lit "--")) with 2 in E. simpl in E. lia.
  - apply Forall_app. split.
    + eapply List.Forall_impl; [|exact Hstamp]. intros c Hc. unfold file_char. rewrite Hc. reflexivity.
    + apply Forall_app. split; [repeat constructor|].
      apply Forall_app. split; [apply slugify_file_chars|].
      destruct (nonempty tags); [|constructor].
      apply Forall_app. split; [repeat constructor | apply joined_slugs_file_chars].
Qed.

Lemma generated_path cfg name :
  name <> [] -> Forall (fun c => file_char c = true) name ->
  path_of_str (name ++ extension_of cfg)
  = {| absolute := false; parts := [name ++ extension_of cfg] |}
  /\ path_stem (path_of_str (name ++ extension_of cfg)) = name
  /\ no_brackets name = true.
Proof.
  intros Hne Hchars.
  assert (Hs : Forall (fun c => c <> SLASH) (name ++ extension_of cfg)).
  { apply Forall_app. split.
    - eapply List.Forall_impl; [|exact Hchars]. intros c Hc. apply file_char_facts. exact Hc.
    - unfold extension_of. destruct (output_format cfg); repeat constructor; discriminate. }
  assert (Hp : path_of_str (name ++ extension_of cfg)
               = {| absolute := false; parts := [name ++ extension_of cfg] |}).
  { apply path_of_str_single; [exact Hs| |].
    - destruct name; [congruence | discriminate].
    - destruct name as [|c [|c' t]]; [congruence| |discriminate].
      unfold extension_of. destruct (output_format cfg); discriminate. }
  split; [exact Hp|]. split.
  - rewrite Hp. unfold path_stem, path_name. cbn [parts List.last].
    unfold extension_of. destruct (output_format cfg);
      apply name_stem_ext; try assumption; try discriminate; repeat constructor.
  - unfold no_brackets. apply forallb_forall. intros c Hc.
    rewrite List.Forall_forall in Hchars. apply file_char_facts, Hchars, Hc.
Qed.
End NameShape.

(** X12: when the time stamp is made of letters and digits, the file name
    generated is a single path component (no slash), its stem as a path is
    the name without the extension, and that stem holds no bracket: the file
    mapping built from generated names is always one [convert_links] can
    resolve against. *)
Theorem generated_filename_is_component
    `{Unicode} `{PyRuntime} `{Clock} `{!FileSystem}
    (cfg : config) (p : path) (md : metadata) (content : str)
    (filename title : str) (tags : list str) (created : datetime)
    (generated : generate_denote_filename cfg p md content
                 = Some (filename, title, tags, created))
    (stamp_alnum : Forall (fun c => ascii_alnum c = true) (strftime_stamp created)) :
  path_of_str filename = {| absolute := false; parts := [filename] |}
  /\ path_stem (path_of_str filename) ++ extension_of cfg = filename
  /\ no_brackets (path_stem (path_of_str filename)) = true
  /\ bracket_free_mapping [(p, filename)] = true.
Proof.
  destruct (generated_name cfg p md content filename title tags created generated stamp_alnum)
    as (name & -> & Hne & Hchars).
  destruct (generated_path cfg name Hne Hchars) as (Hp & Hstem & Hb).
  split; [exact Hp|]. rewrite Hstem. split; [reflexivity|]. split; [exact Hb|].
  unfold bracket_free_mapping. cbn [forallb snd]. rewrite Hstem, Hb. reflexivity.
Qed.

Lemma generated_filename_is_component_witness :
  generate_denote_filename default_config (vault_file "test.md")
    (Some [(lit "title", PStr (lit "Test Note")); (lit "tags", PStr (lit "a.b/c"))]) []
  = Some (lit "20240115T103000--test-note__abc.org", lit "Test Note", [lit "a.b/c"],
          lit "20240115T103000")
  /\ path_stem (path_of_str (lit "20240115T103000--test-note__abc.org")) ++ lit ".org"
     = lit "20240115T103000--test-note__abc.org".
Proof.
  split; [vm_compute; reflexivity|].
  exact (proj1 (proj2 (@generated_filename_is_component
                         sample_unicode sample_runtime sample_clock sample_fs
                         default_config (vault_file "test.md")
                         (Some [(lit "title", PStr (lit "Test Note"));
                                (lit "tags", PStr (lit "a.b/c"))]) []
                         _ _ _ _ ltac:(vm_compute; reflexivity) ltac:(repeat constructor)))).
Defined.

(** ** What a conversion writes *)

Lemma keeps_ret {A B} (component : state -> B) (a : A) : keeps component (ret a).
Proof. intros st. reflexivity. Qed.

Lemma keeps_raise {A B} (component : state -> B) (e : exn) : keeps component (@raise A e).
Proof. intros st. reflexivity. Qed.

Lemma keeps_get {B} (component : state -> B) : keeps component get.
Proof. intros st. reflexivity. Qed.

Lemma keeps_modify {B} (component : state -> B) (f : state -> state) :
  (forall st, component (f st) = component st) -> keeps component (modify f).
Proof. intros Hf st. apply Hf. Qed.

Lemma keeps_bind {A B C} (component : state -> C) (c : M A) (k : A -> M B) :
  keeps component c -> (forall a, keeps component (k a)) -> keeps component (bind c k).
Proof.
  intros Hc Hk st. unfold bind. specialize (Hc st).
  destruct (c st) as [st1 [a|e]]; simpl in *; [|exact Hc].
  rewrite (Hk a st1). exact Hc.
Qed.

Lemma keeps_of_option {A B} (component : state -> B) (e : exn) (o : option A) :
  keeps component (of_option e o).
Proof. destruct o; [apply keeps_ret | apply keeps_raise]. Qed.

Ltac keeps_step :=
  first
    [ apply keeps_ret | apply keeps_raise | apply keeps_get | apply keeps_of_option
    | apply keeps_modify; intros; reflexivity
    | apply keeps_bind; [|intros]
    | match goal with
      | |- keeps _ (match ?x with _ => _ end) => destruct x
      | |- keeps _ (if ?b then _ else _) => destruct b
      end ].

Ltac keeps_using lem := repeat first [apply lem | keeps_step].

Section ConvertFacts.
Context `{Unicode} `{PyRuntime} `{Yaml} `{Clock} `{!FileSystem} `{Hashing}.

Lemma keeps_written_copy_asset cfg a o : keeps written (copy_asset cfg a o).
Proof. unfold copy_asset, shutil_copy2. repeat keeps_step. Qed.

Lemma keeps_mapping_copy_asset cfg a o : keeps file_mapping (copy_asset cfg a o).
Proof. unfold copy_asset, shutil_copy2. repeat keeps_step. Qed.

Lemma keeps_make_dir {B} (component : state -> B) p : keeps component (make_dir p).
Proof. unfold make_dir. repeat keeps_step. Qed.

Lemma keeps_make_dirs {B} (component : state -> B) p : keeps component (make_dirs p).
Proof. unfold make_dirs. repeat keeps_step. Qed.

Lemma keeps_sub_scan_m {B} (component : state -> B) (m : gmatcher)
    (f : str -> list str -> M str) :
  (forall w g, keeps component (f w g)) ->
  forall s prev skip, keeps component (sub_scan_m m f prev skip s).
Proof.
  intros Hf s. induction s as [|c t IH]; intros prev skip; simpl; [apply keeps_ret|].
  destruct skip; [|apply IH].
  destruct (m prev (c :: t)) as [[groups n]|]; repeat keeps_step; auto.
Qed.

Lemma keeps_process_assets {B} (component : state -> B) cfg source_dir output_dir is_org content :
  (forall a o, keeps component (copy_asset cfg a o)) ->
  keeps component (process_assets cfg source_dir output_dir is_org content).
Proof.
  intros Hcopy. unfold process_assets.
  assert (He : forall w g, keeps component (process_embed cfg source_dir output_dir is_org w g)).
  { intros w g. unfold process_embed. keeps_using Hcopy. }
  assert (Hi : forall w g, keeps component (process_md_image cfg source_dir output_dir is_org w g)).
  { intros w g. unfold process_md_image. keeps_using Hcopy. }
  assert (Ha : forall w g, keeps component (process_attachment cfg source_dir output_dir is_org w g)).
  { intros w g. unfold process_attachment. keeps_using Hcopy. }
  destruct (assets_handling cfg); [| |apply keeps_ret];
    (apply keeps_bind; [first [apply keeps_make_dir | apply keeps_ret] | intros];
     apply keeps_bind; [apply keeps_sub_scan_m; assumption | intros];
     apply keeps_bind; [apply keeps_sub_scan_m; assumption | intros];
     apply keeps_sub_scan_m; assumption).
Qed.

(** What [convert_file] leaves behind: when it returns, one more file, at
    the path returned, and the name returned entered in the file mapping for
    the input path; when it raises, no file. *)
Lemma convert_file_effect cfg input_path output_dir relative_path preserve_structure st :
  match convert_file cfg input_path output_dir relative_path preserve_structure st with
  | (st', Ok (denote_filename, output_path)) =>
      output_path = output_path_of output_dir relative_path preserve_structure denote_filename
      /\ (exists text, written st' = written st ++ [(output_path, text)])
      /\ file_mapping st' = dict_set input_path denote_filename (file_mapping st)
      /\ exists md content title tags created,
           generate_denote_filename cfg input_path md content
           = Some (denote_filename, title, tags, created)
  | (st', Raise _) => written st' = written st
  end.
Proof.
  unfold convert_file, read_file, write_file, make_dirs, bind, of_option, get, modify,
    ret, raise.
  destruct (read_text input_path) as [content|]; [|reflexivity].
  destruct (extract_yaml_frontmatter content) as [md remaining].
  pose proof (keeps_process_assets written cfg (path_parent input_path) output_dir
                match output_format cfg with Org => true | Md => false end remaining
                (keeps_written_copy_asset cfg) st) as Hw.
  pose proof (keeps_process_assets file_mapping cfg (path_parent input_path) output_dir
                match output_format cfg with Org => true | Md => false end remaining
                (keeps_mapping_copy_asset cfg) st) as Hm.
  destruct (process_assets cfg _ output_dir _ remaining st) as [st1 [remaining'|e]];
    simpl in Hw, Hm; [|exact Hw].
  destruct (generate_denote_filename cfg input_path md remaining')
    as [[[[denote_filename title] tags] created_time]|] eqn:Hgen; [|exact Hw].
  cbn [fst snd].
  destruct relative_path as [rel|];
    [destruct preserve_structure;
     [destruct (mkdir_parents (path_join output_dir (path_parent rel)));
      [|simpl; exact Hw]|]|];
    (match goal with |- context [can_write ?p] => destruct (can_write p) end;
     [|simpl; exact Hw];
     simpl; rewrite Hw, Hm;
     split; [reflexivity|];
     split; [eexists; reflexivity|];
     split; [reflexivity|]; eauto 6).
Qed.

(** The reading the walker does for the folder tags changes nothing. *)
Lemma convert_one_cases cfg input_dir output_dir preserve_structure add_folder_tags md_file st :
  (exists e, convert_one cfg input_dir output_dir preserve_structure add_folder_tags md_file st
             = (st, Raise e))
  \/ (exists rel,
        path_relative_to md_file input_dir = Some rel
        /\ convert_one cfg input_dir output_dir preserve_structure add_folder_tags md_file st
           = convert_file cfg md_file output_dir (Some rel) preserve_structure st).
Proof.
  unfold convert_one, read_file, bind, of_option, of_outcome, ret, raise.
  destruct (path_relative_to md_file input_dir) as [rel|]; [|left; eexists; reflexivity].
  destruct (add_folder_tags && negb (path_eqb (path_parent rel) here));
    [|right; exists rel; split; reflexivity].
  destruct (read_text md_file) as [content|]; [|left; eexists; reflexivity].
  destruct (extract_yaml_frontmatter content) as [md remaining].
  destruct (with_folder_tags md _);
    [right; exists rel; split; reflexivity | left; eexists; reflexivity].
Qed.

Lemma convert_one_effect cfg input_dir output_dir preserve_structure add_folder_tags md_file st :
  match convert_one cfg input_dir output_dir preserve_structure add_folder_tags md_file st with
  | (st', Ok (denote_filename, output_path)) =>
      exists text, written st' = written st ++ [(output_path, text)]
  | (st', Raise _) => written st' = written st
  end.
Proof.
  destruct (convert_one_cases cfg input_dir output_dir preserve_structure add_folder_tags
              md_file st) as [[e ->]|(rel & _ & ->)]; [reflexivity|].
  pose proof (convert_file_effect cfg md_file output_dir (Some rel) preserve_structure st) as He.
  destruct (convert_file cfg md_file output_dir (Some rel) preserve_structure st)
    as [st' [[f op]|e]]; [|exact He].
  destruct He as (_ & Hw & _). exact Hw.
Qed.

Lemma convert_each_written cfg input_dir output_dir preserve_structure add_folder_tags
    (md_files : list path) :
  forall (converted_files : list (path * path)) (st : state),
  exists (st' : state) (result new : list (path * path)) (files : list (path * str)),
    convert_each cfg input_dir output_dir preserve_structure add_folder_tags
      md_files converted_files st = (st', Ok result)
    /\ result = converted_files ++ new
    /\ written st' = written st ++ files
    /\ map fst files = map snd new.
Proof.
  induction md_files as [|f rest IH]; intros conv st.
  - exists st, conv, [], []. simpl. rewrite !app_nil_r. repeat split; reflexivity.
  - cbn [convert_each].
    pose proof (convert_one_effect cfg input_dir output_dir preserve_structure
                  add_folder_tags f st) as He.
    destruct (convert_one cfg input_dir output_dir preserve_structure add_folder_tags f st)
      as [st1 [[new_filename output_file_path]|e]].
    + destruct He as [text Hw].
      destruct (IH (conv ++ [(f, output_file_path)])
                   (log_event (Converted f new_filename) st1))
        as (st' & result & new & files & Hrun & Hres & Hwr & Hmap).
      exists st', result, ((f, output_file_path) :: new), ((output_file_path, text) :: files).
      split; [exact Hrun|]. split; [rewrite Hres, <- app_assoc; reflexivity|].
      split; [|simpl; f_equal; exact Hmap].
      rewrite Hwr. simpl. rewrite Hw, <- app_assoc. reflexivity.
    + destruct (IH conv (log_event (Failed f e) st1))
        as (st' & result & new & files & Hrun & Hres & Hwr & Hmap).
      exists st', result, new, files.
      split; [exact Hrun|]. split; [exact Hres|]. split; [|exact Hmap].
      rewrite Hwr. simpl. rewrite He. reflexivity.
Qed.
End ConvertFacts.

Lemma path_join_component (dir : path) (name : str) :
  path_parent (path_join dir {| absolute := false; parts := [name] |}) = dir
  /\ path_name (path_join dir {| absolute := false; parts := [name] |}) = name.
Proof.
  destruct dir as [a ps]. unfold path_join, path_parent, path_name. cbn [absolute parts].
  rewrite removelast_last, last_last. split; reflexivity.
Qed.

(** X13: when [convert_file] returns, it has written one file, the last of
    the files written, at the path it returns; that path is the output
    directory (with the folder of the note when the structure is preserved)
    joined with the name it returns, and the file mapping holds that name
    for the input path. *)
Theorem convert_file_writes_one_file
    `{Unicode} `{PyRuntime} `{Yaml} `{Clock} `{!FileSystem} `{Hashing}
    (cfg : config) (input_path output_dir : path) (relative_path : option path)
    (preserve_structure : bool) (st : state) (denote_filename : str) (output_path : path)
    (returned : snd (convert_file cfg input_path output_dir relative_path preserve_structure st)
                = Ok (denote_filename, output_path)) :
  let st' := fst (convert_file cfg input_path output_dir relative_path preserve_structure st) in
  output_path = output_path_of output_dir relative_path preserve_structure denote_filename
  /\ (exists text, written st' = written st ++ [(output_path, text)])
  /\ file_mapping st' = dict_set input_path denote_filename (file_mapping st).
Proof.
  pose proof (convert_file_effect cfg input_path output_dir relative_path preserve_structure st)
    as He.
  destruct (convert_file cfg input_path output_dir relative_path preserve_structure st)
    as [st1 [[f op]|e]]; [|discriminate].
  simpl in returned. injection returned as -> ->.
  destruct He as (Hp & Hw & Hm & _). cbn [fst]. auto.
Qed.

Lemma convert_file_writes_one_file_witness :
  let run := convert_file default_config (vault_file "note.md") out None false fresh in
  snd run = Ok (lit "20240115T103000--heading.org",
                path_of_str (lit "out/20240115T103000--heading.org"))
  /\ file_mapping (fst run)
     = dict_set (vault_file "note.md") (lit "20240115T103000--heading.org") [].
Proof.
  split; [vm_compute; reflexivity|].
  exact (proj2 (proj2 (@convert_file_writes_one_file
                         sample_unicode sample_runtime sample_yaml sample_clock sample_fs
                         sample_hashing default_config (vault_file "note.md") out None false
                         fresh (lit "20240115T103000--heading.org")
                         (path_of_str (lit "out/20240115T103000--heading.org"))
                         ltac:(vm_compute; reflexivity)))).
Defined.

(** X14: the loop of a directory run never raises, and the files written
    in it are, in order, the output paths of the pairs it returns: no file
    is written for a note that failed, and none beside the converted notes.
    A write is taken as a whole: it is done or it raises.  The run itself is
    the loop once the output directory is made, and raises without writing
    when it cannot be made. *)
Theorem convert_directory_writes_returned_paths
    `{Unicode} `{PyRuntime} `{Yaml} `{Clock} `{!FileSystem} `{Hashing}
    (cfg : config) (input_dir output_dir : path)
    (preserve_structure add_folder_tags : bool) (st : state) :
  exists (st' : state) (converted_files : list (path * path)) (files : list (path * str)),
    convert_each cfg input_dir output_dir preserve_structure add_folder_tags
      (glob_md input_dir) [] st
    = (st', Ok converted_files)
    /\ written st' = written st ++ files
    /\ map fst files = map snd converted_files
    /\ convert_directory cfg input_dir output_dir preserve_structure add_folder_tags st
       = (if mkdir_parents output_dir then (st', Ok converted_files)
          else (st, Raise (OSError output_dir))).
Proof.
  destruct (convert_each_written cfg input_dir output_dir preserve_structure add_folder_tags
              (glob_md input_dir) [] st)
    as (st' & result & new & files & Hrun & Hres & Hw & Hmap).
  exists st', result, files. subst result.
  split; [exact Hrun|]. split; [exact Hw|]. split; [exact Hmap|].
  unfold convert_directory, make_dirs, bind.
  destruct (mkdir_parents output_dir); [exact Hrun | reflexivity].
Qed.

(** X15: without [preserve_structure], and with time stamps made of letters
    and digits, the file [convert_file] writes lies directly in the output
    directory, whatever the folder of the note, and its name is the name
    returned. *)
Theorem convert_file_flat_output
    `{Unicode} `{PyRuntime} `{Yaml} `{Clock} `{!FileSystem} `{Hashing}
    (cfg : config) (input_path output_dir : path) (relative_path : option path)
    (st : state) (denote_filename : str) (output_path : path)
    (stamps_alnum : forall t, Forall (fun c => ascii_alnum c = true) (strftime_stamp t))
    (returned : snd (convert_file cfg input_path output_dir relative_path false st)
                = Ok (denote_filename, output_path)) :
  path_parent output_path = output_dir /\ path_name output_path = denote_filename.
Proof.
  pose proof (convert_file_effect cfg input_path output_dir relative_path false st) as He.
  destruct (convert_file cfg input_path output_dir relative_path false st)
    as [st1 [[f op]|e]]; [|discriminate].
  simpl in returned. injection returned as -> ->.
  destruct He as (Hp & _ & _ & md & content & title & tags & created & Hgen).
  destruct (generated_name cfg input_path md content denote_filename title tags created
              Hgen (stamps_alnum created)) as (name & -> & Hne & Hchars).
  destruct (generated_path cfg name Hne Hchars) as (Hpath & _).
  assert (Ho : output_path
               = path_join output_dir (path_of_str (name ++ extension_of cfg))).
  { rewrite Hp. destruct relative_path; reflexivity. }
  rewrite Ho, Hpath. apply path_join_component.
Qed.

Lemma convert_file_flat_output_witness :
  path_parent (path_of_str (lit "out/20240115T103000--my-project__important.org")) = out.
Proof.
  exact (proj1 (@convert_file_flat_output
                  sample_unicode sample_runtime sample_yaml still_clock bare_fs
                  sample_hashing default_config (vault_file "projects/my-project.md") out
                  (Some (path_of_str (lit "projects/my-project.md"))) fresh
                  (lit "20240115T103000--my-project__important.org")
                  (path_of_str (lit "out/20240115T103000--my-project__important.org"))
                  ltac:(intros t; repeat constructor) ltac:(vm_compute; reflexivity))).
Defined.

(** ** Assets: references that are not found, and an assets directory
    outside the output directory *)

Section AssetEdges.
Context `{Clock} `{!FileSystem} `{Hashing}.

(** A substitution whose function gives back the text matched changes
    nothing, neither in the text nor in the state. *)
Lemma sub_scan_m_identity (m : gmatcher) (f : str -> list str -> M str) :
  (forall prev s groups n, m prev s = Some (groups, n) -> 0 < n) ->
  (forall whole groups st, f whole groups st = (st, Ok whole)) ->
  forall s prev skip st, sub_scan_m m f prev skip s st = (st, Ok (skipn skip s)).
Proof.
  intros Hpos Hid s. induction s as [|c t IH]; intros prev skip st.
  - destruct skip; reflexivity.
  - cbn [sub_scan_m]. destruct skip as [|k]; [|apply IH].
    destruct (m prev (c :: t)) as [[groups n]|] eqn:E; unfold bind.
    + rewrite Hid, IH. unfold ret. apply Hpos in E. destruct n as [|n]; [lia|].
      cbn [pred firstn skipn app]. rewrite firstn_skipn. reflexivity.
    + rewrite IH. reflexivity.
Qed.

Lemma gpat_embed_positive prev s groups n : gpat_embed prev s = Some (groups, n) -> 0 < n.
Proof.
  unfold gpat_embed, pat_embed. destruct s as [|c t]; [discriminate|].
  destruct (c =? BANG)%N; [|discriminate].
  destruct (pat_wikilink t) as [[g k]|]; [|discriminate]. intros [= _ <-]. lia.
Qed.

Lemma gpat_md_image_positive prev s groups n :
  gpat_md_image prev s = Some (groups, n) -> 0 < n.
Proof.
  unfold gpat_md_image. intros E.
  repeat match type of E with
         | match ?x with _ => _ end = _ => destruct x; try discriminate
         | (if ?b then _ else _) = _ => destruct b; try discriminate
         end.
  injection E as _ <-. lia.
Qed.

Lemma gpat_attachment_positive prev s groups n :
  gpat_attachment prev s = Some (groups, n) -> 0 < n.
Proof.
  unfold gpat_attachment. intros E.
  repeat match type of E with
         | match ?x with _ => _ end = _ => destruct x; try discriminate
         | (if ?b then _ else _) = _ => destruct b; try discriminate
         end;
    injection E as _ <-; lia.
Qed.

Lemma process_assets_identity cfg source_dir output_dir is_org content st :
  (forall file_ref, find_asset file_ref source_dir = None) ->
  process_assets cfg source_dir output_dir is_org content st
  = match assets_handling cfg with
    | AssetsCopy =>
        if mkdir (path_join output_dir (path_of_str (assets_dir cfg)))
        then (st, Ok content)
        else (st, Raise (OSError (path_join output_dir (path_of_str (assets_dir cfg)))))
    | _ => (st, Ok content)
    end.
Proof.
  intros Hnone. unfold process_assets.
  assert (He : forall w g s, process_embed cfg source_dir output_dir is_org w g s = (s, Ok w)).
  { intros w g s. unfold process_embed. rewrite Hnone. destruct (negb _); reflexivity. }
  assert (Hi : forall w g s, process_md_image cfg source_dir output_dir is_org w g s = (s, Ok w)).
  { intros w g s. unfold process_md_image. rewrite Hnone. destruct (_ || _); reflexivity. }
  assert (Ha : forall w g s, process_attachment cfg source_dir output_dir is_org w g s = (s, Ok w)).
  { intros w g s. unfold process_attachment.
    destruct (if contains [BAR] (nth 0 g []) then _ else _) as [file_ref desc].
    rewrite Hnone. reflexivity. }
  destruct (assets_handling cfg); try reflexivity;
    unfold re_sub_m, make_dir, bind;
    try (destruct (mkdir _); [|reflexivity]); cbn [ret];
    rewrite (sub_scan_m_identity _ _ gpat_embed_positive He);
    rewrite (sub_scan_m_identity _ _ gpat_md_image_positive Hi);
    rewrite (sub_scan_m_identity _ _ gpat_attachment_positive Ha); reflexivity.
Qed.

Lemma asset_dest_absolute cfg (asset_path output_dir : path) :
  startswith [SLASH] (assets_dir cfg) = true ->
  absolute (asset_dest cfg asset_path output_dir) = true.
Proof.
  intros Ha. unfold asset_dest, path_join.
  change (absolute (path_of_str (assets_dir cfg))) with (startswith [SLASH] (assets_dir cfg)).
  rewrite Ha.
  destruct (absolute (path_of_str _)) eqn:E; [exact E | exact Ha].
Qed.
End AssetEdges.

(** X16: when the search finds no file for any reference of a note,
    [process_assets] leaves the state as it was: in link and ignore mode it
    returns the content unchanged; in copy mode it first makes the assets
    directory, returns the content unchanged when that goes through, and
    raises before it looks at the content when it does not. *)
Theorem process_assets_nothing_found
    `{Clock} `{!FileSystem} `{Hashing}
    (cfg : config) (source_dir output_dir : path) (is_org : bool) (content : str) (st : state)
    (nothing_found : forall file_ref, find_asset file_ref source_dir = None) :
  process_assets cfg source_dir output_dir is_org content st
  = match assets_handling cfg with
    | AssetsCopy =>
        if mkdir (path_join output_dir (path_of_str (assets_dir cfg)))
        then (st, Ok content)
        else (st, Raise (OSError (path_join output_dir (path_of_str (assets_dir cfg)))))
    | _ => (st, Ok content)
    end.
Proof. apply process_assets_identity. exact nothing_found. Qed.

Lemma process_assets_nothing_found_witness :
  @process_assets still_clock bare_fs sample_hashing default_config vault out true
    (lit "See ![[diagram.png]], ![shot](img/shot.png) and [[spec.pdf|the spec]].") fresh
  = (fresh, Ok (lit "See ![[diagram.png]], ![shot](img/shot.png) and [[spec.pdf|the spec]]."))
  /\ @process_assets still_clock sealed_fs sample_hashing default_config vault out true
       (lit "See ![[diagram.png]].") fresh
     = (fresh, Raise (OSError (path_of_str (lit "out/assets")))).
Proof.
  split.
  - exact (@process_assets_nothing_found still_clock bare_fs sample_hashing default_config
             vault out true _ fresh (fun _ => eq_refl)).
  - exact (@process_assets_nothing_found still_clock sealed_fs sample_hashing default_config
             vault out true _ fresh (fun _ => eq_refl)).
Defined.

(** X17: with an absolute assets directory and a relative output directory
    the destination lies outside the output directory: a first call of
    [copy_asset] for an asset copies the file and then raises [ValueError],
    and the asset mapping is as it was, so a second call copies again. *)
Theorem copy_asset_outside_output
    `{Clock} `{!FileSystem} `{Hashing}
    (cfg : config) (asset_path output_dir : path) (st : state)
    (absolute_assets_dir : startswith [SLASH] (assets_dir cfg) = true)
    (relative_output : absolute output_dir = false)
    (first_call : asset_mapping st !! path_str asset_path = None)
    (copy_succeeds : copy2 asset_path (asset_dest cfg asset_path output_dir) = true) :
  let st' := log_copy asset_path (asset_dest cfg asset_path output_dir) st in
  copy_asset cfg asset_path output_dir st = (st', Raise ValueError)
  /\ asset_mapping st' = asset_mapping st
  /\ copy_asset cfg asset_path output_dir st'
     = (log_copy asset_path (asset_dest cfg asset_path output_dir) st', Raise ValueError).
Proof.
  assert (Hrel : path_relative_to (asset_dest cfg asset_path output_dir) output_dir = None).
  { unfold path_relative_to.
    rewrite (asset_dest_absolute cfg asset_path output_dir absolute_assets_dir), relative_output.
    reflexivity. }
  assert (Hcall : forall s, asset_mapping s !! path_str asset_path = None ->
            copy_asset cfg asset_path output_dir s
            = (log_copy asset_path (asset_dest cfg asset_path output_dir) s, Raise ValueError)).
  { intros s Hs. unfold copy_asset, bind, get, shutil_copy2, modify, of_option, ret, raise.
    rewrite Hs. fold (asset_dest cfg asset_path output_dir).
    rewrite copy_succeeds, Hrel. reflexivity. }
  cbv zeta. split; [apply Hcall; exact first_call|].
  split; [reflexivity|]. apply Hcall. exact first_call.
Qed.

Lemma copy_asset_outside_output_witness :
  let cfg := {| output_format := Org; preserve_links := false;
                assets_handling := AssetsCopy; assets_dir := lit "/srv/assets" |} in
  snd (copy_asset cfg (vault_file "attachments/diagram.png") out fresh) = Raise ValueError
  /\ map fst (copied (fst (copy_asset cfg (vault_file "attachments/diagram.png") out fresh)))
     = [vault_file "attachments/diagram.png"].
Proof.
  intros cfg.
  pose proof (@copy_asset_outside_output sample_clock sample_fs sample_hashing cfg
                (vault_file "attachments/diagram.png") out fresh
                eq_refl eq_refl eq_refl eq_refl) as [Hcall _].
  rewrite Hcall. split; reflexivity.
Defined.

(** ** Org markup *)

Lemma startswith_other x d' c t : c <> x -> startswith (x :: d') (c :: t) = false.
Proof.
  intros Hc. unfold startswith, str_eqb. simpl.
  apply bool_decide_eq_false_2. congruence.
Qed.

Lemma find_str_after x d' (w t : str) :
  Forall (fun c => c <> x) w -> find_str (x :: d') (w ++ (x :: d') ++ t) = Some (length w).
Proof.
  induction 1 as [|c w Hc _ IH].
  - cbn [app length find_str]. change (x :: d' ++ t) with ((x :: d') ++ t).
    rewrite startswith_prefix. reflexivity.
  - cbn [app find_str length]. rewrite (startswith_other x d' c _ Hc).
    cbn [app] in IH. rewrite IH. reflexivity.
Qed.

Lemma re_sub_plain_prefix (P : char -> Prop) (m : matcher) f :
  (forall c t, P c -> m (c :: t) = None) ->
  forall a s, Forall P a -> re_sub m f (a ++ s) = a ++ re_sub m f s.
Proof.
  intros Hno a s Ha. induction Ha as [|c t Hc _ IH]; [reflexivity|].
  cbn [app]. rewrite re_sub_copy by (apply Hno; assumption). f_equal. exact IH.
Qed.

Lemma pat_delimited_other x d' c t : c <> x -> pat_delimited (x :: d') (c :: t) = None.
Proof. intros Hc. unfold pat_delimited. rewrite (startswith_other x d' c t Hc). reflexivity. Qed.

(** One delimited span between stretches without the first character of the
    delimiter. *)
Lemma delimited_span x d' (r a w b : str) :
  Forall (fun c => c <> x) a ->
  Forall (fun c => c <> x) w -> forallb not_nl w = true -> w <> [] ->
  Forall (fun c => c <> x) b ->
  re_sub (pat_delimited (x :: d')) (wrap r) (a ++ (x :: d') ++ w ++ (x :: d') ++ b)
  = a ++ r ++ w ++ r ++ b.
Proof.
  intros Ha Hw Hnl Hne Hb.
  rewrite (re_sub_plain_prefix (fun c => c <> x) _ _
             (fun c t Hc => pat_delimited_other x d' c t Hc) a _ Ha).
  f_equal. destruct w as [|c w']; [congruence|].
  inversion Hw as [|? ? Hc Hw']; subst.
  assert (Hm : pat_delimited (x :: d') ((x :: d') ++ (c :: w') ++ (x :: d') ++ b)
               = Some (c :: w', S (length (d' ++ (c :: w') ++ x :: d')))).
  { unfold pat_delimited. rewrite startswith_prefix, drop_app_length.
    cbn [app]. change (x :: d' ++ b) with ((x :: d') ++ b).
    rewrite (find_str_after x d' w' b Hw'), take_app_length.
    rewrite Hnl. do 2 f_equal. rewrite !length_app. simpl. rewrite !length_app. simpl. lia. }
  change ((x :: d') ++ (c :: w') ++ (x :: d') ++ b)
    with (x :: d' ++ (c :: w') ++ (x :: d') ++ b) in *.
  replace (d' ++ (c :: w') ++ (x :: d') ++ b) with ((d' ++ (c :: w') ++ x :: d') ++ b) in *
    by (rewrite <- !app_assoc; reflexivity).
  rewrite (re_sub_match _ _ _ _ _ _ Hm).
  rewrite (re_sub_untouched (fun c => c <> x) _ _
             (fun c t Hc => pat_delimited_other x d' c t Hc) b Hb).
  unfold wrap. rewrite <- !app_assoc. reflexivity.
Qed.

Lemma pat_inline_code_other c t : c <> 96%N -> pat_inline_code (c :: t) = None.
Proof.
  intros Hc. unfold pat_inline_code. destruct (N.eqb_spec c 96); [contradiction | reflexivity].
Qed.

Lemma markup_free_facts c :
  markup_free c = true ->
  c <> 42%N /\ c <> USCORE /\ c <> 126%N /\ c <> 96%N /\ not_nl c = true.
Proof.
  unfold markup_free, not_nl. intros Hc.
  repeat split; try (intros ->; discriminate Hc).
  destruct (c =? NL)%N; [|reflexivity].
  rewrite !Bool.orb_true_r in Hc. discriminate.
Qed.

Lemma markup_free_all (P : char -> Prop) (s : str) :
  (forall c, markup_free c = true -> P c) ->
  Forall (fun c => markup_free c = true) s -> Forall P s.
Proof. intros HP Hs. eapply List.Forall_impl; [|exact Hs]. exact HP. Qed.

(** The text between two marks of italic markup, in a line that holds no
    other markup, comes out between slashes. *)
Lemma emphasis_italic (a w b : str) :
  Forall (fun c => markup_free c = true) a ->
  Forall (fun c => markup_free c = true) w -> w <> [] ->
  Forall (fun c => markup_free c = true) b ->
  let line := a ++ lit "*" ++ w ++ lit "*" ++ b in
  re_sub pat_inline_code (wrap (lit "~"))
    (re_sub (pat_delimited (lit "~~")) (wrap (lit "+"))
       (re_sub (pat_delimited (lit "_")) (wrap (lit "/"))
          (re_sub (pat_delimited (lit "*")) (wrap (lit "/"))
             (re_sub (pat_delimited (lit "__")) (wrap (lit "*")) line))))
  = a ++ lit "/" ++ w ++ lit "/" ++ b.
Proof.
  intros Ha Hw Hne Hb line. subst line.
  change (lit "*") with [42%N]. change (lit "__") with [USCORE; USCORE].
  change (lit "_") with [USCORE]. change (lit "~~") with [126%N; 126%N].
  set (line := a ++ [42%N] ++ w ++ [42%N] ++ b).
  assert (Hstar : forall s, Forall (fun c => markup_free c = true) s ->
                            Forall (fun c => c <> 42%N) s).
  { intros s. apply markup_free_all. intros c Hc. apply markup_free_facts. exact Hc. }
  assert (Hnl : forallb not_nl w = true).
  { apply forallb_forall. intros c Hc. rewrite List.Forall_forall in Hw.
    apply markup_free_facts, Hw, Hc. }
  rewrite (re_sub_untouched (fun c => c <> USCORE) _ _
             (fun c t Hc => pat_delimited_other USCORE [USCORE] c t Hc) line).
  2:{ unfold line. rewrite !Forall_app, !Forall_singleton.
      repeat split; try discriminate;
        (eapply markup_free_all; [|eassumption]; intros c Hc; apply markup_free_facts; exact Hc). }
  unfold line.
  rewrite (delimited_span 42%N [] (lit "/") a w b (Hstar a Ha) (Hstar w Hw) Hnl Hne (Hstar b Hb)).
  assert (Hout : forall y, y <> 47%N -> markup_free y = false ->
            Forall (fun c => c <> y) (a ++ lit "/" ++ w ++ lit "/" ++ b)).
  { intros y Hy1 Hy2.
    assert (Hall : forall s, Forall (fun c => markup_free c = true) s ->
                             Forall (fun c => c <> y) s).
    { intros s. apply markup_free_all. intros c Hc ->. congruence. }
    change (lit "/") with [47%N]. rewrite !Forall_app, !Forall_singleton.
    repeat split; auto. }
  rewrite (re_sub_untouched (fun c => c <> USCORE) _ _
             (fun c t Hc => pat_delimited_other USCORE [] c t Hc) _
             (Hout USCORE ltac:(discriminate) eq_refl)).
  rewrite (re_sub_untouched (fun c => c <> 126%N) _ _
             (fun c t Hc => pat_delimited_other 126%N [126%N] c t Hc) _
             (Hout 126%N ltac:(discriminate) eq_refl)).
  apply (re_sub_untouched (fun c => c <> 96%N) _ _ pat_inline_code_other _
           (Hout 96%N ltac:(discriminate) eq_refl)).
Qed.

Lemma code_block_body `{Unicode} (body rest : list str) :
  Forall (fun l => no_fence l = true) body ->
  convert_lines true (body ++ rest) = body ++ convert_lines true rest.
Proof.
  induction 1 as [|l body Hl _ IH]; [reflexivity|].
  cbn [app convert_lines]. unfold no_fence in Hl.
  destruct (startswith (lit "```") l); [discriminate|]. rewrite IH. reflexivity.
Qed.

Lemma run_of_repeat (p : char -> bool) (x : char) (n : nat) (t : str) :
  p x = true -> match t with c :: _ => p c = false | [] => True end ->
  run_of p (repeat x n ++ t) = repeat x n.
Proof.
  intros Hx Ht. induction n as [|n IH]; cbn [repeat app run_of].
  - destruct t as [|c t]; [reflexivity|]. cbn [run_of]. rewrite Ht. reflexivity.
  - rewrite Hx, IH. reflexivity.
Qed.

(** X18: in a line without other markup, bold text and italic text both
    come out as org italic: the asterisks the bold pattern leaves are taken
    by the italic pattern that runs after it. *)
Theorem convert_emphasis_bold_becomes_italic (a w b : str)
    (before_plain : Forall (fun c => markup_free c = true) a)
    (text_plain : Forall (fun c => markup_free c = true) w)
    (text_nonempty : w <> [])
    (after_plain : Forall (fun c => markup_free c = true) b) :
  convert_emphasis (a ++ lit "**" ++ w ++ lit "**" ++ b) = a ++ lit "/" ++ w ++ lit "/" ++ b
  /\ convert_emphasis (a ++ lit "*" ++ w ++ lit "*" ++ b) = a ++ lit "/" ++ w ++ lit "/" ++ b.
Proof.
  assert (Hstar : forall s, Forall (fun c => markup_free c = true) s ->
                            Forall (fun c => c <> 42%N) s).
  { intros s. apply markup_free_all. intros c Hc. apply markup_free_facts. exact Hc. }
  assert (Hnl : forallb not_nl w = true).
  { apply forallb_forall. intros c Hc. rewrite List.Forall_forall in text_plain.
    apply markup_free_facts, text_plain, Hc. }
  unfold convert_emphasis. split.
  - change (lit "**") with [42%N; 42%N].
    rewrite (delimited_span 42%N [42%N] (lit "*") a w b
               (Hstar a before_plain) (Hstar w text_plain) Hnl text_nonempty
               (Hstar b after_plain)).
    apply emphasis_italic; assumption.
  - assert (Hbold : re_sub (pat_delimited (lit "**")) (wrap (lit "*"))
                      (a ++ lit "*" ++ w ++ lit "*" ++ b)
                    = a ++ lit "*" ++ w ++ lit "*" ++ b).
    { change (lit "**") with [42%N; 42%N]. change (lit "*") with [42%N].
      rewrite (re_sub_plain_prefix (fun c => c <> 42%N) _ _
                 (fun c t Hc => pat_delimited_other 42%N [42%N] c t Hc) a _
                 (Hstar a before_plain)).
      f_equal. destruct w as [|c w']; [congruence|].
      pose proof (Hstar _ text_plain) as Hw. inversion Hw as [|? ? Hc Hw']; subst.
      cbn [app].
      assert (Hno : pat_delimited [42%N; 42%N] (42%N :: c :: w' ++ 42%N :: b) = None).
      { unfold pat_delimited, startswith, str_eqb. simpl.
        apply bool_decide_eq_false_2 in Hc || idtac.
        rewrite bool_decide_eq_false_2 by congruence. reflexivity. }
      rewrite (re_sub_copy _ _ _ _ Hno). f_equal.
      change (c :: w' ++ 42%N :: b) with ((c :: w') ++ 42%N :: b).
      rewrite (re_sub_plain_prefix (fun c => c <> 42%N) _ _
                 (fun c t Hc => pat_delimited_other 42%N [42%N] c t Hc) (c :: w') _ Hw).
      f_equal.
      assert (Hlast : pat_delimited [42%N; 42%N] (42%N :: b) = None).
      { unfold pat_delimited, startswith, str_eqb.
        pose proof (Hstar b after_plain) as Hb'.
        destruct b as [|y b']; [reflexivity|]. inversion Hb'; subst. simpl.
        rewrite bool_decide_eq_false_2 by congruence. reflexivity. }
      rewrite (re_sub_copy _ _ _ _ Hlast). f_equal.
      apply (re_sub_untouched (fun c => c <> 42%N) _ _
               (fun c t Hc => pat_delimited_other 42%N [42%N] c t Hc) b (Hstar b after_plain)). }
    rewrite Hbold. apply emphasis_italic; assumption.
Qed.

Lemma convert_emphasis_bold_becomes_italic_witness :
  convert_emphasis (lit "a " ++ lit "**" ++ lit "bold" ++ lit "**" ++ lit " word")
  = lit "a " ++ lit "/" ++ lit "bold" ++ lit "/" ++ lit " word".
Proof.
  exact (proj1 (convert_emphasis_bold_becomes_italic (lit "a ") (lit "bold") (lit " word")
                  ltac:(repeat constructor) ltac:(repeat constructor)
                  ltac:(discriminate) ltac:(repeat constructor))).
Defined.

(** X19: a line that starts with [n] hashes becomes a heading of level [n]:
    [n] asterisks, one space and the rest of the line stripped, whether or
    not a space followed the hashes, and with its markup left as it was. *)
Theorem convert_lines_heading `{Unicode} (n : nat) (text : str)
    (some_hash : 0 < n)
    (text_starts : hd_error text <> Some HASH) :
  convert_lines false [repeat HASH n ++ text]
  = [repeat 42%N n ++ lit " " ++ strip_ws text].
Proof.
  destruct n as [|n]; [lia|].
  cbn [convert_lines]. cbn [repeat app].
  replace (startswith (lit "```") (HASH :: repeat HASH n ++ text)) with false by reflexivity.
  replace (startswith [HASH] (HASH :: repeat HASH n ++ text)) with true by reflexivity.
  cbn [negb]. unfold convert_heading. f_equal.
  change (HASH :: repeat HASH n ++ text) with (repeat HASH (S n) ++ text).
  rewrite run_of_repeat.
  - rewrite repeat_length, drop_app_length'; [reflexivity | symmetry; apply repeat_length].
  - reflexivity.
  - destruct text as [|c t]; [exact I|].
    destruct (N.eqb_spec c HASH); [subst; contradiction text_starts; reflexivity | reflexivity].
Qed.

Lemma convert_lines_heading_witness :
  convert_lines false [lit "##" ++ lit "todo  **now** "] = [lit "**" ++ lit " " ++ lit "todo  **now**"].
Proof.
  exact (@convert_lines_heading sample_unicode 2 (lit "todo  **now** ")
           ltac:(lia) ltac:(discriminate)).
Defined.

(** X20: a fenced block: the opening fence becomes [#+BEGIN_SRC] with the
    language stripped, the lines up to the next fence are kept as they are,
    and the closing fence becomes [#+END_SRC], whatever follows the fence on
    its line. *)
Theorem convert_lines_code_block `{Unicode} (lang tail : str) (body rest : list str)
    (body_unfenced : Forall (fun l => no_fence l = true) body) :
  convert_lines false ((lit "```" ++ lang) :: body ++ (lit "```" ++ tail) :: rest)
  = (lit "#+BEGIN_SRC " ++ strip_ws lang) :: body
    ++ lit "#+END_SRC" :: convert_lines false rest.
Proof.
  cbn [convert_lines]. rewrite startswith_prefix. cbn [negb].
  change 3 with (length (lit "```")). rewrite drop_app_length.
  rewrite (code_block_body body _ body_unfenced).
  cbn [convert_lines]. rewrite startswith_prefix. reflexivity.
Qed.

Lemma convert_lines_code_block_witness :
  convert_lines false
    [lit "```" ++ lit " python "; lit "# not a heading"; lit "**kw**"; lit "```" ++ lit "end";
     lit "# Next"]
  = [lit "#+BEGIN_SRC " ++ lit "python"; lit "# not a heading"; lit "**kw**";
     lit "#+END_SRC"; lit "* Next"].
Proof.
  exact (@convert_lines_code_block sample_unicode (lit " python ") (lit "end")
           [lit "# not a heading"; lit "**kw**"] [lit "# Next"]
           ltac:(repeat constructor)).
Defined.

(** X21: the loop over the lines gives one line for each line it reads,
    inside a code block and outside: fences are replaced, never dropped. *)
Theorem convert_lines_one_line_each `{Unicode} (lines : list str) (in_code_block : bool) :
  length (convert_lines in_code_block lines) = length lines.
Proof.
  revert in_code_block. induction lines as [|line rest IH]; intros b; [reflexivity|].
  cbn [convert_lines].
  destruct (startswith (lit "```") line), b, (startswith [HASH] line);
    cbn [negb length]; rewrite IH; reflexivity.
Qed.

(** ** The walker and the command line: errors *)

(** X22: with [add_folder_tags], a note in a folder whose [tags] entry is
    neither a list nor a string (an empty entry, a number) raises
    [AttributeError] before [convert_file] is called: the state is as it
    was, and the walk reports the note as failed and goes on. *)
Theorem convert_one_folder_tags_attribute_error
    `{Unicode} `{PyRuntime} `{Yaml} `{Clock} `{!FileSystem} `{Hashing}
    (cfg : config) (input_dir output_dir md_file rel : path) (preserve_structure : bool)
    (content : str) (d : list (list N * pyval)) (v : pyval) (st : state)
    (rest : list path) (converted_files : list (path * path))
    (relative : path_relative_to md_file input_dir = Some rel)
    (in_folder : path_parent rel <> here)
    (readable : read_text md_file = Some content)
    (front_matter : fst (extract_yaml_frontmatter content) = Some d)
    (tagged : dict_get (lit "tags") d = Some v)
    (no_extend : match v with PStr _ | PList _ => False | _ => True end) :
  convert_one cfg input_dir output_dir preserve_structure true md_file st
  = (st, Raise AttributeError)
  /\ convert_each cfg input_dir output_dir preserve_structure true (md_file :: rest)
       converted_files st
     = convert_each cfg input_dir output_dir preserve_structure true rest
         converted_files (log_event (Failed md_file AttributeError) st).
Proof.
  assert (Hone : convert_one cfg input_dir output_dir preserve_structure true md_file st
                 = (st, Raise AttributeError)).
  { unfold convert_one, read_file, bind, of_option, of_outcome, ret, raise.
    rewrite relative. cbn [andb]. unfold path_eqb.
    rewrite bool_decide_eq_false_2 by exact in_folder. cbn [negb].
    rewrite readable.
    destruct (extract_yaml_frontmatter content) as [md remaining]. simpl in front_matter.
    subst md. unfold with_folder_tags. rewrite tagged.
    destruct v; try contradiction; reflexivity. }
  split; [exact Hone|]. cbn [convert_each]. rewrite Hone. reflexivity.
Qed.

Lemma convert_one_folder_tags_attribute_error_witness :
  @convert_directory sample_unicode sample_runtime untagged_yaml sample_clock untagged_fs
    sample_hashing default_config vault out false true fresh
  = (log_event (Failed (vault_file "projects/untagged.md") AttributeError) fresh, Ok []).
Proof.
  unfold convert_directory, make_dirs, bind.
  change (@mkdir_parents sample_clock untagged_fs out) with true. cbn [ret].
  change (@glob_md sample_clock untagged_fs vault) with [vault_file "projects/untagged.md"].
  rewrite (proj2 (@convert_one_folder_tags_attribute_error
                    sample_unicode sample_runtime untagged_yaml sample_clock untagged_fs
                    sample_hashing default_config vault out
                    (vault_file "projects/untagged.md") (path_of_str (lit "projects/untagged.md"))
                    false untagged_note [(lit "tags", PNone)] PNone fresh [] []
                    ltac:(vm_compute; reflexivity) ltac:(discriminate)
                    ltac:(vm_compute; reflexivity) ltac:(vm_compute; reflexivity)
                    ltac:(vm_compute; reflexivity) I)).
  reflexivity.
Defined.

(** X23: an input that is not a file.  When it is no directory either,
    the exit code is 1 and nothing has been done.  When it is a directory
    and the output directory can be made, the exit code is 0 whatever
    happened to the notes of the walk; when the output directory cannot be
    made, the exception of [mkdir] leaves [main], for nothing catches it. *)
Theorem main_exit_code
    `{Unicode} `{PyRuntime} `{Yaml} `{Clock} `{!FileSystem} `{Hashing} `{Disk}
    (args : arguments) (st : state)
    (not_a_file : path_is_file (path_of_str (arg_input args)) = false) :
  main args st
  = (if path_is_dir (path_of_str (arg_input args)) then
       if mkdir_parents (path_of_str (arg_output args)) then
         (snd (walk (converter_of args) (path_of_str (arg_input args))
                 (path_of_str (arg_output args)) (arg_preserve_structure args)
                 (arg_add_folder_tags args) (glob_md (path_of_str (arg_input args))) st),
          Ok 0)
       else (st, Raise (OSError (path_of_str (arg_output args))))
     else (st, Ok 1)).
Proof.
  unfold main. rewrite not_a_file.
  destruct (path_is_dir (path_of_str (arg_input args))); [|reflexivity].
  unfold bind at 1. unfold convert_directory, make_dirs, bind.
  destruct (mkdir_parents (path_of_str (arg_output args))); [|reflexivity].
  cbn [ret]. rewrite convert_each_is_walk. reflexivity.
Qed.

Lemma main_exit_code_witness :
  snd (main (sample_arguments "vault") fresh) = Ok 0
  /\ @main sample_unicode sample_runtime sample_yaml still_clock sealed_fs sample_hashing
       sample_disk (sample_arguments "vault") fresh
     = (fresh, Raise (OSError out)).
Proof.
  split.
  - rewrite (@main_exit_code sample_unicode sample_runtime sample_yaml sample_clock sample_fs
               sample_hashing sample_disk (sample_arguments "vault") fresh eq_refl).
    reflexivity.
  - exact (@main_exit_code sample_unicode sample_runtime sample_yaml still_clock sealed_fs
             sample_hashing sample_disk (sample_arguments "vault") fresh eq_refl).
Defined.

(** ** The search for an asset *)

Lemma strip_ws_idempotent `{Unicode} (s : str) : strip_ws (strip_ws s) = strip_ws s.
Proof.
  unfold strip_ws.
  set (t := after_run re_space s).
  set (u := after_run re_space (rev t)).
  rewrite (after_run_id re_space (rev u)).
  - rewrite rev_involutive. rewrite (after_run_id re_space u); [reflexivity|].
    destruct u as [|c r] eqn:Eu; [exact I|].
    exact (after_run_head re_space (rev t) c r Eu).
  - destruct (rev u) as [|c r] eqn:Er; [exact I|].
    pose proof (run_after re_space (rev t)) as Hsplit. fold u in Hsplit.
    apply (f_equal (@rev N)) in Hsplit.
    rewrite rev_involutive, rev_app_distr, Er in Hsplit.
    exact (after_run_head re_space s c _ Hsplit).
Qed.

Lemma removelast_length {A} (l : list A) : length (removelast l) = pred (length l).
Proof.
  induction l as [|a [|b l] IH]; [reflexivity | reflexivity |].
  change (removelast (a :: b :: l)) with (a :: removelast (b :: l)).
  simpl length in *. rewrite IH. reflexivity.
Qed.

Lemma removelast_fixed {A} (l : list A) : removelast l = l -> l = [].
Proof.
  destruct l as [|a l]; [reflexivity|]. intros E.
  apply (f_equal (@length A)) in E. rewrite removelast_length in E. simpl in E. lia.
Qed.

Section SearchFacts.
Context `{Unicode} `{Disk}.

Lemma climb_fuel (fuel : nat) :
  forall fuel' dir, length (parts dir) < fuel -> length (parts dir) < fuel' ->
  climb_to_vault fuel dir = climb_to_vault fuel' dir.
Proof.
  induction fuel as [|fuel IH]; intros fuel' dir Hf Hf'; [lia|].
  destruct fuel' as [|fuel']; [lia|].
  cbn [climb_to_vault]. unfold path_eqb.
  destruct (bool_decide (path_parent dir = dir)) eqn:Etop; [reflexivity|].
  destruct (path_exists _); [reflexivity|].
  apply bool_decide_eq_false_1 in Etop.
  assert (Hlen : length (parts (path_parent dir)) < length (parts dir)).
  { unfold path_parent. cbn [parts]. rewrite removelast_length.
    destruct (parts dir) as [|a l] eqn:Ep; [|simpl; lia].
    exfalso. apply Etop. destruct dir as [ab ps]. simpl in Ep. subst ps. reflexivity. }
  apply IH; lia.
Qed.

Lemma climbed_step (dir : path) :
  parts dir <> [] -> climbed dir = dir :: climbed (path_parent dir).
Proof.
  intros Hne. unfold climbed, path_parent. cbn [parts]. rewrite removelast_length.
  destruct (parts dir) as [|a l] eqn:Ep; [congruence|].
  cbn [length pred seq map]. f_equal.
  rewrite <- seq_shift, map_map. apply map_ext. intros k.
  unfold ancestor. rewrite Nat.iter_succ_r. unfold path_parent. rewrite Ep. reflexivity.
Qed.

Lemma climb_is_find (fuel : nat) :
  forall dir, length (parts dir) < fuel ->
  climb_to_vault fuel dir = List.find holds_obsidian (climbed dir).
Proof.
  induction fuel as [|fuel IH]; intros dir Hf; [lia|].
  cbn [climb_to_vault]. unfold path_eqb.
  destruct (decide (parts dir = [])) as [Ep|Ep].
  - rewrite bool_decide_eq_true_2.
    + unfold climbed. rewrite Ep. reflexivity.
    + destruct dir as [ab ps]. simpl in Ep. subst ps. reflexivity.
  - rewrite bool_decide_eq_false_2.
    + rewrite (climbed_step dir Ep). cbn [List.find]. unfold holds_obsidian at 1.
      fold dot_obsidian.
      destruct (path_exists (path_join dir dot_obsidian)); [reflexivity|].
      apply IH. unfold path_parent. cbn [parts]. rewrite removelast_length.
      destruct (parts dir); [congruence | simpl in *; lia].
    + intros E. apply Ep. apply removelast_fixed.
      apply (f_equal parts) in E. exact E.
Qed.

Lemma search_found file_ref source_dir p :
  search_asset file_ref source_dir = Ok (Some p) -> path_is_file p = true.
Proof.
  unfold search_asset.
  destruct (List.find is_existing_file _) as [q|] eqn:Edirect.
  - intros [= <-]. apply List.find_some in Edirect as [_ Hq].
    unfold is_existing_file in Hq. apply andb_true_iff in Hq. apply Hq.
  - destruct (rglob _ _) as [found|]; [|discriminate].
    intros [= Hfind]. apply List.find_some in Hfind as [_ Hq]. exact Hq.
Qed.

Lemma clean_ref_alias (name alias : str) :
  no_bar name = true -> clean_ref (name ++ [BAR] ++ alias) = clean_ref name.
Proof.
  intros Hname. unfold clean_ref. cbn [app].
  rewrite contains_bar_yes, (contains_bar_no name Hname).
  unfold split_once. cbn [fst].
  assert (Hall : Forall (fun c => negb (c =? BAR)%N = true) name).
  { unfold no_bar in Hname. rewrite forallb_forall in Hname.
    apply List.Forall_forall. exact Hname. }
  destruct (run_of_app_stop (fun c => negb (c =? BAR)%N) name BAR alias Hall eq_refl)
    as [-> _].
  apply strip_ws_idempotent.
Qed.
End SearchFacts.

(** X24: what the search returns is a file: a candidate that exists and is
    not a file, such as a folder of that name, is passed over. *)
Theorem search_asset_returns_file `{Unicode} `{Disk}
    (file_ref : str) (source_dir p : path)
    (found : search_asset file_ref source_dir = Ok (Some p)) :
  path_is_file p = true.
Proof. exact (search_found file_ref source_dir p found). Qed.

Lemma search_asset_returns_file_witness :
  search_asset (lit "diagram.png") (vault_file "projects")
  = Ok (Some (vault_file "attachments/diagram.png"))
  /\ path_is_file (vault_file "attachments/diagram.png") = true.
Proof.
  split; [vm_compute; reflexivity|].
  exact (@search_asset_returns_file sample_unicode sample_disk (lit "diagram.png")
           (vault_file "projects") (vault_file "attachments/diagram.png")
           ltac:(vm_compute; reflexivity)).
Defined.

(** X25: the vault root of the search is the nearest directory that holds
    [.obsidian] among the directory of the note and its ancestors, and the
    directory of the note when none of them does.  The last ancestor, which
    is its own parent (the root of the file system, or the current directory
    of a relative path), is not looked into.  The loop ends within as many
    steps as the path has components, so any larger bound gives the same
    root. *)
Theorem vault_root_is_nearest `{Unicode} `{Disk} (dir : path) :
  vault_root_of dir
  = match List.find holds_obsidian (climbed dir) with
    | Some root => root
    | None => dir
    end
  /\ (forall k, k < length (parts dir) ->
      holds_obsidian (ancestor k dir) = true ->
      (forall j, j < k -> holds_obsidian (ancestor j dir) = false) ->
      vault_root_of dir = ancestor k dir)
  /\ forall fuel, length (parts dir) < fuel ->
       match climb_to_vault fuel dir with Some root => root | None => dir end
       = vault_root_of dir.
Proof.
  assert (Hroot : vault_root_of dir
                  = match List.find holds_obsidian (climbed dir) with
                    | Some root => root
                    | None => dir
                    end).
  { unfold vault_root_of. rewrite climb_is_find by lia. reflexivity. }
  split; [exact Hroot|]. split.
  - intros k Hk Hholds Hnear. rewrite Hroot. unfold climbed.
    assert (Hfind : forall n start, start <= k -> k < start + n ->
              List.find holds_obsidian (map (fun i => ancestor i dir) (seq start n))
              = Some (ancestor k dir)).
    { induction n as [|n IH]; intros start Hs He; [lia|].
      cbn [seq map List.find].
      destruct (Nat.eq_dec start k) as [->|Hne]; [rewrite Hholds; reflexivity|].
      rewrite (Hnear start) by lia. apply IH; lia. }
    rewrite (Hfind (length (parts dir)) 0); [reflexivity | lia | lia].
  - intros fuel Hfuel. unfold vault_root_of.
    rewrite (climb_fuel fuel (S (length (parts dir))) dir Hfuel); [reflexivity | lia].
Qed.

Lemma vault_root_is_nearest_witness :
  vault_root_of (vault_file "projects/drafts") = vault.
Proof.
  exact (proj1 (proj2 (@vault_root_is_nearest sample_unicode sample_disk
                         (vault_file "projects/drafts")))
           2 ltac:(vm_compute; lia) ltac:(vm_compute; reflexivity)
           ltac:(intros [|[|j]] Hj; [vm_compute; reflexivity | vm_compute; reflexivity | lia])).
Defined.

(** In the sample vault the root is found one level above the folder of a
    note, and a note outside any vault has its own folder as root. *)
Example vault_root_samples :
  vault_root_of (vault_file "projects") = vault
  /\ vault_root_of vault = vault
  /\ vault_root_of (path_of_str (lit "elsewhere/notes")) = path_of_str (lit "elsewhere/notes").
Proof. repeat split; vm_compute; reflexivity. Qed.

(** X26: an alias after a bar takes no part in the search: the reference
    with the alias finds what the reference alone finds. *)
Theorem search_asset_ignores_alias `{Unicode} `{Disk}
    (name alias : str) (source_dir : path)
    (name_without_bar : no_bar name = true) :
  search_asset (name ++ [BAR] ++ alias) source_dir = search_asset name source_dir.
Proof.
  unfold search_asset. rewrite (clean_ref_alias name alias name_without_bar). reflexivity.
Qed.

Lemma search_asset_ignores_alias_witness :
  search_asset (lit "diagram.png " ++ [BAR] ++ lit "200") vault
  = search_asset (lit "diagram.png ") vault.
Proof.
  exact (@search_asset_ignores_alias sample_unicode sample_disk (lit "diagram.png ")
           (lit "200") vault ltac:(vm_compute; reflexivity)).
Defined.

(** ** Embeds with a size, and notes of the same name *)

Lemma endswith_penultimate (ext s : str) :
  endswith ext s = true -> 2 <= length ext ->
  nth 1 (rev s) 0%N = nth 1 (rev ext) 0%N.
Proof.
  unfold endswith, str_eqb. intros He Hlen. apply bool_decide_eq_true_1 in He.
  rewrite <- (firstn_skipn (length s - length ext) s), He, rev_app_distr.
  apply app_nth1. rewrite length_rev. lia.
Qed.

Lemma sized_penultimate (name size : str) :
  size <> [] -> Forall (fun c => ascii_digit c = true) size ->
  let x := nth 1 (rev (name ++ [BAR] ++ size)) 0%N in
  ascii_digit x = true \/ x = BAR.
Proof.
  intros Hne Hd. cbn [app]. rewrite rev_app_distr. cbn [rev]. rewrite <- app_assoc.
  assert (Hr : Forall (fun c => ascii_digit c = true) (rev size)).
  { apply List.Forall_forall. intros c Hc. apply in_rev in Hc.
    rewrite List.Forall_forall in Hd. apply Hd. exact Hc. }
  destruct (rev size) as [|d [|d2 r]] eqn:Er.
  - apply (f_equal (@rev N)) in Er. rewrite rev_involutive in Er. contradiction.
  - right. reflexivity.
  - left. inversion Hr as [|? ? _ Hr']; subst. inversion Hr'; subst. assumption.
Qed.

Lemma sized_not_asset (name size : str) :
  size <> [] -> Forall (fun c => ascii_digit c = true) size ->
  existsb (fun ext => endswith ext (name ++ [BAR] ++ size)) embed_extensions = false.
Proof.
  intros Hne Hd. apply Bool.not_true_iff_false. intros Hex.
  apply existsb_exists in Hex as (ext & Hin & Hend).
  assert (Hexts : forallb (fun ext => (2 <=? length ext)
                             && negb (ascii_digit (nth 1 (rev ext) 0%N))
                             && negb (nth 1 (rev ext) 0 =? BAR)%N) embed_extensions = true)
    by (vm_compute; reflexivity).
  rewrite forallb_forall in Hexts. specialize (Hexts ext Hin).
  apply andb_true_iff in Hexts as [Hexts Hbar]. apply andb_true_iff in Hexts as [Hlen Hdig].
  apply Nat.leb_le in Hlen.
  pose proof (endswith_penultimate ext _ Hend Hlen) as Hp.
  destruct (sized_penultimate name size Hne Hd) as [Hx | Hx]; rewrite Hp in Hx.
  - rewrite Hx in Hdig. discriminate.
  - rewrite Hx in Hbar. discriminate.
Qed.

(** X27: an embed with a size, as in an image reference followed by a bar
    and a number, is not handled as an asset: the reference with its size
    ends in no asset extension, so [process_embed] gives the embed back
    unchanged and the file is neither searched for nor copied. *)
Theorem process_embed_sized_untouched
    `{Clock} `{!FileSystem} `{Hashing}
    (cfg : config) (source_dir output_dir : path) (is_org : bool)
    (whole name size : str) (st : state)
    (size_nonempty : size <> [])
    (size_digits : Forall (fun c => ascii_digit c = true) size) :
  process_embed cfg source_dir output_dir is_org whole [name ++ [BAR] ++ size] st
  = (st, Ok whole).
Proof.
  unfold process_embed. cbn [nth].
  rewrite (sized_not_asset name size size_nonempty size_digits). reflexivity.
Qed.

Lemma process_embed_sized_untouched_witness :
  process_assets default_config vault out true (lit "![[diagram.png|200]]") fresh
  = (fresh, Ok (lit "![[diagram.png|200]]"))
  /\ process_embed default_config vault out true (lit "![[diagram.png|200]]")
       [lit "diagram.png" ++ [BAR] ++ lit "200"] fresh
     = (fresh, Ok (lit "![[diagram.png|200]]")).
Proof.
  split; [vm_compute; reflexivity|].
  exact (@process_embed_sized_untouched sample_clock sample_fs sample_hashing default_config
           vault out true (lit "![[diagram.png|200]]") (lit "diagram.png") (lit "200") fresh
           ltac:(discriminate) ltac:(repeat constructor)).
Defined.

(** X28: the name and the output path of a note in a flat run do not
    depend on its folder: two notes with the same content, the same file
    stem and the same modification time, none of whose references is found,
    are written to the same path, the second over the first. *)
Theorem flat_output_collision
    `{Unicode} `{PyRuntime} `{Yaml} `{Clock} `{!FileSystem} `{Hashing}
    (cfg : config) (p q output_dir : path) (rel_p rel_q : option path)
    (content : str) (st_p st_q : state) (denote_filename : str) (output_path : path)
    (same_content_p : read_text p = Some content)
    (same_content_q : read_text q = Some content)
    (same_mtime : stat_mtime p = stat_mtime q)
    (same_stem : path_stem p = path_stem q)
    (nothing_found_p : forall file_ref, find_asset file_ref (path_parent p) = None)
    (nothing_found_q : forall file_ref, find_asset file_ref (path_parent q) = None)
    (first : snd (convert_file cfg p output_dir rel_p false st_p)
             = Ok (denote_filename, output_path)) :
  snd (convert_file cfg q output_dir rel_q false st_q) = Ok (denote_filename, output_path).
Proof.
  revert first.
  unfold convert_file, read_file, write_file, bind, of_option, get, modify, ret, raise.
  rewrite same_content_p, same_content_q.
  destruct (extract_yaml_frontmatter content) as [md remaining].
  rewrite !process_assets_identity by assumption.
  assert (Hgen : generate_denote_filename cfg p md remaining
                 = generate_denote_filename cfg q md remaining).
  { unfold generate_denote_filename, title_of. rewrite same_mtime, same_stem. reflexivity. }
  assert (Hp : forall rel : option path,
            forall f, match rel with
            | Some _ => path_join output_dir (path_of_str f)
            | None => path_join output_dir (path_of_str f)
            end = path_join output_dir (path_of_str f)).
  { intros [r|] f; reflexivity. }
  assert (Hd : forall rel : option path,
            match rel with
            | Some _ => fun s : state => (s, Ok tt)
            | None => fun s : state => (s, Ok tt)
            end = fun s : state => (s, Ok tt)).
  { intros [r|]; reflexivity. }
  destruct (assets_handling cfg);
    try (destruct (mkdir (path_join output_dir (path_of_str (assets_dir cfg))));
         [|discriminate]);
    rewrite Hgen;
    (destruct (generate_denote_filename cfg q md remaining)
       as [[[[f title] tags] created]|]; [|discriminate]);
    cbn [fst snd]; rewrite !Hp, !Hd;
    (destruct (can_write (path_join output_dir (path_of_str f))); [|discriminate]);
    simpl; intros [= <- <-]; reflexivity.
Qed.

Lemma flat_output_collision_witness :
  map fst (written (fst (@convert_directory sample_unicode sample_runtime sample_yaml
                           still_clock twin_fs sample_hashing default_config vault out
                           false false fresh)))
  = [path_of_str (lit "out/20240115T103000--todo.org");
     path_of_str (lit "out/20240115T103000--todo.org")]
  /\ snd (@convert_file sample_unicode sample_runtime sample_yaml still_clock twin_fs
            sample_hashing default_config (vault_file "work/todo.md") out
            (Some (path_of_str (lit "work/todo.md"))) false fresh)
     = Ok (lit "20240115T103000--todo.org", path_of_str (lit "out/20240115T103000--todo.org")).
Proof.
  split; [vm_compute; reflexivity|].
  exact (@flat_output_collision sample_unicode sample_runtime sample_yaml still_clock twin_fs
           sample_hashing default_config (vault_file "home/todo.md") (vault_file "work/todo.md")
           out (Some (path_of_str (lit "home/todo.md"))) (Some (path_of_str (lit "work/todo.md")))
           (lit "remember") fresh fresh
           (lit "20240115T103000--todo.org")
           (path_of_str (lit "out/20240115T103000--todo.org"))
           eq_refl eq_refl eq_refl eq_refl (fun _ => eq_refl) (fun _ => eq_refl)
           ltac:(vm_compute; reflexivity)).
Defined.
